(** * A shallow embedding of the object-lifecycle and dependency-resolution
      kernel: CoreObject, Component, Container, ServiceLocator and Module.

    Conventions of the embedding.

    - A JavaScript object used as a dictionary ([registry], [_events],
      [_behaviors], [_definitions], [_singletons], [_components],
      [controllerMap]) is the [gmap] of its own properties.  The sources
      ask such a dictionary in three ways, which agree on a key that is
      one path segment and not a name every object inherits
      ([plain_name]): [obj[name]] and [in] also see the members of
      [Object.prototype] ([inherited]), and object-path ([Op.has],
      [Op.get]) splits the name at its dots ([one_segment]).  The look-ups
      of the embedding are those of an own key.  How object-path descends
      into a stored value for a name of several segments, and the members
      of [Object.prototype] as values, are not part of the embedding.
    - A message that is a template literal over a property name or an ID
      throws TypeError when the name is a symbol ([thrown_naming]).
    - Methods mutate [this]; here every method takes the state it reads and
      returns the state it leaves, together with either a value or the
      exception it throws.  A method that throws after a mutation returns the
      mutated state.
    - Objects with identity (component instances, behaviors, functions) carry
      a numeric identity; [===] on them compares identities.
    - The namespace loader, the file system, the merge package and the
      bodies of user callbacks are collaborators outside the kernel: they
      are the fields of a [world] that the methods receive.  Route
      resolution takes [App.createObject] itself as a collaborator, and
      the alias functions take [FileHelper.normalize], which resolves a
      path against the working directory of the process.
    - Component, Behavior and Event extend BaseObject, which adds nothing
      to CoreObject but its [namespace]: [super.hasProperty] and the like
      are the methods of CoreObject.
    - A string is the sequence of its character codes; [Array.prototype.sort]
      without a comparator orders strings by these codes. *)

From Stdlib Require Import ZArith String Ascii List Bool Lia.
From stdpp Require Import gmap strings list.

Local Open Scope string_scope.
Set Warnings "-register-all".

(** ** JavaScript values, exceptions and results *)

Module JS.

(** The functions the kernel tells apart: a plain function
    ([constructor.name] is ['Function']), an async function
    (['AsyncFunction']), and the wrapper that [Util.promisify] returns for an
    async function: the wrapper takes the prototype of the function it
    wraps, so that its [constructor.name] is ['AsyncFunction'] as well. *)
Inductive fkind := FSync | FPromisified | FAsync.

Inductive value :=
| VUndefined
| VNull
| VBool (b : bool)
| VNum (n : Z)
| VStr (s : string)
| VObject (fields : list (string * value))
    (* a plain object: own enumerable properties in enumeration order *)
| VFunction (k : fkind) (fid : nat)
    (* a function without own enumerable properties *)
| VPromise
    (* a promise, as an async function or a promisified one returns *)
| VComponent (oid : nat) (ns : string).
    (* an instance of Component (or of a subclass); [ns] is what its
       [namespace] getter answers *)

(** The failure kinds of the framework, with the two host errors the
    kernel can run into. *)
Inductive exn :=
| UnknownPropertyException
| InvalidCallException
| InvalidConfigException
| NotInstantiableException
| InvalidRouteException
| TypeError
| RangeError.

Inductive result (A : Type) :=
| Ok (a : A)
| Throw (e : exn).
Arguments Ok {A} a.
Arguments Throw {A} e.

Definition bind {A B} (r : result A) (k : A -> result B) : result B :=
  match r with
  | Ok a => k a
  | Throw e => Throw e
  end.

(** Property keys: a string or a symbol. *)
Inductive key := KStr (s : string) | KSym (n : positive).

#[global] Instance key_eq_dec : EqDecision key.
Proof. solve_decision. Defined.

#[global] Instance key_countable : Countable key.
Proof.
  refine (inj_countable'
            (fun k => match k with KStr s => inl s | KSym n => inr n end)
            (fun x => match x with inl s => KStr s | inr n => KSym n end) _).
  intros []; reflexivity.
Defined.

(** [throw new E(`... ${name} ...`)]: the template literal converts the name
    to a string before [E] is made, and for a symbol that conversion throws
    TypeError. *)
Definition thrown_naming (name : key) (e : exn) : exn :=
  match name with
  | KStr _ => e
  | KSym _ => TypeError
  end.

(** object-path splits the name it is given at the dots and descends one
    property for each piece; for the empty name [Op.get] answers the object
    itself.  A name of one path segment is not empty and holds no dot. *)
Fixpoint no_dot (name : string) : bool :=
  match name with
  | EmptyString => true
  | String c rest => negb (Ascii.eqb c ".") && no_dot rest
  end.

Definition one_segment (name : string) : bool :=
  negb (String.eqb name "") && no_dot name.

(** The names a plain object inherits from [Object.prototype]: [name in obj]
    holds for them whatever the object owns, [obj[name]] then reads the
    inherited member, and [delete obj[name]] leaves it.  A key is own when
    it is none of them. *)
Definition Object_prototype : list string :=
  [ "constructor"; "hasOwnProperty"; "isPrototypeOf"; "propertyIsEnumerable";
    "toLocaleString"; "toString"; "valueOf"; "__proto__";
    "__defineGetter__"; "__defineSetter__"; "__lookupGetter__";
    "__lookupSetter__" ].

Definition inherited (name : string) : bool :=
  existsb (String.eqb name) Object_prototype.

(** A name that is the same key however a dictionary is asked for it: one
    path segment for object-path, and none of the inherited names for [in]
    and [obj[name]]. *)
Definition plain_name (name : string) : bool :=
  one_segment name && negb (inherited name).

(** [Object.prototype] has no member under a symbol. *)
Definition inherited_key (k : key) : bool :=
  match k with
  | KStr name => inherited name
  | KSym _ => false
  end.

(** object-path on a dictionary, for a name of one path segment
    ([one_segment]): [Op.has(obj, name)] tests the own property of that
    name, and [Op.get(obj, name, defaultValue)] reads it, with [None] where
    the default is answered. *)
Definition Op_has {K V} `{Countable K} (obj : gmap K V) (name : K) : bool :=
  bool_decide (is_Some (obj !! name)).

Definition Op_get {K V} `{Countable K} (obj : gmap K V) (name : K) : option V :=
  obj !! name.

(** [!v] is false: the falsy values that [value] can express. *)
Definition truthy (v : value) : bool :=
  match v with
  | VUndefined | VNull => false
  | VBool b => b
  | VNum n => negb (n =? 0)%Z
  | VStr s => negb (String.eqb s "")
  | VObject _ | VFunction _ _ | VPromise | VComponent _ _ => true
  end.

(** ramda's [is(Object, v)]: objects and functions, never a primitive. *)
Definition R_is_Object (v : value) : bool :=
  match v with
  | VObject _ | VFunction _ _ | VPromise | VComponent _ _ => true
  | _ => false
  end.

(** ramda's [is(String, v)]. *)
Definition R_is_String (v : value) : bool :=
  match v with VStr _ => true | _ => false end.

Definition instanceof_Component (v : value) : bool :=
  match v with VComponent _ _ => true | _ => false end.

(** Look-up in the property list of a plain object (an object has one
    property of a given name; the first entry of that name is the property). *)
Fixpoint lookup_field (name : string) (fields : list (string * value))
  : option value :=
  match fields with
  | [] => None
  | (k, v) :: rest =>
      if String.eqb k name then Some v else lookup_field name rest
  end.

(** [fields[name] = v]: in place when the name is there, appended when not *)
Fixpoint set_field (name : string) (v : value) (fields : list (string * value))
  : list (string * value) :=
  match fields with
  | [] => [(name, v)]
  | (k, x) :: rest =>
      if String.eqb k name then (k, v) :: rest
      else (k, x) :: set_field name v rest
  end.

Definition delete_field (name : string) (fields : list (string * value))
  : list (string * value) :=
  List.filter (fun kv => negb (String.eqb (fst kv) name)) fields.

(** [Object.keys(v).length].  A component instance owns at least its
    [registry], [_events] and [_behaviors] fields. *)
Definition keys_length (v : value) : nat :=
  match v with
  | VObject fields => length fields
  | VStr s => String.length s
  | VComponent _ _ => 3
  | _ => 0
  end.

(** ['namespace' in v] for an object-like value; the getter of a component
    lives on its prototype. *)
Definition has_namespace (v : value) : bool :=
  match v with
  | VObject fields => bool_decide (is_Some (lookup_field "namespace" fields))
  | VComponent _ _ => true
  | _ => false
  end.

(** [v['namespace']]. *)
Definition get_namespace (v : value) : value :=
  match v with
  | VObject fields => default VUndefined (lookup_field "namespace" fields)
  | VComponent _ ns => VStr ns
  | _ => VUndefined
  end.

End JS.
Export JS.

(** ** framework/helpers/CallbackHelper *)

Module CallbackHelper.

Definition isFunction (v : value) : bool :=
  match v with VFunction _ _ => true | _ => false end.

(** [isFunction(callback) && callback.constructor.name === 'Function'] *)
Definition isSync (v : value) : bool :=
  match v with VFunction FSync _ => true | _ => false end.

(** [!isSync(callback) && callback.constructor.name === 'AsyncFunction'];
    reading [constructor] of [null] or [undefined] is a TypeError. *)
Definition isAsync (v : value) : result bool :=
  match v with
  | VUndefined | VNull => Throw TypeError
  | VFunction (FAsync | FPromisified) _ => Ok true
  | _ => Ok false
  end.

Definition isActualFunction (v : value) : result bool :=
  if isFunction v then Ok true
  else if isSync v then Ok true
  else isAsync v.

(** [!isActualFunction(value) && !(value instanceof Promise)] *)
Definition isActualValue (v : value) : result bool :=
  bind (isActualFunction v) (fun b =>
    Ok (negb b && negb (match v with VPromise => true | _ => false end))).

(** [CallbackHelper.promisify]: an async function is handed to
    [Util.promisify]; the wrapper keeps the identity of the function it
    calls. *)
Definition promisify (v : value) : result value :=
  bind (isAsync v) (fun async =>
    if negb async then Ok v
    else match v with
         | VFunction _ fid => Ok (VFunction FPromisified fid)
         | _ => Ok v
         end).

End CallbackHelper.

(** ** framework/base/CoreObject, with BaseApp.configure and
       BaseApp.configureRegistry *)

Module CoreObject.

(** The part of an instance that configuration and the accessors touch: the
    data slots ([this[name]]) and the private [registry] of visibility flags
    (['r'] read-only, ['w'] write-only, ['a'] both).  The members of the
    class itself are kept apart from the slots. *)
Record t := mk {
  slots : gmap key value;
  registry : gmap key string
}.

(** The names an instance answers to whatever it was configured with: the
    members of the class and what it inherits from [Object.prototype].
    [name in this] holds for them without a slot, and a configuration key
    of such a name overwrites the member ([namespace] has a getter only, so
    that the assignment throws). *)
Definition members : list string :=
  [ "registry"; "namespace"; "construct"; "init"; "get"; "set"; "unset";
    "has"; "hasProperty"; "canGetProperty"; "canSetProperty"; "hasMethod" ]
  ++ Object_prototype.

Definition is_member (name : string) : bool :=
  existsb (String.eqb name) members.

(** An instance whose slots and registry keep clear of the given names. *)
Definition keeps_clear_of (names : list string) (this : t) : bool :=
  forallb (fun name =>
             negb (bool_decide (is_Some (slots this !! KStr name)))
             && negb (bool_decide (is_Some (registry this !! KStr name))))
          names.

(** An instance that keeps clear of the members: the methods it is called
    with are those of the class, and [name in this] is the presence of a
    slot wherever the registry holds the name. *)
Definition keeps_members (this : t) : bool := keeps_clear_of members this.

(** [Configuration = { [p: string | symbol]: any }], listed in enumeration
    order. *)
Definition Configuration := list (key * value).

(** [Object.entries(config)]: the string-keyed entries; symbol keys are not
    enumerated, so the [typeof name === 'symbol'] branches of [configure] and
    [configureRegistry] never run. *)
Definition Object_entries (config : Configuration) : list (string * value) :=
  omap (fun kv => match fst kv with
                  | KStr s => Some (s, snd kv)
                  | KSym _ => None
                  end) config.

(** [name.replace(/^[-+]/, '')] *)
Definition strip_scope (name : string) : string :=
  match name with
  | String c rest =>
      if (Ascii.eqb c "-" || Ascii.eqb c "+")%bool then rest else name
  | EmptyString => name
  end.

(** [name.startsWith(p)] *)
Definition startsWith (p name : string) : bool := String.prefix p name.

(** BaseApp.configure: [instance[propName] = value] for every entry. *)
Definition configure (instance : gmap key value)
    (properties : Configuration) : gmap key value :=
  fold_left (fun acc nv => <[KStr (strip_scope (fst nv)) := snd nv]> acc)
            (Object_entries properties) instance.

(** The flag BaseApp.configureRegistry derives from a configuration key. *)
Definition scope_of (name : string) : string :=
  if startsWith "-" name then "r"
  else if startsWith "+" name then "w"
  else "a".

(** BaseApp.configureRegistry *)
Definition configureRegistry (reg : gmap key string)
    (properties : Configuration) : gmap key string :=
  fold_left (fun acc nv => <[KStr (strip_scope (fst nv)) := scope_of (fst nv)]> acc)
            (Object_entries properties) reg.

(** The constructor, for a configuration with [plain_keys]; [construct]
    and [init] are empty in CoreObject. *)
Definition new (config : Configuration) : t :=
  let this := mk ∅ ∅ in
  if (0 <? length (Object_entries config))%nat
  then mk (configure (slots this) config)
          (configureRegistry (registry this) config)
  else this.

(** A configuration none of whose keys names a member once the scope
    prefix is stripped: [App.configure] then writes data slots only. *)
Definition plain_keys (config : Configuration) : bool :=
  forallb (fun nv => negb (is_member (strip_scope (fst nv))))
          (Object_entries config).

(** [name in this] *)
Definition in_this (this : t) (name : key) : bool :=
  bool_decide (is_Some (slots this !! name)).

(** [this[name]] *)
Definition read_slot (this : t) (name : key) : value :=
  default VUndefined (slots this !! name).

(** [this.registry[name]] *)
Definition registry_entry (this : t) (name : key) : value :=
  match registry this !! name with
  | Some flag => VStr flag
  | None => VUndefined
  end.

Definition hasProperty (this : t) (name : key) : result bool :=
  if negb (in_this this name) then Ok false
  else match name with
       | KSym _ => Ok false              (* typeof name === 'string' fails *)
       | KStr s =>
           if startsWith "__" s then Ok false
           else if negb (Op_has (registry this) name) then Ok false
           else CallbackHelper.isActualValue (registry_entry this name)
       end.

(** [flags.includes(this.registry[name])] *)
Definition registry_includes (flags : list string) (this : t) (name : key)
  : bool :=
  match registry_entry this name with
  | VStr flag => existsb (String.eqb flag) flags
  | _ => false
  end.

Definition canGetProperty (this : t) (name : key) : result bool :=
  bind (hasProperty this name) (fun has =>
    if negb has then Ok false
    else match name with
         | KSym _ => Ok true
         | KStr _ => Ok (registry_includes ["r"; "a"] this name)
         end).

Definition canSetProperty (this : t) (name : key) : result bool :=
  bind (hasProperty this name) (fun has =>
    if negb has then Ok false
    else match name with
         | KSym _ => Ok true
         | KStr _ => Ok (registry_includes ["w"; "a"] this name)
         end).

Definition get (this : t) (name : key) : result value :=
  bind (hasProperty this name) (fun has =>
    if negb has then Throw (thrown_naming name UnknownPropertyException)
    else bind (canGetProperty this name) (fun can =>
      if negb can then Throw (thrown_naming name InvalidCallException)
      else Ok (read_slot this name))).

(** A mutator returns what it answers and the object it leaves. *)
Definition write_slot (this : t) (name : key) (v : value) : t :=
  mk (<[name := v]> (slots this)) (registry this).

Definition set (this : t) (name : key) (v : value) : result unit * t :=
  match hasProperty this name with
  | Throw e => (Throw e, this)
  | Ok false => (Throw (thrown_naming name UnknownPropertyException), this)
  | Ok true =>
      match canSetProperty this name with
      | Throw e => (Throw e, this)
      | Ok false => (Throw (thrown_naming name InvalidCallException), this)
      | Ok true => (Ok tt, write_slot this name v)
      end
  end.

Definition unset (this : t) (name : key) : result unit * t :=
  match hasProperty this name with
  | Throw e => (Throw e, this)
  | Ok false => (Throw (thrown_naming name UnknownPropertyException), this)
  | Ok true =>
      match canSetProperty this name with
      | Throw e => (Throw e, this)
      | Ok true => (Throw (thrown_naming name InvalidCallException), this)
      | Ok false => (Ok tt, write_slot this name VNull)
      end
  end.

(** CoreObject.hasMethod.  A method is a member of the class, not a slot:
    [member] tells whether the name is one, so that [name in this] holds
    for it. *)
Definition hasMethod (this : t) (name : key) (member : bool) : result bool :=
  if negb (member || in_this this name) then Ok false
  else match name with
       | KSym _ => Ok false
       | KStr s =>
           if startsWith "__" s then Ok false
           else if negb (Op_has (registry this) name) then Ok false
           else CallbackHelper.isActualFunction (registry_entry this name)
       end.

(** CoreObject.has: [this.hasMethod(name) || this.hasProperty(name)] *)
Definition has (this : t) (name : key) (member : bool) : result bool :=
  bind (hasMethod this name member) (fun m =>
    if m then Ok true else hasProperty this name).

End CoreObject.

(** ** framework/helpers/StringHelper and the String methods the kernel
       calls, on ASCII text *)

Module StringHelper.

Definition chars (s : string) : list ascii := list_ascii_of_string s.
Definition text (l : list ascii) : string := string_of_list_ascii l.

(** [haystack.indexOf(needle)], [false] as [None] *)
Definition strpos (haystack needle : string) : option nat :=
  String.index 0 needle haystack.

Fixpoint last_index_from (needle : list ascii) (l : list ascii) (pos : nat)
    (found : option nat) : option nat :=
  let found' :=
    if bool_decide (take (length needle) l = needle) then Some pos else found in
  match l with
  | [] => found'
  | _ :: rest => last_index_from needle rest (S pos) found'
  end.

(** [haystack.lastIndexOf(needle)], [false] as [None] *)
Definition strrpos (haystack needle : string) : option nat :=
  last_index_from (chars needle) (chars haystack) 0 None.

(** [str.substring(a, b)] and [str.substring(a)] *)
Definition substring (a b : nat) (s : string) : string :=
  text (take (b - a) (drop a (chars s))).

Definition substring_from (a : nat) (s : string) : string :=
  text (drop a (chars s)).

Fixpoint drop_while (p : ascii -> bool) (l : list ascii) : list ascii :=
  match l with
  | [] => []
  | c :: rest => if p c then drop_while p rest else l
  end.

(** The characters [\s] matches among ASCII: tab, line feed, vertical tab,
    form feed, carriage return and space. *)
Definition is_space (c : ascii) : bool :=
  let n := nat_of_ascii c in ((9 <=? n) && (n <=? 13) || (n =? 32))%nat.

(** [ltrim(str, chr)], [rtrim(str, chr)] and [trim(str, chr)] for a
    one-character [chr]: the regular expressions [^chr+], [chr+$] and
    [^chr+|chr+$] with the global flag. *)
Definition ltrim (s : string) (chr : ascii) : string :=
  text (drop_while (Ascii.eqb chr) (chars s)).

Definition rtrim (s : string) (chr : ascii) : string :=
  text (rev (drop_while (Ascii.eqb chr) (rev (chars s)))).

Definition trim (s : string) (chr : ascii) : string :=
  text (rev (drop_while (Ascii.eqb chr)
               (rev (drop_while (Ascii.eqb chr) (chars s))))).

(** [str.trim()] of String.prototype *)
Definition js_trim (s : string) : string :=
  text (rev (drop_while is_space (rev (drop_while is_space (chars s))))).

Fixpoint split_chars (sep : ascii) (l : list ascii) (cur : list ascii)
  : list (list ascii) :=
  match l with
  | [] => [rev cur]
  | c :: rest =>
      if Ascii.eqb c sep then rev cur :: split_chars sep rest []
      else split_chars sep rest (c :: cur)
  end.

(** [str.split(sep)] for a one-character separator *)
Definition split (s : string) (sep : ascii) : list string :=
  map text (split_chars sep (chars s) []).

(** [str.split(sep, limit)]: the first [limit] pieces, the others are
    dropped. *)
Definition split_limit (s : string) (sep : ascii) (limit : nat) : list string :=
  take limit (split s sep).

Definition is_lower (c : ascii) : bool :=
  let n := nat_of_ascii c in ((97 <=? n) && (n <=? 122))%nat.
Definition is_upper (c : ascii) : bool :=
  let n := nat_of_ascii c in ((65 <=? n) && (n <=? 90))%nat.
Definition is_digit (c : ascii) : bool :=
  let n := nat_of_ascii c in ((48 <=? n) && (n <=? 57))%nat.

Definition toUpperCase (c : ascii) : ascii :=
  if is_lower c then ascii_of_nat (nat_of_ascii c - 32) else c.

(** [ucFirst(str)] with [lowercase = false] *)
Definition ucFirst (s : string) : string :=
  match s with
  | EmptyString => EmptyString
  | String c rest => String (toUpperCase c) rest
  end.

(** [substr(str, offset, length)] is [str.substring(offset, length)]: the
    third argument is used as the end index, and [substring] swaps its
    arguments when the first is the larger. *)
Definition substr (str : string) (offset length : nat) : string :=
  substring (Nat.min offset length) (Nat.max offset length) str.

(** [strncmp(string1, string2, length)]: 0, 1 or -1 by the order of the
    first [length] characters. *)
Definition strncmp (string1 string2 : string) (length : nat) : Z :=
  match String.compare (substring 0 length string1)
                       (substring 0 length string2) with
  | Eq => 0
  | Gt => 1
  | Lt => -1
  end.

End StringHelper.

(** ** framework/helpers/NamespaceHelper and the loader behind it *)

Module NamespaceHelper.
Import StringHelper.

(** What the kernel asks of a loaded class. *)
Record class_info := {
  cls_constructor : bool;            (* NamespaceHelper.isConstructor *)
  cls_component : bool;              (* instances are [instanceof Component] *)
  cls_namespace : string;            (* what the [namespace] getter answers *)
  cls_ancestors : list string;       (* namespaces of the classes it extends *)
  cls_new : list value -> option exn (* [new C(...args)] throws *)
}.

(** The collaborators: the file system behind [FileHelper.exists], the
    module loader behind [NamespaceHelper.load], the bodies of callables
    behind [Reflect.apply], and [recursive(true, a, b)] of the merge
    package. *)
Record world := {
  file_exists : string -> bool;
  load : string -> option class_info;
  call : nat -> list value -> result value;
  merge_recursive : value -> value -> value
}.

(** [Reflect.apply(callback, thisArg, args)]: the body of a plain function
    is the collaborator's; an async function and a promisified one answer
    a promise. *)
Definition Reflect_apply (w : world) (callback : value) (args : list value)
  : result value :=
  match callback with
  | VFunction FSync fid => call w fid args
  | VFunction _ _ => Ok VPromise
  | _ => Throw TypeError
  end.

Definition seg_char (c : ascii) : bool :=
  is_lower c || Ascii.eqb c "-" || is_digit c.

Definition last_char (c : ascii) : bool :=
  is_upper c || is_lower c || Ascii.eqb c "-" || is_digit c.

(** [[a-z][a-z\-0-9]+] *)
Definition path_segment (l : list ascii) : bool :=
  match l with
  | c :: (_ :: _) as rest => is_lower c && forallb seg_char rest
  | _ => false
  end.

(** [[A-Z][A-Za-z\-0-9]+] *)
Definition class_segment (l : list ascii) : bool :=
  match l with
  | c :: (_ :: _) as rest => is_upper c && forallb last_char rest
  | _ => false
  end.

Fixpoint namespace_segments (segs : list (list ascii)) : bool :=
  match segs with
  | [] => false
  | [_] => false
  | [d; c] => path_segment d && class_segment c
  | d :: rest => path_segment d && namespace_segments rest
  end.

(** [NAMESPACE_REGEX.test(namespace)] with
    [/^[a-z][a-z\-0-9]+(\/[a-z][a-z\-0-9]+)*(\/[A-Z][A-Za-z\-0-9]+)$/]:
    no class of the expression holds a slash, so the pieces between slashes
    are what the groups must match. *)
Definition NAMESPACE_REGEX (namespace : string) : bool :=
  namespace_segments (split_chars "/" (chars namespace) []).

Definition isNamespace (w : world) (namespace : string) : bool :=
  if negb (NAMESPACE_REGEX namespace) then false
  else file_exists w namespace.

(** [Source.prototype instanceof Target]; a namespace that does not load
    answers [null], and reading through it is a TypeError. *)
Definition isSubclassOf (w : world) (source target : string) : result bool :=
  if negb (isNamespace w source) || negb (isNamespace w target) then Ok false
  else match load w source, load w target with
       | Some src, Some _ =>
           Ok (existsb (String.eqb target) (cls_ancestors src))
       | _, _ => Throw TypeError
       end.

Definition word_char (c : ascii) : bool :=
  is_lower c || is_upper c || is_digit c || Ascii.eqb c "_".

(** [s.replace(/-([a-z0-9_])/gi, (m, c) => ucFirst(c))] *)
Fixpoint camelize (l : list ascii) : list ascii :=
  match l with
  | [] => []
  | c :: rest =>
      match rest with
      | d :: rest' =>
          if Ascii.eqb c "-" && word_char d
          then toUpperCase d :: camelize rest'
          else c :: camelize rest
      | [] => [c]
      end
  end.

Definition routeToClassName (route : string) : string :=
  text (camelize (chars (ucFirst route))).

End NamespaceHelper.

(** ** framework/di/Container *)

Module Container.
Import NamespaceHelper.

(** The three registries of a container, and the identity the next
    constructed instance receives. *)
Record t := mk {
  _singletons : gmap string value;
  _definitions : gmap string value;
  _params : gmap string value;
  next_oid : nat
}.

Definition empty : t := mk ∅ ∅ ∅ 0.

Definition with_singletons (c : t) (s : gmap string value) : t :=
  mk s (_definitions c) (_params c) (next_oid c).

(** [configuration.slice(-1)[0]] and
    [configuration.slice(0, configuration.length - 1)] *)
Definition last_element (configuration : list value) : value :=
  List.last configuration VUndefined.

Definition but_last (configuration : list value) : list value :=
  removelast configuration.

(** Container.splitConfigList *)
Definition splitConfigList (configuration : list value)
  : list value * value :=
  if (1 <? length configuration)%nat
  then (but_last configuration, last_element configuration)
  else if (length configuration =? 0)%nat
  then ([], nth 0 configuration VUndefined)
  else ([], VObject []).

(** [Object.keys(params).length], a TypeError on [null] and [undefined] *)
Definition own_keys_length (v : value) : result nat :=
  match v with
  | VUndefined | VNull => Throw TypeError
  | _ => Ok (keys_length v)
  end.

(** Container.mergeParams *)
Definition mergeParams (w : world) (c : t) (namespace : string)
    (params : value) : result value :=
  match _params c !! namespace with
  | None => Ok params
  | Some registered =>
      bind (own_keys_length params) (fun n =>
        if (n =? 0)%nat then Ok registered
        else Ok (merge_recursive w registered params))
  end.

(** Container.normalizeDefinition *)
Definition normalizeDefinition (namespace : string) (definition : value)
  : result value :=
  if negb (truthy definition) || R_is_String definition
     || (keys_length definition =? 0)%nat
  then Ok (VObject [("namespace", VStr namespace)])
  else
    bind (CallbackHelper.isActualFunction definition) (fun is_fn =>
      if is_fn then CallbackHelper.promisify definition
      else if instanceof_Component definition then Ok definition
      else if R_is_Object definition then
        if negb (has_namespace definition) then Throw InvalidConfigException
        else Ok definition
      else Throw InvalidConfigException).


(** The body of Container.set, on the values of its parameters.  The
    method is declared [set(namespace, definition = null, params = {})]:
    the defaults have stood in before the body runs, so that the body
    never sees [undefined] for [params]; a caller that hands over
    [undefined] is the call with [or_empty_object params].
    [normalizeDefinition] treats [null] and [undefined] alike. *)
Definition set (c : t) (namespace : string) (definition params : value)
  : result unit * t :=
  match normalizeDefinition namespace definition with
  | Throw e => (Throw e, c)
  | Ok d =>
      (Ok tt, mk (delete namespace (_singletons c))
                 (<[namespace := d]> (_definitions c))
                 (<[namespace := params]> (_params c))
                 (next_oid c))
  end.

(** Container.setSingleton; [params || {}] *)
Definition setSingleton (c : t) (namespace : string)
    (definition params : value) : result unit * t :=
  match normalizeDefinition namespace definition with
  | Throw e => (Throw e, c)
  | Ok d =>
      (Ok tt, mk (<[namespace := VNull]> (_singletons c))
                 (<[namespace := d]> (_definitions c))
                 (<[namespace := if truthy params then params else VObject []]>
                    (_params c))
                 (next_oid c))
  end.

(** Container.build *)
Definition build (w : world) (c : t) (namespace : string)
    (configuration : list value) : result value * t :=
  if negb (isNamespace w namespace) then (Throw NotInstantiableException, c)
  else match load w namespace with
       | None => (Throw NotInstantiableException, c)
       | Some cls =>
           if negb (cls_constructor cls)
           then (Throw NotInstantiableException, c)
           else match cls_new cls configuration with
                | Some e => (Throw e, c)
                | None =>
                    let c' := mk (_singletons c) (_definitions c) (_params c)
                                 (S (next_oid c)) in
                    if negb (cls_component cls)
                    then (Throw NotInstantiableException, c')
                    else (Ok (VComponent (next_oid c) (cls_namespace cls)), c')
                end
       end.

(** Container.invoke *)
Definition invoke (w : world) (callback : value) (configuration : list value)
  : result value :=
  if negb (CallbackHelper.isSync callback) then Throw InvalidConfigException
  else Reflect_apply w callback configuration.

(** The tail of Container.get: a key held by [_singletons] receives the
    component. *)
Definition remember (c : t) (namespace : string) (component : value) : t :=
  if bool_decide (is_Some (_singletons c !! namespace))
  then with_singletons c (<[namespace := component]> (_singletons c))
  else c.

(** Container.get.  [depth] bounds the nesting of [this.get(concrete, ...)];
    a chain of definitions that exceeds it ends as the host's RangeError.
    The registries are asked for their own keys: for an inherited name
    that a registry does not own, [in] holds as well and the code goes on
    with the inherited member, which is no value of the embedding.
    [DefinitionContainer] declares [namespace] a string: a definition that
    holds another value there is outside the declared type and is answered
    by TypeError. *)
Fixpoint get (w : world) (depth : nat) (c : t) (namespace : string)
    (configuration : list value) : result value * t :=
  match depth with
  | O => (Throw RangeError, c)
  | S depth' =>
      let '(args, params) := splitConfigList configuration in
      match _singletons c !! namespace with
      | Some cached => (Ok cached, c)
      | None =>
          match _definitions c !! namespace with
          | None => build w c namespace configuration
          | Some definition =>
              match CallbackHelper.isActualFunction definition with
              | Throw e => (Throw e, c)
              | Ok true =>
                  match invoke w definition configuration with
                  | Throw e => (Throw e, c)
                  | Ok component =>
                      if negb (R_is_Object component)
                         || negb (instanceof_Component component)
                      then (Throw NotInstantiableException, c)
                      else (Ok component, remember c namespace component)
                  end
              | Ok false =>
                  if R_is_Object definition then
                    match mergeParams w c namespace params with
                    | Throw e => (Throw e, c)
                    | Ok newParams =>
                        match get_namespace definition with
                        | VStr concrete =>
                            let '(r, c') :=
                              if String.eqb concrete namespace
                              then build w c concrete (args ++ [newParams])
                              else get w depth' c concrete (args ++ [newParams]) in
                            match r with
                            | Throw e => (Throw e, c')
                            | Ok component =>
                                (Ok component, remember c' namespace component)
                            end
                        | _ => (Throw TypeError, c)
                        end
                    end
                  else if instanceof_Component definition then
                    (Ok definition,
                     with_singletons c (<[namespace := definition]> (_singletons c)))
                  else (Throw InvalidConfigException, c)
              end
          end
      end
  end.

(** Container.has: [namespace in this._definitions], which holds for an
    own key and for every inherited name. *)
Definition has (c : t) (namespace : string) : bool :=
  bool_decide (is_Some (_definitions c !! namespace)) || inherited namespace.

(** Container.hasSingleton *)
Definition hasSingleton (c : t) (namespace : string) (checkInstance : bool)
  : bool :=
  if checkInstance
  then negb (match default VNull (Op_get (_singletons c) namespace) with
             | VNull => true
             | _ => false
             end)
       && instanceof_Component (default VUndefined (_singletons c !! namespace))
  else Op_has (_singletons c) namespace.

(** Container.clear; [delete] removes an own key and nothing else. *)
Definition clear (c : t) (namespace : string) : t :=
  mk (delete namespace (_singletons c)) (delete namespace (_definitions c))
     (_params c) (next_oid c).

(** An entry of the object handed to Container.setDefinitions and
    Container.setSingletons: a definition, or an array that holds the
    definition and the parameters. *)
Inductive registration :=
  | Single (definition : value)
  | Paired (items : list value).

(** Container.setDefinitions on the entries of its argument; the loop ends
    at the first [set] that throws. *)
Fixpoint setDefinitions (c : t) (definitions : list (string * registration))
  : result unit * t :=
  match definitions with
  | [] => (Ok tt, c)
  | (namespace, definition) :: rest =>
      let r :=
        match definition with
        | Paired items =>
            set c namespace (nth 0 items VUndefined)
                (match nth 1 items VUndefined with
                 | VUndefined => VObject []
                 | params => params
                 end)
        | Single d => set c namespace d (VObject [])
        end in
      match r with
      | (Throw e, c') => (Throw e, c')
      | (Ok _, c') => setDefinitions c' rest
      end
  end.

(** Container.setSingletons *)
Fixpoint setSingletons (c : t) (singletons : list (string * registration))
  : result unit * t :=
  match singletons with
  | [] => (Ok tt, c)
  | (namespace, definitions) :: rest =>
      let r :=
        match definitions with
        | Paired items =>
            setSingleton c namespace (nth 0 items VUndefined)
                         (match nth 1 items VUndefined with
                          | VUndefined => VObject []
                          | params => params
                          end)
        | Single d => setSingleton c namespace d (VObject [])
        end in
      match r with
      | (Throw e, c') => (Throw e, c')
      | (Ok _, c') => setSingletons c' rest
      end
  end.

End Container.

(** ** BaseApp.createObject, on the global container [App.container] *)

Module App.
Import NamespaceHelper.

(** [Op.del(type, 'namespace')]: the own property goes; the getter of a
    component is not an own property. *)
Definition del_namespace (type : value) : value :=
  match type with
  | VObject fields => VObject (delete_field "namespace" fields)
  | _ => type
  end.

(** [const [config = {}] = configuration.slice(-1)] *)
Definition last_or_empty (configuration : list value) : value :=
  match Container.last_element configuration with
  | VUndefined => VObject []
  | v => v
  end.

(** What [App.createObject] leaves of the [type] it is handed: a
    configuration object with a [namespace] has lost it, whatever the
    container answers; every other value is as it was. *)
Definition consumed (type : value) : value :=
  match type with
  | VStr _ => type
  | _ =>
      match CallbackHelper.isActualFunction type with
      | Ok false =>
          if R_is_Object type && has_namespace type then del_namespace type
          else type
      | _ => type
      end
  end.

(** BaseApp.createObject, with the default [thisArg].  The caller's [type]
    object is mutated by [Op.del], so the object it has become is returned
    with the answer.  As in [Container.get], a [namespace] that is not a
    string is outside the declared type. *)
Definition createObject (w : world) (depth : nat) (container : Container.t)
    (type : value) (configuration : list value)
  : result value * value * Container.t :=
  match type with
  | VStr namespace =>
      let '(r, c') := Container.get w depth container namespace configuration in
      (r, type, c')
  | _ =>
      match CallbackHelper.isActualFunction type with
      | Throw e => (Throw e, type, container)
      | Ok true => (Container.invoke w type configuration, type, container)
      | Ok false =>
          if negb (R_is_Object type)
          then (Throw InvalidConfigException, type, container)
          else if has_namespace type then
            let namespace := get_namespace type in
            let type' := del_namespace type in
            match Container.own_keys_length (last_or_empty configuration) with
            | Throw e => (Throw e, type', container)
            | Ok n =>
                let configuration' :=
                  if (n =? 0)%nat
                  then (Container.but_last configuration ++ [type'])%list
                  else configuration in
                match namespace with
                | VStr ns =>
                    let '(r, c') :=
                      Container.get w depth container ns configuration' in
                    (r, type', c')
                | _ => (Throw TypeError, type', container)
                end
            end
          else (Throw InvalidConfigException, type, container)
      end
  end.

End App.

(** ** framework/di/ServiceLocator *)

Module ServiceLocator.
Import NamespaceHelper.

Record t := mk {
  _components : gmap key value;
  _definitions : gmap key value
}.

Definition empty : t := mk ∅ ∅.

(** ServiceLocator.has: [id in this._components] or
    [id in this._definitions], which hold for an own key and for every
    inherited name. *)
Definition has (l : t) (id : key) (checkInstance : bool) : bool :=
  (if checkInstance then bool_decide (is_Some (_components l !! id))
   else bool_decide (is_Some (_definitions l !! id)))
  || inherited_key id.

(** The end of [get] for an ID that could not be served. *)
Definition unknown_id (id : key) (throwException : bool) : result value :=
  if throwException then Throw (thrown_naming id InvalidConfigException)
  else Ok VNull.

(** ServiceLocator.get; the state is the locator and [App.container].  The
    two tables are asked for their own keys: for an inherited name that a
    table does not own, [in] holds as well and the code goes on with the
    inherited member, which is no value of the embedding. *)
Definition get (w : world) (depth : nat) (l : t) (container : Container.t)
    (id : key) (throwException : bool) : result value * t * Container.t :=
  match _components l !! id with
  | Some component => (Ok component, l, container)
  | None =>
      match _definitions l !! id with
      | Some definition =>
          if instanceof_Component definition
          then (Ok definition,
                mk (<[id := definition]> (_components l))
                   (delete id (_definitions l)),
                container)
          else match id with
               | KStr _ =>
                   let '(r, config', c') :=
                     App.createObject w depth container definition [VObject []] in
                   let l' := mk (_components l)
                                (<[id := config']> (_definitions l)) in
                   match r with
                   | Throw e => (Throw e, l', c')
                   | Ok component =>
                       (Ok component,
                        mk (<[id := component]> (_components l'))
                           (_definitions l'),
                        c')
                   end
               | KSym _ => (unknown_id id throwException, l, container)
               end
      | None => (unknown_id id throwException, l, container)
      end
  end.

(** ServiceLocator.set *)
Definition set (w : world) (l : t) (id : key) (definition : value)
  : result unit * t :=
  let l1 := mk (delete id (_components l)) (_definitions l) in
  let l2 := match definition with
            | VNull => mk (_components l1) (delete id (_definitions l1))
            | _ => l1
            end in
  let store d := (Ok tt, mk (_components l2) (<[id := d]> (_definitions l2))) in
  match definition with
  | VStr s =>
      if isNamespace w s then store (VObject [("namespace", VStr s)])
      else (Throw InvalidConfigException, l2)
  | VComponent _ _ => store definition
  | VFunction FSync _ =>
      match Reflect_apply w definition [] with
      | Throw e => (Throw e, l2)
      | Ok instance =>
          if negb (instanceof_Component instance)
          then (Throw InvalidConfigException, l2)
          else store instance
      end
  | _ =>
      if R_is_Object definition then
        if has_namespace definition then store definition
        else (Throw InvalidConfigException, l2)
      else (Throw InvalidConfigException, l2)
  end.

(** ServiceLocator.clear *)
Definition clear (l : t) (id : key) : t :=
  mk (delete id (_components l)) (delete id (_definitions l)).

(** ServiceLocator.getComponents *)
Definition getComponents (l : t) (returnDefinitions : bool) : gmap key value :=
  if returnDefinitions then _definitions l else _components l.

(** ServiceLocator.setComponents on a plain object, given by its entries;
    the loop ends at the first [set] that throws. *)
Fixpoint setComponents (w : world) (l : t) (components : list (string * value))
  : result unit * t :=
  match components with
  | [] => (Ok tt, l)
  | (id, component) :: rest =>
      match set w l (KStr id) component with
      | (Throw e, l') => (Throw e, l')
      | (Ok _, l') => setComponents w l' rest
      end
  end.

End ServiceLocator.

(** ** framework/base/Component with framework/base/Event and
       framework/base/Behavior *)

Module Component.

(** The fields of framework/base/Event. *)
Record Event := mkEvent {
  name : string;
  sender : value;
  handled : bool;
  data : value
}.

(** [new Event()] *)
Definition new_Event : Event := mkEvent "" VNull false VNull.

(** An event handler: a function with an identity and a
    [constructor.name]; applied to the event object, its body leaves the
    event in a new state or throws; [h_calls_back] tells whether the body
    calls a trailing error-first callback when it is handed one. *)
Record handler := mkHandler {
  h_fid : nat;
  h_kind : fkind;
  h_body : Event -> result Event;
  h_calls_back : bool
}.

(** [data[0] === handler] *)
Definition same_handler (a b : handler) : bool := (h_fid a =? h_fid b)%nat.

(** [CallbackHelper.isAsync(handler)] *)
Definition isAsync (h : handler) : bool :=
  match h_kind h with FAsync | FPromisified => true | FSync => false end.

(** What [await callback.call(null, event)] comes to. *)
Inductive settled :=
| Fulfilled (e : Event)
| Rejected (x : exn)
| NeverSettles (e : Event).

(** [Util.promisify(handler)] applied to the event: the handler runs with
    the event and an error-first callback; the promise settles when that
    callback is called, and what the handler itself returns (the promise of
    an async function, fulfilled or rejected) is dropped. *)
Definition Util_promisify (h : handler) (ev : Event) : settled :=
  match h_body h ev with
  | Ok ev' => if h_calls_back h then Fulfilled ev' else NeverSettles ev'
  | Throw _ => NeverSettles ev
  end.

(** [CallbackHelper.promisify(handler).call(null, event)], awaited:
    [promisify] answers [!isAsync(callback) ? callback : Util.promisify(callback)]. *)
Definition await_callback (h : handler) (ev : Event) : settled :=
  if negb (isAsync h)
  then match h_body h ev with
       | Ok ev' => Fulfilled ev'
       | Throw x => Rejected x
       end
  else Util_promisify h ev.

(** The own enumerable properties a spread copies; the internal fields of a
    component instance are not represented and are left out. *)
Definition own_enumerable (v : value) : list (string * value) :=
  match v with VObject fields => fields | _ => [] end.

(** [{...a, ...b}] *)
Definition spread (a b : value) : value :=
  VObject (fold_left (fun acc kv => set_field (fst kv) (snd kv) acc)
                     (own_enumerable b) (own_enumerable a)).

(** The assignment to [event.data] in the loop of [trigger]. *)
Definition merge_data (d : value) (event_data : value) : value :=
  if R_is_Object d && (R_is_Object event_data || negb (truthy event_data))
  then spread d (if truthy event_data then event_data else VObject [])
  else if truthy event_data then event_data else d.

Inductive completion :=
| Completed                 (* the promise of [trigger] resolved *)
| Failed (x : exn)          (* it rejected *)
| Pending.                  (* it awaits a promise that never settles *)

(** What a call of [trigger] comes to: how it ends, the event object as the
    handlers left it, and the identities of the handlers that were invoked,
    in order of invocation. *)
Record dispatched := mkDispatched {
  outcome : completion;
  event : Event;
  invoked : list nat
}.

(** The [for await] loop of [trigger]. *)
Fixpoint dispatch (eventHandlers : list (handler * value)) (ev : Event)
    (trace : list nat) : dispatched :=
  match eventHandlers with
  | [] => mkDispatched Completed ev trace
  | (h, d) :: rest =>
      let ev1 := mkEvent (name ev) (sender ev) (handled ev)
                         (merge_data d (data ev)) in
      let trace' := (trace ++ [h_fid h])%list in
      match await_callback h ev1 with
      | Fulfilled ev2 =>
          if handled ev2 then mkDispatched Completed ev2 trace'
          else dispatch rest ev2 trace'
      | Rejected x => mkDispatched (Failed x) ev1 trace'
      | NeverSettles ev2 => mkDispatched Pending ev2 trace'
      end
  end.

(** A behavior: its owner (the identity of a component, [null] as [None]),
    the handlers it attached, and what its [events()] declares. *)
Record behavior := mkBehavior {
  owner : option nat;
  _attachedEvents : list (string * handler);
  events : list (string * handler)
}.

(** A component: [_events], and [_behaviors] ([null] as [None]). *)
Record component := mkComponent {
  _events : gmap string (list (handler * value));
  _behaviors : option (gmap string nat)
}.

(** [new Component()]: both fields are initialised to [{}]. *)
Definition new_Component : component := mkComponent ∅ (Some ∅).

(** Component.ensureBehaviors; [behaviors()] of Component answers [{}]. *)
Definition ensureBehaviors (c : component) : component :=
  match _behaviors c with
  | None => mkComponent (_events c) (Some ∅)
  | Some _ => c
  end.

Definition behaviors_of (c : component) : gmap string nat :=
  default ∅ (_behaviors c).

(** Component.on *)
Definition on (c : component) (name : string) (h : handler) (d : value)
    (append : bool) : component :=
  let c := ensureBehaviors c in
  let current :=
    if negb (Op_has (_events c) name) then []
    else default [] (_events c !! name) in
  mkComponent
    (<[name := if append then (current ++ [(h, d)])%list
               else (h, d) :: current]> (_events c))
    (_behaviors c).

(** The loop of [off]: the first entry of the handler is removed. *)
Fixpoint remove_first (h : handler) (l : list (handler * value))
  : option (list (handler * value)) :=
  match l with
  | [] => None
  | (h', d) :: rest =>
      if same_handler h' h then Some rest
      else match remove_first h rest with
           | Some rest' => Some ((h', d) :: rest')
           | None => None
           end
  end.

(** Component.off; [handler = null] as [None] *)
Definition off (c : component) (name : string) (h : option handler)
  : bool * component :=
  let c := ensureBehaviors c in
  if negb (Op_has (_events c) name) then (false, c)
  else match h with
       | None => (true, mkComponent (delete name (_events c)) (_behaviors c))
       | Some h =>
           match remove_first h (default [] (_events c !! name)) with
           | Some handlers' =>
               (true, mkComponent (<[name := handlers']> (_events c))
                                  (_behaviors c))
           | None => (false, c)
           end
       end.

(** Component.trigger; [event = null] as [None].  A name without an entry
    in [_events] returns at once: no handler is invoked and no event is
    built. *)
Definition trigger (c : component) (name : string) (ev : option Event)
  : option dispatched * component :=
  let c := ensureBehaviors c in
  if negb (Op_has (_events c) name) then (None, c)
  else
    let ev := default new_Event ev in
    let ev := mkEvent name (sender ev) false (data ev) in
    let eventHandlers := default [] (Op_get (_events c) name) in
    (Some (dispatch eventHandlers ev []), c).

(** The objects with identity, by identity. *)
Record store := mkStore {
  components : nat -> component;
  behaviors : nat -> behavior
}.

Definition put_component (s : store) (this : nat) (c : component) : store :=
  mkStore (fun i => if (i =? this)%nat then c else components s i)
          (behaviors s).

Definition put_behavior (s : store) (b : nat) (x : behavior) : store :=
  mkStore (components s)
          (fun i => if (i =? b)%nat then x else behaviors s i).

(** [this._attachedEvents[event] = handler] *)
Fixpoint set_attached (event : string) (h : handler)
    (attached : list (string * handler)) : list (string * handler) :=
  match attached with
  | [] => [(event, h)]
  | (k, x) :: rest =>
      if String.eqb k event then (k, h) :: rest
      else (k, x) :: set_attached event h rest
  end.

(** Behavior.attach *)
Definition Behavior_attach (s : store) (b : nat) (owner : nat) : store :=
  let x := behaviors s b in
  let attached :=
    fold_left (fun acc eh => set_attached (fst eh) (snd eh) acc)
              (events x) (_attachedEvents x) in
  let c := fold_left (fun c eh => on c (fst eh) (snd eh) VNull true)
                     (events x) (components s owner) in
  put_component (put_behavior s b (mkBehavior (Some owner) attached (events x)))
                owner c.

(** Behavior.detach *)
Definition Behavior_detach (s : store) (b : nat) : store :=
  let x := behaviors s b in
  match owner x with
  | None => s
  | Some o =>
      let c := fold_left (fun c eh => snd (off c (fst eh) (Some (snd eh))))
                         (_attachedEvents x) (components s o) in
      put_behavior (put_component s o c) b (mkBehavior None [] (events x))
  end.

(** Component.attachBehaviorInternal *)
Definition attachBehaviorInternal (s : store) (this : nat) (name : string)
    (b : nat) : nat * store :=
  if Op_has (behaviors_of (components s this)) name
  then match behaviors_of (components s this) !! name with
       | Some existing => (b, Behavior_detach s existing)
       | None => (b, s)
       end
  else
    let s1 := Behavior_attach s b this in
    let c := components s1 this in
    (b, put_component s1 this
          (mkComponent (_events c) (Some (<[name := b]> (behaviors_of c))))).

(** Component.attachBehavior *)
Definition attachBehavior (s : store) (this : nat) (name : string) (b : nat)
  : nat * store :=
  let s := put_component s this (ensureBehaviors (components s this)) in
  attachBehaviorInternal s this name b.

(** Component.getBehavior; [null] as [None] *)
Definition getBehavior (s : store) (this : nat) (name : string)
  : option nat * store :=
  let s := put_component s this (ensureBehaviors (components s this)) in
  (Op_get (behaviors_of (components s this)) name, s).

(** Component.detachBehavior *)
Definition detachBehavior (s : store) (this : nat) (name : string)
  : option nat * store :=
  let s := put_component s this (ensureBehaviors (components s this)) in
  let c := components s this in
  if Op_has (behaviors_of c) name
  then match behaviors_of c !! name with
       | Some b =>
           let s1 := put_component s this
                       (mkComponent (_events c)
                                    (Some (delete name (behaviors_of c)))) in
           (Some b, Behavior_detach s1 b)
       | None => (None, s)
       end
  else (None, s).

(** Event.hasHandlers on the class-level registry [Event._events] *)
Definition Event_hasHandlers (class_events : gmap string (list (handler * value)))
    (name : string) : bool :=
  negb (length (default [] (Op_get class_events name)) =? 0)%nat.

(** Component.hasEventHandlers *)
Definition hasEventHandlers (c : component)
    (class_events : gmap string (list (handler * value))) (name : string)
  : bool * component :=
  let c := ensureBehaviors c in
  (if Op_has (_events c) name then true
   else Event_hasHandlers class_events name, c).

(** Component.getBehaviors *)
Definition getBehaviors (s : store) (this : nat) : gmap string nat * store :=
  let s := put_component s this (ensureBehaviors (components s this)) in
  (behaviors_of (components s this), s).

End Component.

(** ** framework/base/Module: route resolution *)

Module BaseModule.
Import StringHelper NamespaceHelper.

(** The fields of a module that route resolution reads.  A child slot of
    [_modules] holds a module instance or a configuration still to be
    handed to [App.createObject]. *)
Inductive module :=
| mkModule (oid : nat) (namespace : string) (id : string)
    (controllerMap : gmap string value) (controllerNamespace : option string)
    (defaultRoute : string) (_modules : list (string * child))
with child :=
| Instance (m : module)
| Config (config : value).

Definition oid (m : module) : nat :=
  match m with mkModule x _ _ _ _ _ _ => x end.
Definition namespace (m : module) : string :=
  match m with mkModule _ x _ _ _ _ _ => x end.
Definition id (m : module) : string :=
  match m with mkModule _ _ x _ _ _ _ => x end.
Definition controllerMap (m : module) : gmap string value :=
  match m with mkModule _ _ _ x _ _ _ => x end.
Definition controllerNamespace (m : module) : option string :=
  match m with mkModule _ _ _ _ x _ _ => x end.
Definition defaultRoute (m : module) : string :=
  match m with mkModule _ _ _ _ _ x _ => x end.
Definition _modules (m : module) : list (string * child) :=
  match m with mkModule _ _ _ _ _ _ x => x end.

(** [id in this._modules] with [this._modules[id]], for an own key *)
Fixpoint lookup_child (name : string) (children : list (string * child))
  : option child :=
  match children with
  | [] => None
  | (k, c) :: rest =>
      if String.eqb k name then Some c else lookup_child name rest
  end.

(** [this._modules[id] = c] for a name that is there *)
Fixpoint store_child (name : string) (c : child)
    (children : list (string * child)) : list (string * child) :=
  match children with
  | [] => [(name, c)]
  | (k, x) :: rest =>
      if String.eqb k name then (k, c) :: rest
      else (k, x) :: store_child name c rest
  end.

Definition with_modules (m : module) (children : list (string * child))
  : module :=
  mkModule (oid m) (namespace m) (id m) (controllerMap m)
           (controllerNamespace m) (defaultRoute m) children.

Definition with_controllerMap (m : module) (map : gmap string value)
  : module :=
  mkModule (oid m) (namespace m) (id m) map (controllerNamespace m)
           (defaultRoute m) (_modules m).

(** A module as an argument of a constructor. *)
Definition as_value (m : module) : value := VComponent (oid m) (namespace m).

Definition all_chars (p : ascii -> bool) (s : string) : bool :=
  forallb p (chars s).

Definition class_name_char (c : ascii) : bool :=
  is_lower c || is_digit c || Ascii.eqb c "/" || Ascii.eqb c "-"
  || Ascii.eqb c "_".

Definition prefix_char (c : ascii) : bool :=
  is_lower c || is_upper c || is_digit c || Ascii.eqb c "_"
  || Ascii.eqb c "/".

(** Module.isIncorrectClassNameOrPrefix, with
    [/^[a-z][a-z0-9/\-_]*$/] and [/^[a-z0-9_/]+$/i] *)
Definition isIncorrectClassNameOrPrefix (className prefix : string) : bool :=
  let well_named :=
    match chars className with
    | c :: rest => is_lower c && forallb class_name_char rest
    | [] => false
    end in
  if negb well_named then true
  else if negb (String.eqb (js_trim prefix) "")
          && negb (negb (String.eqb prefix "") && all_chars prefix_char prefix)
  then true
  else false.

Section Resolution.

(** The loader, and the collaborators of resolution: [App.createObject]
    (with the default [thisArg]), and the view of an instance it returns
    as a module, [None] when it is not [instanceof Module]. *)
Variable w : world.
Variable createObject : value -> list value -> result value.
Variable as_module : value -> option module.

(** Module.createControllerByID; [null] as [None] *)
Definition createControllerByID (this : module) (id : string)
  : result (option value) :=
  let '(prefix, className) :=
    match strrpos id "/" with
    | None => ("", id)
    | Some pos => (substring 0 (pos + 1) id, substring_from (pos + 1) id)
    end in
  if isIncorrectClassNameOrPrefix className prefix then Ok None
  else
    let className := routeToClassName className +:+ "Controller" in
    let className :=
      ltrim (default "" (controllerNamespace this) +:+ "/" +:+ prefix
             +:+ className) "/" in
    if bool_decide (is_Some (strpos className "-"))
       || negb (isNamespace w className)
    then Ok None
    else
      bind (isSubclassOf w className "framework/base/Controller") (fun sub =>
        if sub then
          bind (createObject (VStr className)
                  [VStr id; as_value this; VObject []]) (fun controller =>
            match controller with
            | VUndefined | VNull => Throw TypeError
            | _ =>
                match get_namespace controller with
                | VStr ns =>
                    if String.eqb ns className then Ok (Some controller)
                    else Ok None
                | _ => Ok None
                end
            end)
        else Ok None).

(** Module.getModule with [load = true], for an [id] without a slash (the
    only ones [createController] asks for); [null] as [None].  The
    configuration held by [_modules] is the object [App.createObject]
    works on, so that it stays there as [App.createObject] leaves it when
    no module comes of it.  A created value that is not a module has no
    [constructor.setInstance] to call: a TypeError.  The record
    [setInstance] keeps in [App.app.loadedModules] is not part of the state
    here. *)
Definition getModule (this : module) (id : string)
  : result (option module) * module :=
  match lookup_child id (_modules this) with
  | None => (Ok None, this)
  | Some (Instance m) => (Ok (Some m), this)
  | Some (Config config) =>
      let left :=
        with_modules this
          (store_child id (Config (App.consumed config)) (_modules this)) in
      match createObject config [VStr id; as_value this; VObject []] with
      | Throw e => (Throw e, left)
      | Ok made =>
          match as_module made with
          | Some m =>
              (Ok (Some m),
               with_modules this (store_child id (Instance m) (_modules this)))
          | None => (Throw TypeError, left)
          end
      end
  end.

(** The first segment of a route and what follows it:
    [[id, route] = route.split('/', 2)] when the route holds a slash. *)
Definition split_route (route : string) : string * string :=
  match strpos route "/" with
  | Some _ =>
      let pieces := split_limit route "/" 2 in
      (nth 0 pieces "", nth 1 pieces "")
  | None => (route, "")
  end.

(** Module.createController; [false] as [None].  [depth] bounds the nesting
    of [module.createController(route)].  The configuration held by
    [controllerMap] is the object [App.createObject] works on, and stays
    there as [App.createObject] leaves it.  [controllerMap] and [_modules]
    are asked for their own keys: a first segment that is an inherited
    name is found by [in] in either table, with the inherited member for
    its configuration, which is no value of the embedding. *)
Fixpoint createController (depth : nat) (this : module) (route : string)
  : result (option (value * string)) * module :=
  match depth with
  | O => (Throw RangeError, this)
  | S depth' =>
      let route := if String.eqb (js_trim route) "" then defaultRoute this
                   else route in
      let route := trim route "/" in
      let '(id, route) := split_route route in
      match controllerMap this !! id with
      | Some config =>
          let left :=
            with_controllerMap this
              (<[id := App.consumed config]> (controllerMap this)) in
          match createObject config [VStr id; as_value this] with
          | Throw e => (Throw e, left)
          | Ok controller => (Ok (Some (controller, route)), left)
          end
      | None =>
          match getModule this id with
          | (Throw e, this') => (Throw e, this')
          | (Ok (Some m), this') =>
              let '(r, m') := createController depth' m route in
              (r, with_modules this'
                    (store_child id (Instance m') (_modules this')))
          | (Ok None, this') =>
              let '(id, route) :=
                match strrpos route "/" with
                | Some pos =>
                    (id +:+ "/" +:+ substring 0 pos route,
                     substring_from (pos + 1) route)
                | None => (id, route)
                end in
              match createControllerByID this' id with
              | Throw e => (Throw e, this')
              | Ok (Some controller) => (Ok (Some (controller, route)), this')
              | Ok None =>
                  if negb (String.eqb (js_trim route) "") then
                    match createControllerByID this' (id +:+ "/" +:+ route) with
                    | Throw e => (Throw e, this')
                    | Ok (Some controller) =>
                        (Ok (Some (controller, "")), this')
                    | Ok None => (Ok None, this')
                    end
                  else (Ok None, this')
              end
          end
      end
  end.

End Resolution.

End BaseModule.

(** ** framework/base/Component: properties of the component and of its
       behaviors, with framework/base/Action *)

Module ComponentProperties.

(** The part of a component that its property methods touch: the property
    state it has as a CoreObject (BaseObject adds nothing to CoreObject but
    its namespace), and the property states of its behaviors in the order
    of [Object.values(this._behaviors)]. *)
Record t := mk {
  self : CoreObject.t;
  attached : list CoreObject.t
}.

(** The members of Component and of Behavior, with those they have from
    CoreObject. *)
Definition Component_members : list string :=
  [ "_events"; "_behaviors"; "behaviors"; "hasEventHandlers"; "on"; "off";
    "trigger"; "getBehavior"; "getBehaviors"; "attachBehavior";
    "attachBehaviors"; "detachBehavior"; "detachBehaviors";
    "ensureBehaviors"; "attachBehaviorInternal" ]
  ++ CoreObject.members.

Definition Behavior_members : list string :=
  [ "owner"; "_attachedEvents"; "events"; "attach"; "detach" ]
  ++ CoreObject.members.

(** A component whose slots and registry, and those of its behaviors, keep
    clear of the members of their classes. *)
Definition keeps_members (this : t) : bool :=
  CoreObject.keeps_clear_of Component_members (self this)
  && forallb (CoreObject.keeps_clear_of Behavior_members) (attached this).

(** The loops that answer true at the first behavior that passes a test. *)
Fixpoint some_behavior (test : CoreObject.t -> result bool)
    (behaviors : list CoreObject.t) : result bool :=
  match behaviors with
  | [] => Ok false
  | behavior :: rest =>
      bind (test behavior) (fun passed =>
        if passed then Ok true else some_behavior test rest)
  end.

(** Component.hasProperty *)
Definition hasProperty (this : t) (name : key) (checkBehaviors : bool)
  : result bool :=
  bind (CoreObject.hasProperty (self this) name) (fun own =>
    if own then Ok true
    else if checkBehaviors
    then some_behavior (fun b => CoreObject.hasProperty b name) (attached this)
    else Ok false).

(** [super.canGetProperty(name)] and [super.canSetProperty(name)] on a
    component: the methods of CoreObject, in which [this.hasProperty(name)]
    is the method of Component with [checkBehaviors] at its default, and
    [this.registry] is the registry of the component. *)
Definition super_canGetProperty (this : t) (name : key) : result bool :=
  bind (hasProperty this name true) (fun has =>
    if negb has then Ok false
    else match name with
         | KSym _ => Ok true
         | KStr _ =>
             Ok (CoreObject.registry_includes ["r"; "a"] (self this) name)
         end).

Definition super_canSetProperty (this : t) (name : key) : result bool :=
  bind (hasProperty this name true) (fun has =>
    if negb has then Ok false
    else match name with
         | KSym _ => Ok true
         | KStr _ =>
             Ok (CoreObject.registry_includes ["w"; "a"] (self this) name)
         end).

(** Component.canGetProperty *)
Definition canGetProperty (this : t) (name : key) (checkBehaviors : bool)
  : result bool :=
  bind (super_canGetProperty this name) (fun own =>
    if own then Ok true
    else if checkBehaviors
    then some_behavior (fun b => CoreObject.canGetProperty b name)
                       (attached this)
    else Ok false).

(** Component.canSetProperty *)
Definition canSetProperty (this : t) (name : key) (checkBehaviors : bool)
  : result bool :=
  bind (super_canSetProperty this name) (fun own =>
    if own then Ok true
    else if checkBehaviors
    then some_behavior (fun b => CoreObject.canSetProperty b name)
                       (attached this)
    else Ok false).

(** Component.hasMethod; [member] tells whether the name is a method of
    the class of the component, [behavior_member] whether it is one of the
    class of a behavior. *)
Definition hasMethod (this : t) (name : key) (member : bool)
    (behavior_member : CoreObject.t -> bool) (checkBehaviors : bool)
  : result bool :=
  bind (CoreObject.hasMethod (self this) name member) (fun own =>
    if own then Ok true
    else if checkBehaviors
    then some_behavior
           (fun b => CoreObject.hasMethod b name (behavior_member b))
           (attached this)
    else Ok false).

(** Component.has *)
Definition has (this : t) (name : key) (member : bool)
    (behavior_member : CoreObject.t -> bool) (checkBehaviors : bool)
  : result bool :=
  bind (hasProperty this name checkBehaviors) (fun property =>
    if property then Ok true
    else hasMethod this name member behavior_member checkBehaviors).

(** The loop of Component.get over the behaviors. *)
Fixpoint get_from (name : key) (behaviors : list CoreObject.t) : result value :=
  match behaviors with
  | [] => Throw (thrown_naming name UnknownPropertyException)
  | behavior :: rest =>
      bind (CoreObject.hasProperty behavior name) (fun has =>
        if has then
          bind (CoreObject.canGetProperty behavior name) (fun can =>
            if negb can then Throw (thrown_naming name InvalidCallException)
            else CoreObject.get behavior name)
        else get_from name rest)
  end.

(** Component.get *)
Definition get (this : t) (name : key) : result value :=
  bind (hasProperty this name false) (fun own =>
    if own then
      bind (canGetProperty this name false) (fun can =>
        if negb can then Throw (thrown_naming name InvalidCallException)
        else Ok (CoreObject.read_slot (self this) name))
    else get_from name (attached this)).

(** What a call of Component.set does when no test refuses it: it assigns
    a property (the component is given as it is afterwards), or it goes on
    with [this.on(name, value)], or with [this.attachBehavior(name, b)]
    for the behavior [b] that the value is or that [App.createObject] makes
    of it, under the name that follows the prefix. *)
Inductive effect :=
| Assigned (this' : t)
| HandlerAttached (event : string) (handler : value)
| BehaviorAttached (name : string) (behavior : value).

(** The loop of Component.set over the behaviors; the test before
    [behavior.set] is [this.canSetProperty(name, false)], of the component
    itself. *)
Fixpoint set_in (this : t) (name : key) (v : value)
    (behaviors : list CoreObject.t) : result (list CoreObject.t) :=
  match behaviors with
  | [] => Throw (thrown_naming name UnknownPropertyException)
  | behavior :: rest =>
      bind (CoreObject.hasProperty behavior name) (fun has =>
        if has then
          bind (canSetProperty this name false) (fun can =>
            if negb can then Throw (thrown_naming name InvalidCallException)
            else match CoreObject.set behavior name v with
                 | (Throw e, _) => Throw e
                 | (Ok _, behavior') => Ok (behavior' :: rest)
                 end)
        else bind (set_in this name v rest) (fun rest' =>
               Ok (behavior :: rest')))
  end.

(** Component.set *)
Definition set (this : t) (name : key) (v : value) : result effect :=
  bind (hasProperty this name false) (fun own =>
    if own then
      bind (canSetProperty this name false) (fun can =>
        if negb can then Throw (thrown_naming name InvalidCallException)
        else Ok (Assigned (mk (CoreObject.write_slot (self this) name v)
                              (attached this))))
    else
      let in_behaviors :=
        bind (set_in this name v (attached this)) (fun behaviors' =>
          Ok (Assigned (mk (self this) behaviors'))) in
      match name with
      | KStr s =>
          if CoreObject.startsWith "on " s
          then Ok (HandlerAttached
                     (StringHelper.js_trim (StringHelper.substring_from 3 s)) v)
          else if CoreObject.startsWith "as " s
          then Ok (BehaviorAttached
                     (StringHelper.js_trim (StringHelper.substring_from 3 s)) v)
          else in_behaviors
      | KSym _ => in_behaviors
      end).

(** The second half of Component.unset: the first behavior that has the
    property is the holder. *)
Fixpoint unset_in (name : key) (behaviors : list CoreObject.t)
  : result (list CoreObject.t) :=
  match behaviors with
  | [] => Throw (thrown_naming name UnknownPropertyException)
  | behavior :: rest =>
      bind (CoreObject.hasProperty behavior name) (fun has =>
        if has then
          bind (CoreObject.canSetProperty behavior name) (fun can =>
            if can then Throw (thrown_naming name InvalidCallException)
            else match CoreObject.unset behavior name with
                 | (Throw e, _) => Throw e
                 | (Ok _, behavior') => Ok (behavior' :: rest)
                 end)
        else bind (unset_in name rest) (fun rest' => Ok (behavior :: rest')))
  end.

(** Component.unset *)
Definition unset (this : t) (name : key) (checkBehaviors : bool) : result t :=
  bind (hasProperty this name false) (fun own =>
    if own then
      bind (canSetProperty this name false) (fun can =>
        if negb can then Throw (thrown_naming name InvalidCallException)
        else Ok (mk (CoreObject.write_slot (self this) name VNull)
                    (attached this)))
    else if checkBehaviors
    then bind (unset_in name (attached this)) (fun behaviors' =>
           Ok (mk (self this) behaviors'))
    else Throw (thrown_naming name UnknownPropertyException)).

(** Action.runWithParams; an action is a component, and [run] is a method
    of its class when the class defines one. *)
Definition Action_runWithParams (this : t) (defines_run : bool)
    (behavior_member : CoreObject.t -> bool) : result unit :=
  bind (hasMethod this (KStr "run") defines_run behavior_member true)
       (fun has => if negb has then Throw InvalidConfigException else Ok tt).

End ComponentProperties.

(** ** BaseApp: path aliases, with ArrayHelper.krsort and the path
       normalisation of FileHelper as a collaborator *)

Module ArrayHelper.

Fixpoint insert_key (k v : string) (sorted : list (string * string))
  : list (string * string) :=
  match sorted with
  | [] => [(k, v)]
  | (k', v') :: rest =>
      if String.leb k k' then (k, v) :: sorted
      else (k', v') :: insert_key k v rest
  end.

(** ArrayHelper.krsort on an object whose values are strings: a new object
    with the keys in the order of [Object.keys(input).sort()], ascending by
    character code. *)
Definition krsort (input : list (string * string)) : list (string * string) :=
  fold_right (fun kv sorted => insert_key (fst kv) (snd kv) sorted) [] input.

End ArrayHelper.

Module BaseApp.
Import StringHelper.

(** What [BaseApp.aliases] holds under a root alias: a path, or an object
    of aliases and their paths, in the order of its keys. *)
Inductive registered :=
| Path (path : string)
| Table (table : list (string * string)).

(** What an alias function comes to: it returns, or it throws
    InvalidArgumentException. *)
Inductive outcome (A : Type) :=
| Returns (a : A)
| InvalidArgumentException.
Arguments Returns {A} a.
Arguments InvalidArgumentException {A}.

Section Aliases.

(** [FileHelper.normalize], which resolves a path against the working
    directory of the process. *)
Variable normalize : string -> string.

(** [const pos = strpos(alias, '/')] and
    [const root = pos === false ? alias : substr(alias, 0, pos)] *)
Definition root_of (alias : string) : string :=
  match strpos alias "/" with
  | None => alias
  | Some pos => substr alias 0 pos
  end.

(** The loop over the entries of a table: the first name for which
    [strpos(alias + '/', name + '/') === 0]. *)
Fixpoint first_match (alias : string) (table : list (string * string))
  : option (string * string) :=
  match table with
  | [] => None
  | (name, path) :: rest =>
      match strpos (alias +:+ "/") (name +:+ "/") with
      | Some 0 => Some (name, path)
      | _ => first_match alias rest
      end
  end.

(** BaseApp.getAlias; [false] as [None] *)
Definition getAlias (aliases : gmap string registered) (alias : string)
    (throwException : bool) : outcome (option string) :=
  if negb (strncmp alias "@" 1 =? 0)%Z then Returns (Some alias)
  else
    let invalid :=
      if throwException then InvalidArgumentException else Returns None in
    match aliases !! root_of alias with
    | Some (Path path) =>
        match strpos alias "/" with
        | None => Returns (Some (normalize path))
        | Some pos =>
            Returns (Some (normalize (path +:+ substring_from pos alias)))
        end
    | Some (Table table) =>
        match first_match alias table with
        | Some (name, path) =>
            Returns (Some (normalize
                             (path +:+ substring_from (String.length name) alias)))
        | None => invalid
        end
    | None => invalid
    end.

(** BaseApp.getRootAlias; [false] as [None] *)
Definition getRootAlias (aliases : gmap string registered) (alias : string)
  : option string :=
  match aliases !! root_of alias with
  | Some (Path _) => Some (root_of alias)
  | Some (Table table) =>
      match first_match alias table with
      | Some (name, _) => Some name
      | None => None
      end
  | None => None
  end.

(** The replacement patterns of [String.prototype.replace] for an
    expression without groups: [$$], [$&], [$`] and [$']; nothing follows
    a match at the end of the string. *)
Fixpoint expand (before matched replacement : list ascii) : list ascii :=
  match replacement with
  | [] => []
  | c :: rest =>
      match rest with
      | d :: rest' =>
          if Ascii.eqb c "$" && Ascii.eqb d "$"
          then "$"%char :: expand before matched rest'
          else if Ascii.eqb c "$" && Ascii.eqb d "&"
          then (matched ++ expand before matched rest')%list
          else if Ascii.eqb c "$" && Ascii.eqb d "`"
          then (before ++ expand before matched rest')%list
          else if Ascii.eqb c "$" && Ascii.eqb d "'"
          then expand before matched rest'
          else c :: expand before matched rest
      | [] => [c]
      end
  end.

(** [path.replace(/\\\/$/, path)]: a backslash and a slash at the end of
    the path are replaced by the path itself. *)
Definition replace_trailing (path : string) : string :=
  let l := chars path in
  let n := (length l - 2)%nat in
  if (2 <=? length l)%nat && bool_decide (drop n l = ["\"%char; "/"%char])
  then text (take n l ++ expand (take n l) ["\"%char; "/"%char] l)
  else path.

(** [table[alias] = path]: in place when the alias is a key, appended when
    it is not. *)
Fixpoint set_entry (alias path : string) (table : list (string * string))
  : list (string * string) :=
  match table with
  | [] => [(alias, path)]
  | (k, x) :: rest =>
      if String.eqb k alias then (k, path) :: rest
      else (k, x) :: set_entry alias path rest
  end.

(** BaseApp.setAlias; [path] left out as [None].  With [throwException]
    true [getAlias] does not return [false]. *)
Definition setAlias (aliases : gmap string registered) (alias : string)
    (path : option string) : outcome (gmap string registered) :=
  let alias := if negb (strncmp alias "@" 1 =? 0)%Z then "@" +:+ alias
               else alias in
  let pos := strpos alias "/" in
  let root := root_of alias in
  let store path :=
    match aliases !! root with
    | None =>
        match pos with
        | None => <[root := Path path]> aliases
        | Some _ => <[root := Table [(alias, path)]]> aliases
        end
    | Some (Path old) =>
        match pos with
        | None => <[root := Path path]> aliases
        | Some _ => <[root := Table [(alias, path); (root, old)]]> aliases
        end
    | Some (Table table) =>
        <[root := Table (ArrayHelper.krsort (set_entry alias path table))]>
          aliases
    end in
  match path with
  | Some (String c p) =>
      let path := String c p in
      if negb (strncmp path "@" 1 =? 0)%Z
      then Returns (store (replace_trailing path))
      else match getAlias aliases path true with
           | Returns (Some translated) => Returns (store translated)
           | Returns None | InvalidArgumentException =>
               InvalidArgumentException
           end
  | _ =>
      match aliases !! root with
      | Some (Table table) =>
          Returns (<[root := Table (List.filter
                                      (fun kv => negb (String.eqb (fst kv) alias))
                                      table)]> aliases)
      | Some (Path _) =>
          match pos with
          | None => Returns (delete root aliases)
          | Some _ => Returns aliases
          end
      | None => Returns aliases
      end
  end.

End Aliases.

End BaseApp.

(** ** framework/di/Instance, with a Container as the container *)

Module Instance.
Import NamespaceHelper.

(** A reference to a component by its ID. *)
Record t := mk {
  id : string;
  optional : bool
}.

(** Instance.of *)
Definition Instance_of (id : string) (optional : bool) : t := mk id optional.

(** Instance.get for a container that is given: [container.get(this.id)],
    and [null] for whatever it throws when the reference is optional. *)
Definition get (w : world) (depth : nat) (this : t) (container : Container.t)
  : result value * Container.t :=
  match Container.get w depth container (id this) [VObject []] with
  | (Throw e, c') => if optional this then (Ok VNull, c') else (Throw e, c')
  | (Ok component, c') => (Ok component, c')
  end.

(** ramda's [isEmpty] on what is not an object for [R_is(Object, _)]: the
    empty string alone. *)
Definition isEmpty (v : value) : bool :=
  match v with
  | VStr s => String.eqb s ""
  | VObject fields => (length fields =? 0)%nat
  | _ => false
  end.

(** [type === null || component instanceof type]: [type] is declared a
    string, and [instanceof] with a string on its right is a TypeError
    whatever stands on its left. *)
Definition of_type (type : option string) : result bool :=
  match type with
  | None => Ok true
  | Some _ => Throw TypeError
  end.

(** Instance.ensure.  The caller's [reference] is mutated by [delete], so
    the object it has become is returned with the answer.  [null] as the
    key of a registry is the string ['null']; a [namespace] property that
    is not a string is outside the declared type, as in [Container.get]. *)
Definition ensure (w : world) (depth : nat) (reference : value)
    (type : option string) (container : Container.t)
  : result value * value * Container.t :=
  if R_is_Object reference then
    let namespace :=
      if has_namespace reference then get_namespace reference
      else match type with Some t => VStr t | None => VNull end in
    let reference' := App.del_namespace reference in
    let resolve ns :=
      match Container.get w depth container ns [reference'] with
      | (Throw e, c') => (Throw e, reference', c')
      | (Ok component, c') =>
          match of_type type with
          | Throw e => (Throw e, reference', c')
          | Ok _ => (Ok component, reference', c')
          end
      end in
    match namespace with
    | VStr ns => resolve ns
    | VNull => resolve "null"
    | _ => (Throw TypeError, reference', container)
    end
  else if isEmpty reference
  then (Throw InvalidConfigException, reference, container)
  else
    match reference with
    | VStr s =>
        match get w depth (mk s false) container with
        | (Throw _, c') => (Throw InvalidConfigException, reference, c')
        | (Ok component, c') =>
            match of_type type with
            | Throw e => (Throw e, reference, c')
            | Ok _ => (Ok component, reference, c')
            end
        end
    | _ =>
        match of_type type with
        | Throw e => (Throw e, reference, container)
        | Ok _ => (Ok reference, reference, container)
        end
    end.

End Instance.

(** * Properties *)

(** ** CoreObject: visibility of properties *)

Module CoreObjectFacts.
Import CoreObject.

(** A name is registered when it is a string that does not begin with two
    underscores, the instance has a slot of that name, and the registry
    records a flag for it; it is settable when the flag is ['w'] or ['a']. *)
Definition registered (o : t) (p : key) : Prop :=
  exists s, p = KStr s /\ startsWith "__" s = false
            /\ is_Some (slots o !! p) /\ is_Some (registry o !! p).

Definition settable (o : t) (p : key) : Prop :=
  registry o !! p = Some "w" \/ registry o !! p = Some "a".

Lemma hasProperty_registered (o : t) (p : key) :
  registered o p -> hasProperty o p = Ok true.
Proof.
  intros (s & -> & Hs & Hslot & [flag Hflag]).
  unfold hasProperty, in_this, Op_has, registry_entry.
  rewrite bool_decide_eq_true_2 by exact Hslot.
  simpl. rewrite Hs.
  rewrite bool_decide_eq_true_2 by (rewrite Hflag; eauto).
  rewrite Hflag. reflexivity.
Qed.

Lemma hasProperty_unregistered (o : t) (p : key) :
  ~ registered o p -> hasProperty o p = Ok false.
Proof.
  intros Hn. unfold hasProperty, in_this, Op_has.
  case_bool_decide as Hslot; simpl; [|reflexivity].
  destruct p as [s|n]; [|reflexivity].
  destruct (startsWith "__" s) eqn:Hs; [reflexivity|].
  case_bool_decide as Hflag; simpl; [|reflexivity].
  exfalso. apply Hn. exists s. repeat split; eauto.
Qed.

Lemma canSetProperty_settable (o : t) (p : key) :
  registered o p -> settable o p -> canSetProperty o p = Ok true.
Proof.
  intros Hr Hs. unfold canSetProperty.
  rewrite (hasProperty_registered _ _ Hr). simpl.
  destruct Hr as (s & -> & _). unfold registry_includes, registry_entry.
  destruct Hs as [-> | ->]; reflexivity.
Qed.

Lemma canSetProperty_not_settable (o : t) (p : key) :
  registered o p -> ~ settable o p -> canSetProperty o p = Ok false.
Proof.
  intros Hr Hs. unfold canSetProperty.
  rewrite (hasProperty_registered _ _ Hr). simpl.
  destruct Hr as (s & -> & _ & _ & [flag Hflag]).
  unfold registry_includes, registry_entry. rewrite Hflag. simpl.
  destruct (String.eqb_spec flag "w") as [->|Hw].
  { exfalso. apply Hs. left. exact Hflag. }
  destruct (String.eqb_spec flag "a") as [->|Ha].
  { exfalso. apply Hs. right. exact Hflag. }
  reflexivity.
Qed.

(** What the two folds of the constructor leave under a name: the last
    entry that names it. *)
Lemma fold_insert_other {V} (f : string * value -> V) (p : string)
    (l : list (string * value)) (m : gmap key V) :
  Forall (fun nv => strip_scope (fst nv) <> p) l ->
  fold_left (fun acc nv => <[KStr (strip_scope (fst nv)) := f nv]> acc) l m
    !! KStr p = m !! KStr p.
Proof.
  revert m. induction l as [|nv l IH]; intros m Hl; [reflexivity|].
  inversion Hl as [|? ? Hnv Hl']; subst. simpl.
  rewrite IH by exact Hl'.
  apply lookup_insert_ne. congruence.
Qed.

Lemma fold_insert_last {V} (f : string * value -> V) (p : string)
    (before after : list (string * value)) (nv : string * value)
    (m : gmap key V) :
  strip_scope (fst nv) = p ->
  Forall (fun nv => strip_scope (fst nv) <> p) after ->
  fold_left (fun acc nv => <[KStr (strip_scope (fst nv)) := f nv]> acc)
            (before ++ nv :: after) m !! KStr p = Some (f nv).
Proof.
  intros Hp Hafter. rewrite fold_left_app. simpl.
  rewrite fold_insert_other by exact Hafter.
  rewrite Hp. apply lookup_insert_eq.
Qed.

(** The constructor keeps clear of the members when no configuration key
    names one. *)
Lemma new_keeps_members (config : Configuration) :
  plain_keys config = true -> keeps_members (new config) = true.
Proof.
  intros Hkeys. unfold keeps_members, keeps_clear_of.
  apply forallb_forall. intros name Hname.
  assert (Hmember : is_member name = true).
  { unfold is_member. apply existsb_exists. exists name.
    split; [exact Hname | apply String.eqb_refl]. }
  assert (Hother : Forall (fun nv => strip_scope (fst nv) <> name)
                          (Object_entries config)).
  { apply List.Forall_forall. intros nv Hnv Heq.
    unfold plain_keys in Hkeys.
    pose proof (proj1 (forallb_forall _ _) Hkeys nv Hnv) as Hplain.
    simpl in Hplain. rewrite Heq, Hmember in Hplain. discriminate. }
  assert (Hnone : slots (new config) !! KStr name = None
                  /\ registry (new config) !! KStr name = None).
  { unfold new.
    destruct (0 <? length (Object_entries config))%nat; simpl.
    - split.
      + unfold configure. rewrite fold_insert_other by exact Hother.
        reflexivity.
      + unfold configureRegistry.
        rewrite (fold_insert_other (fun nv => scope_of (fst nv)))
          by exact Hother.
        reflexivity.
    - split; reflexivity. }
  destruct Hnone as [-> ->]. reflexivity.
Qed.

(** CoreObject.unset on a string name of one path segment, for an instance
    that keeps clear of the members: a registered and settable name is
    refused with InvalidCall, a registered name that is not settable has
    its slot set to [null], and a name that is not registered is unknown;
    the instance changes in the second case only. *)
Lemma unset_string_name (o : t) (p : string) :
  keeps_members o = true ->
  one_segment p = true ->
  (registered o (KStr p) -> settable o (KStr p) ->
   unset o (KStr p) = (Throw InvalidCallException, o))
  /\ (registered o (KStr p) -> ~ settable o (KStr p) ->
      unset o (KStr p)
      = (Ok tt, mk (<[KStr p := VNull]> (slots o)) (registry o)))
  /\ (~ registered o (KStr p) ->
      unset o (KStr p) = (Throw UnknownPropertyException, o)).
Proof.
  intros _ _. repeat split.
  - intros Hr Hs. unfold unset.
    rewrite (hasProperty_registered _ _ Hr), (canSetProperty_settable _ _ Hr Hs).
    reflexivity.
  - intros Hr Hs. unfold unset.
    rewrite (hasProperty_registered _ _ Hr),
            (canSetProperty_not_settable _ _ Hr Hs).
    reflexivity.
  - intros Hr. unfold unset. rewrite (hasProperty_unregistered _ _ Hr).
    reflexivity.
Qed.

(** C10 (what the code does instead).  For a symbol-valued name, which no
    registry entry can make a property, [unset] does not throw
    UnknownProperty: [hasProperty] answers false, and the message of the
    exception is a template literal over the name, whose conversion to a
    string throws TypeError.  The object is left as it was. *)
Theorem C10_unset_symbol_is_type_error (o : t) (n : positive) :
  hasProperty o (KSym n) = Ok false
  /\ unset o (KSym n) = (Throw TypeError, o).
Proof.
  assert (H : hasProperty o (KSym n) = Ok false).
  { unfold hasProperty. destruct (in_this o (KSym n)); reflexivity. }
  unfold unset. rewrite H. split; reflexivity.
Qed.

(** The failing input of C10: a symbol that was never configured. *)
Example C10_unset_unknown_symbol :
  unset (new [(KStr "-p", VNum 1)]) (KSym 1)
  = (Throw TypeError, new [(KStr "-p", VNum 1)]).
Proof. vm_compute. reflexivity. Qed.

(** C4 (what the code does instead).  For a symbol-valued name, whatever
    the slots and the registry of the object hold, [hasProperty] answers
    false, so that [get] and [set] go to their first [throw]; its message
    is a template literal over the name, and the conversion of a symbol to
    a string throws TypeError.  Neither call reads or writes the slot: the
    object is left as it was, and the [typeof name === 'symbol'] branches
    of [canGetProperty] and [canSetProperty] are never reached. *)
Theorem C4_symbol_access_is_type_error (o : t) (n : positive) (v : value) :
  hasProperty o (KSym n) = Ok false
  /\ get o (KSym n) = Throw TypeError
  /\ set o (KSym n) v = (Throw TypeError, o).
Proof.
  assert (H : hasProperty o (KSym n) = Ok false).
  { unfold hasProperty. destruct (in_this o (KSym n)); reflexivity. }
  unfold get, set. rewrite H. repeat split.
Qed.

(** The failing input of C4: the slot of the symbol exists and the registry
    even flags it read-write. *)
Example C4_symbol_slot_exists :
  let o := mk {[KSym 1 := VNum 7]} {[KSym 1 := "a"]} in
  in_this o (KSym 1) = true
  /\ get o (KSym 1) = Throw TypeError
  /\ fst (set o (KSym 1) (VNum 8)) = Throw TypeError.
Proof. vm_compute. repeat split. Qed.

(** C5 as stated fails on two configurations: a key ['-__p'], whose
    property [get] does not know; and ['-p'] followed by ['+p'], whose
    property [get] refuses and [set] accepts. *)
Lemma C5_counterexample :
  get (new [(KStr "-__p", VNum 1)]) (KStr "__p")
  = Throw UnknownPropertyException
  /\ get (new [(KStr "-p", VNum 1); (KStr "+p", VNum 2)]) (KStr "p")
     = Throw InvalidCallException
  /\ fst (set (new [(KStr "-p", VNum 1); (KStr "+p", VNum 2)]) (KStr "p")
              (VNum 3)) = Ok tt.
Proof. vm_compute. repeat split. Qed.

(** C5 (amended).  Let no key of the configuration name a member of the
    class, let [p] be a name of one path segment that does not begin with
    two underscores, and let the last configuration key that names [p] be
    ['-' + p].  Then the constructed object answers [get(p)] with the
    configured value, and [set(p, x)] throws InvalidCall and leaves the
    object as it was. *)
Theorem C5_read_only_key (config : Configuration)
    (before after : list (string * value)) (p : string) (v : value) :
  plain_keys config = true ->
  one_segment p = true ->
  Object_entries config = (before ++ ("-" +:+ p, v) :: after)%list ->
  Forall (fun nv => strip_scope (fst nv) <> p) after ->
  startsWith "__" p = false ->
  get (new config) (KStr p) = Ok v
  /\ forall x, set (new config) (KStr p) x
               = (Throw InvalidCallException, new config).
Proof.
  intros _ _ Hcfg Hafter Hp.
  assert (Hnew : new config
                 = mk (configure ∅ config) (configureRegistry ∅ config)).
  { unfold new. rewrite Hcfg. rewrite length_app. simpl.
    replace (0 <? length before + S (length after))%nat with true; [reflexivity|].
    symmetry. apply Nat.ltb_lt. lia. }
  assert (Hslot : slots (new config) !! KStr p = Some v).
  { rewrite Hnew. simpl. unfold configure. rewrite Hcfg.
    apply (fold_insert_last snd p before after ("-" +:+ p, v));
      [reflexivity | exact Hafter]. }
  assert (Hreg : registry (new config) !! KStr p = Some "r").
  { rewrite Hnew. simpl. unfold configureRegistry. rewrite Hcfg.
    rewrite (fold_insert_last (fun nv => scope_of (fst nv)) p before after
               ("-" +:+ p, v)); [|reflexivity | exact Hafter].
    unfold scope_of, startsWith. simpl. destruct p; reflexivity. }
  assert (Hr : registered (new config) (KStr p)).
  { exists p. repeat split; eauto. }
  assert (Hns : ~ settable (new config) (KStr p)).
  { intros [H|H]; rewrite Hreg in H; discriminate. }
  split.
  - unfold get, canGetProperty.
    rewrite (hasProperty_registered _ _ Hr). simpl.
    unfold registry_includes, registry_entry, read_slot.
    rewrite Hreg, Hslot. reflexivity.
  - intros x. unfold set.
    rewrite (hasProperty_registered _ _ Hr),
            (canSetProperty_not_settable _ _ Hr Hns).
    reflexivity.
Qed.

Lemma C5_read_only_key_witness :
  get (new [(KStr "+label", VNum 0); (KStr "-label", VStr "x");
            (KStr "other", VNull)]) (KStr "label") = Ok (VStr "x")
  /\ forall x,
       set (new [(KStr "+label", VNum 0); (KStr "-label", VStr "x");
                 (KStr "other", VNull)]) (KStr "label") x
       = (Throw InvalidCallException,
          new [(KStr "+label", VNum 0); (KStr "-label", VStr "x");
               (KStr "other", VNull)]).
Proof.
  apply (C5_read_only_key _ [("+label", VNum 0)] [("other", VNull)]
           "label" (VStr "x")).
  - reflexivity.
  - reflexivity.
  - reflexivity.
  - repeat constructor. simpl. discriminate.
  - reflexivity.
Defined.

End CoreObjectFacts.

(** ** Container: singletons, string definitions, argument lists *)

Module ContainerFacts.
Import NamespaceHelper Container.

(** A loader in which every well-formed namespace is a file that exports a
    constructible component class answering its own namespace. *)
Definition plain_class (namespace : string) : class_info :=
  {| cls_constructor := true;
     cls_component := true;
     cls_namespace := namespace;
     cls_ancestors := ["framework/base/Component"];
     cls_new := fun _ => None |}.

Definition open_world : world :=
  {| file_exists := fun _ => true;
     load := fun namespace => Some (plain_class namespace);
     call := fun _ _ => Throw TypeError;
     merge_recursive := fun registered params => params |}.

Lemma build_singletons (w : world) (c : t) (namespace : string)
    (configuration : list value) :
  _singletons (snd (build w c namespace configuration)) = _singletons c.
Proof.
  unfold build.
  destruct (isNamespace w namespace); simpl; [|reflexivity].
  destruct (load w namespace) as [cls|]; [|reflexivity].
  destruct (cls_constructor cls); simpl; [|reflexivity].
  destruct (cls_new cls configuration); [reflexivity|].
  destruct (cls_component cls); reflexivity.
Qed.

Lemma remember_absent (c : t) (namespace : string) (component : value) :
  _singletons c !! namespace = None -> remember c namespace component = c.
Proof.
  intros H. unfold remember. rewrite bool_decide_eq_false_2; [reflexivity|].
  rewrite H. intros [x Hx]. discriminate.
Qed.

(** A key whose definition is the bare marker [{namespace: key}] and that
    [_singletons] does not hold is resolved by building the key itself. *)
Lemma get_bare_definition (w : world) (depth : nat) (c : t)
    (namespace : string) (configuration : list value) :
  _singletons c !! namespace = None ->
  _definitions c !! namespace = Some (VObject [("namespace", VStr namespace)]) ->
  get w (S depth) c namespace configuration
  = match mergeParams w c namespace (snd (splitConfigList configuration)) with
    | Throw e => (Throw e, c)
    | Ok newParams =>
        build w c namespace
              (fst (splitConfigList configuration) ++ [newParams])%list
    end.
Proof.
  intros Hs Hd. simpl.
  destruct (splitConfigList configuration) as [args params]. simpl.
  rewrite Hs, Hd. simpl.
  destruct (mergeParams w c namespace params) as [newParams|e]; [|reflexivity].
  rewrite String.eqb_refl.
  pose proof (build_singletons w c namespace (args ++ [newParams])%list) as Hb.
  destruct (build w c namespace (args ++ [newParams])%list) as [r c'].
  simpl in Hb. destruct r as [component|e]; [|reflexivity].
  rewrite remember_absent; [reflexivity|]. rewrite Hb. exact Hs.
Qed.

Lemma normalizeDefinition_string (namespace s : string) :
  normalizeDefinition namespace (VStr s)
  = Ok (VObject [("namespace", VStr namespace)]).
Proof.
  unfold normalizeDefinition. simpl.
  destruct (negb (negb (String.eqb s ""))); reflexivity.
Qed.

(** C1 (what the code does instead).  [setSingleton] stores [null] under
    the key in [_singletons], and [get] answers whatever [_singletons]
    holds under a key it contains: after a successful [setSingleton], every
    [get] of the key answers [null] and leaves the container as it was; the
    definition is never resolved and no instance is ever cached. *)
Theorem C1_singleton_get_answers_null (w : world) (c c' : t)
    (namespace : string) (definition params : value) (depth : nat)
    (configuration : list value) :
  setSingleton c namespace definition params = (Ok tt, c') ->
  get w (S depth) c' namespace configuration = (Ok VNull, c').
Proof.
  unfold setSingleton. intros H.
  destruct (normalizeDefinition namespace definition) as [d|e];
    [|discriminate].
  injection H as <-. simpl.
  destruct (splitConfigList configuration) as [args ps].
  rewrite lookup_insert_eq. reflexivity.
Qed.

Lemma C1_singleton_get_witness :
  get open_world 1
      (snd (setSingleton empty "app/components/Cache"
              (VObject [("namespace", VStr "app/components/Cache")])
              (VObject [])))
      "app/components/Cache" [VObject []]
  = (Ok VNull,
     snd (setSingleton empty "app/components/Cache"
            (VObject [("namespace", VStr "app/components/Cache")])
            (VObject []))).
Proof.
  apply (C1_singleton_get_answers_null open_world empty _
           "app/components/Cache"
           (VObject [("namespace", VStr "app/components/Cache")])
           (VObject [])).
  reflexivity.
Defined.

(** The same definition registered with [set] is resolved to an instance. *)
Example C1_plain_set_resolves :
  fst (get open_world 1
         (snd (set empty "app/components/Cache"
                 (VObject [("namespace", VStr "app/components/Cache")])
                 (VObject [])))
         "app/components/Cache" [VObject []])
  = Ok (VComponent 0 "app/components/Cache").
Proof. vm_compute. reflexivity. Qed.

(** C2 (what the code does instead).  [normalizeDefinition] answers
    [{namespace}] built from the key for every string definition, so after
    [set(a, b)] and [set(a, c)] with strings [b] and [c] the definition of
    [a] names [a] itself, [_singletons] holds nothing for [a], and [get(a)]
    builds the type named by the key [a]: neither [b] nor [c] is looked
    at. *)
Theorem C2_string_definition_names_the_key (w : world) (c : t)
    (a b c0 : string) (p1 p2 : value) (depth : nat)
    (configuration : list value) :
  let c2 := snd (set (snd (set c a (VStr b) p1)) a (VStr c0) p2) in
  _definitions c2 !! a = Some (VObject [("namespace", VStr a)])
  /\ _singletons c2 !! a = None
  /\ get w (S depth) c2 a configuration
     = match mergeParams w c2 a (snd (splitConfigList configuration)) with
       | Throw e => (Throw e, c2)
       | Ok newParams =>
           build w c2 a (fst (splitConfigList configuration) ++ [newParams])%list
       end.
Proof.
  intros c2.
  assert (Hd : _definitions c2 !! a = Some (VObject [("namespace", VStr a)])).
  { unfold c2, set. rewrite !normalizeDefinition_string. simpl.
    apply lookup_insert_eq. }
  assert (Hs : _singletons c2 !! a = None).
  { unfold c2, set. rewrite !normalizeDefinition_string. simpl.
    apply lookup_delete_eq. }
  repeat split; [exact Hd | exact Hs |].
  apply get_bare_definition; assumption.
Qed.

(** The failing input of C2 with namespaces that load: the instance is of
    the class named by the key, not of the class the latest definition
    names. *)
Example C2_latest_definition_not_used :
  fst (get open_world 1
         (snd (set (snd (set empty "app/services/Mailer"
                           (VStr "app/services/SmtpMailer") (VObject [])))
                   "app/services/Mailer"
                   (VStr "app/services/SendmailMailer") (VObject [])))
         "app/services/Mailer" [VObject []])
  = Ok (VComponent 0 "app/services/Mailer").
Proof. vm_compute. reflexivity. Qed.

(** C9 (what the code does instead).  A list of one element is split into
    no positional argument and an empty bag: the element is not the bag.
    Through [get] on a registered key, the constructor then receives the
    registered parameters alone and the caller's element is lost. *)
Theorem C9_single_element_is_not_the_bag (w : world) (c : t)
    (namespace : string) (registered cfg : value) (depth : nat) :
  splitConfigList [cfg] = ([], VObject [])
  /\ let c' := snd (set c namespace VNull registered) in
     get w (S depth) c' namespace [cfg] = build w c' namespace [registered].
Proof.
  split; [reflexivity|]. intros c'.
  rewrite get_bare_definition.
  - unfold mergeParams, c', set. simpl. rewrite lookup_insert_eq. reflexivity.
  - unfold c', set. simpl. apply lookup_delete_eq.
  - unfold c', set. simpl. apply lookup_insert_eq.
Qed.

(** Lists of two or more elements are split as the convention says. *)
Lemma splitConfigList_longer (x y : value) (l : list value) :
  splitConfigList (x :: y :: l)
  = (removelast (x :: y :: l), List.last (x :: y :: l) VUndefined).
Proof. reflexivity. Qed.

End ContainerFacts.

(** ** ServiceLocator: resolve once, then serve the cached instance *)

Module ServiceLocatorFacts.
Import NamespaceHelper ServiceLocator.

(** An ID that [get] can resolve: a string, or any ID whose stored
    definition is a component instance. *)
Definition resolvable (l : t) (id : key) : Prop :=
  (exists s, id = KStr s)
  \/ (exists d, _definitions l !! id = Some d /\ instanceof_Component d = true).

Lemma set_stores (w : world) (l l1 : t) (id : key) (definition : value) :
  set w l id definition = (Ok tt, l1) ->
  _components l1 !! id = None /\ is_Some (_definitions l1 !! id).
Proof.
  unfold set. intros H.
  assert (Hstore : forall l2 d,
             (Ok tt, mk (_components (mk (delete id (_components l)) l2))
                        (<[id := d]> (_definitions (mk (delete id (_components l)) l2))))
             = (Ok tt, l1) ->
             _components l1 !! id = None /\ is_Some (_definitions l1 !! id)).
  { intros l2 d Heq. injection Heq as <-. simpl. split.
    - apply lookup_delete_eq.
    - rewrite lookup_insert_eq. eauto. }
  destruct definition as [| |b|n|s|fields|k fid| |o ns]; simpl in H;
    try discriminate.
  - destruct (isNamespace w s); [|discriminate]. eapply Hstore, H.
  - destruct (bool_decide _); [|discriminate]. eapply Hstore, H.
  - destruct k; simpl in H; try discriminate.
    destruct (call w fid []) as [instance|e]; [|discriminate].
    destruct (instanceof_Component instance); [|discriminate].
    eapply Hstore, H.
  - eapply Hstore, H.
Qed.

Lemma get_cached (w : world) (depth : nat) (l : t) (container : Container.t)
    (id : key) (throwException : bool) (v : value) :
  _components l !! id = Some v ->
  get w depth l container id throwException = (Ok v, l, container).
Proof. intros H. unfold get. rewrite H. reflexivity. Qed.

(** An ID of the locator's own that was registered by a successful [set]
    and that [get] can resolve: the first [get] answers the stored
    instance, or else what [App.createObject] answers for the stored
    definition; when it answers a value, that value is in [_components]
    under the ID and every later [get] answers it again and changes
    nothing. *)
Lemma resolves_once (w : world) (depth : nat) (l l1 : t)
    (container : Container.t) (id : key) (definition : value)
    (throwException : bool) :
  inherited_key id = false ->
  set w l id definition = (Ok tt, l1) ->
  resolvable l1 id ->
  exists d,
    _definitions l1 !! id = Some d
    /\ let '(r, l2, c2) := get w depth l1 container id throwException in
       r = (if instanceof_Component d then Ok d
            else fst (fst (App.createObject w depth container d
                             [VObject []])))
       /\ forall v, r = Ok v ->
            _components l2 !! id = Some v
            /\ forall depth' throwException',
                 get w depth' l2 c2 id throwException' = (Ok v, l2, c2).
Proof.
  intros _ Hset Hres.
  destruct (set_stores _ _ _ _ _ Hset) as [Hc [d Hd]].
  exists d. split; [exact Hd|].
  unfold get at 1. rewrite Hc, Hd.
  destruct (instanceof_Component d) eqn:Hinst.
  + split; [reflexivity|]. intros v [= <-]. simpl.
    rewrite lookup_insert_eq. split; [reflexivity|].
    intros depth' t'. apply get_cached. simpl. apply lookup_insert_eq.
  + destruct Hres as [[s ->] | (d' & Hd' & Hinst')].
    2:{ rewrite Hd in Hd'. injection Hd' as <-. congruence. }
    destruct (App.createObject w depth container d [VObject []])
      as [[r config'] c'] eqn:Hcreate.
    simpl. destruct r as [component|e].
    * split; [reflexivity|]. intros v [= <-]. simpl.
      rewrite lookup_insert_eq. split; [reflexivity|].
      intros depth' t'. apply get_cached. simpl. apply lookup_insert_eq.
    * split; [reflexivity|]. intros v Hv. discriminate.
Qed.

(** C7 (what the code does instead).  A symbol ID that [set] registers
    with a configuration object, which is a valid definition, is never
    resolved.  [get] creates the object only behind
    [typeof id === 'string'], so that for a symbol it goes on to its last
    [throw]; the message there is a template literal over the ID, and the
    conversion of the symbol to a string throws TypeError, not
    InvalidConfig.  With [throwException] false, [get] answers [null].
    Either call leaves the locator and the container as they were: the
    definition stays in [_definitions] and [_components] holds nothing for
    the ID.  The same TypeError answers a symbol ID that was never
    registered. *)
Theorem C7_symbol_id_is_never_resolved (w : world) (l : t) (n : positive)
    (fields : list (string * value)) :
  has_namespace (VObject fields) = true ->
  let l1 := snd (set w l (KSym n) (VObject fields)) in
  fst (set w l (KSym n) (VObject fields)) = Ok tt
  /\ _definitions l1 !! KSym n = Some (VObject fields)
  /\ _components l1 !! KSym n = None
  /\ (forall (depth : nat) (container : Container.t),
         get w depth l1 container (KSym n) true
         = (Throw TypeError, l1, container)
         /\ get w depth l1 container (KSym n) false
            = (Ok VNull, l1, container))
  /\ (forall (depth : nat) (l0 : t) (container : Container.t) (m : positive),
         _components l0 !! KSym m = None ->
         _definitions l0 !! KSym m = None ->
         get w depth l0 container (KSym m) true
         = (Throw TypeError, l0, container)).
Proof.
  intros Hns l1.
  assert (Hset : set w l (KSym n) (VObject fields) = (Ok tt, l1)).
  { unfold l1, set. cbn [R_is_Object]. rewrite Hns. reflexivity. }
  assert (Hd : _definitions l1 !! KSym n = Some (VObject fields)).
  { unfold l1, set. cbn [R_is_Object]. rewrite Hns. simpl.
    apply lookup_insert_eq. }
  assert (Hc : _components l1 !! KSym n = None).
  { unfold l1, set. cbn [R_is_Object]. rewrite Hns. simpl.
    apply lookup_delete_eq. }
  split; [rewrite Hset; reflexivity|].
  split; [exact Hd|]. split; [exact Hc|]. split.
  - intros depth container. unfold get. rewrite Hc, Hd. simpl.
    split; reflexivity.
  - intros depth l0 container m Hc0 Hd0. unfold get. rewrite Hc0, Hd0.
    reflexivity.
Qed.

(** The failing input of C7: the definition that a string ID resolves is
    registered under a symbol. *)
Lemma C7_symbol_id_witness :
  let definition := [("namespace", VStr "app/components/Cache")] in
  let l1 := snd (set ContainerFacts.open_world empty (KSym 1)
                   (VObject definition)) in
  fst (set ContainerFacts.open_world empty (KSym 1) (VObject definition))
  = Ok tt
  /\ _definitions l1 !! KSym 1 = Some (VObject definition)
  /\ _components l1 !! KSym 1 = None
  /\ (forall (depth : nat) (container : Container.t),
         get ContainerFacts.open_world depth l1 container (KSym 1) true
         = (Throw TypeError, l1, container)
         /\ get ContainerFacts.open_world depth l1 container (KSym 1) false
            = (Ok VNull, l1, container))
  /\ (forall (depth : nat) (l0 : t) (container : Container.t) (m : positive),
         _components l0 !! KSym m = None ->
         _definitions l0 !! KSym m = None ->
         get ContainerFacts.open_world depth l0 container (KSym m) true
         = (Throw TypeError, l0, container)).
Proof.
  apply (C7_symbol_id_is_never_resolved ContainerFacts.open_world empty 1
           [("namespace", VStr "app/components/Cache")]).
  reflexivity.
Defined.

(** Under a string ID the same definition is resolved by the first [get]. *)
Example C7_string_id_is_resolved :
  let definition := VObject [("namespace", VStr "app/components/Cache")] in
  fst (fst (get ContainerFacts.open_world 2
              (snd (set ContainerFacts.open_world empty (KStr "cache")
                      definition))
              Container.empty (KStr "cache") true))
  = Ok (VComponent 0 "app/components/Cache").
Proof. vm_compute. reflexivity. Qed.

(** The stored configuration object loses its [namespace] in the first
    [get], and stays in [_definitions] behind the cached instance. *)
Example C7_definition_after_first_get :
  let definition := VObject [("namespace", VStr "app/components/Cache");
                             ("ttl", VNum 60)] in
  let l1 := snd (set ContainerFacts.open_world empty (KStr "cache") definition) in
  let l2 := snd (fst (get ContainerFacts.open_world 2 l1 Container.empty
                        (KStr "cache") true)) in
  _definitions l2 !! KStr "cache" = Some (VObject [("ttl", VNum 60)])
  /\ _components l2 !! KStr "cache" = Some (VComponent 0 "app/components/Cache").
Proof. vm_compute. repeat split. Qed.

End ServiceLocatorFacts.

(** ** Component: event dispatch and behaviors *)

Module ComponentFacts.
Import Component.

Lemma behaviors_of_ensure (c : component) :
  behaviors_of (ensureBehaviors c) = behaviors_of c.
Proof.
  unfold ensureBehaviors, behaviors_of.
  destruct (_behaviors c) eqn:H; simpl; [rewrite H|]; reflexivity.
Qed.

Lemma events_ensure (c : component) :
  _events (ensureBehaviors c) = _events c.
Proof. unfold ensureBehaviors. destruct (_behaviors c); reflexivity. Qed.

Lemma Op_has_Some {V} (m : gmap string V) (k : string) (v : V) :
  m !! k = Some v -> Op_has m k = true.
Proof. intros H. apply bool_decide_eq_true_2. rewrite H. eauto. Qed.

Lemma Op_has_None {V} (m : gmap string V) (k : string) :
  m !! k = None -> Op_has m k = false.
Proof.
  intros H. apply bool_decide_eq_false_2. rewrite H. intros [x Hx]. discriminate.
Qed.

Lemma on_events (c : component) (E : string) (h : handler) (d : value) :
  _events (on c E h d true) !! E
  = Some (default [] (_events c !! E) ++ [(h, d)])%list.
Proof.
  unfold on. simpl. rewrite events_ensure, lookup_insert_eq.
  destruct (_events c !! E) as [hs|] eqn:H.
  - rewrite (Op_has_Some _ _ _ H). reflexivity.
  - rewrite (Op_has_None _ _ H). reflexivity.
Qed.

(** Three handlers appended to a name without handlers are stored in the
    order of attachment. *)
Lemma on_three_times (c : component) (E : string) (h1 h2 h3 : handler)
    (d1 d2 d3 : value) :
  _events c !! E = None ->
  _events (on (on (on c E h1 d1 true) E h2 d2 true) E h3 d3 true) !! E
  = Some [(h1, d1); (h2, d2); (h3, d3)].
Proof.
  intros H. rewrite !on_events, H. reflexivity.
Qed.

Lemma trigger_dispatches (c : component) (E : string) (ev : option Event)
    (hs : list (handler * value)) :
  _events c !! E = Some hs ->
  fst (trigger c E ev)
  = Some (dispatch hs (mkEvent E (sender (default new_Event ev)) false
                               (data (default new_Event ev))) []).
Proof.
  intros H. unfold trigger, Op_get.
  rewrite events_ensure, (Op_has_Some _ _ _ H), H. reflexivity.
Qed.

(** A handler that is a plain function, returns normally and leaves
    [handled] false. *)
Definition passes (h : handler) : Prop :=
  isAsync h = false
  /\ forall e, exists e', h_body h e = Ok e' /\ handled e' = false.

(** A handler that is a plain function, returns normally and sets
    [handled]. *)
Definition handles (h : handler) : Prop :=
  isAsync h = false
  /\ forall e, exists e', h_body h e = Ok e' /\ handled e' = true.

(** Plain functions that pass are all invoked, in list order. *)
Lemma dispatch_passes (hs : list (handler * value)) (ev : Event)
    (trace : list nat) :
  Forall (fun hd => passes (fst hd)) hs ->
  outcome (dispatch hs ev trace) = Completed
  /\ invoked (dispatch hs ev trace) = (trace ++ map (fun hd => h_fid (fst hd)) hs)%list.
Proof.
  revert ev trace. induction hs as [|[h d] hs IH]; intros ev trace Hall.
  - simpl. rewrite app_nil_r. split; reflexivity.
  - inversion Hall as [|? ? [Hsync Hbody] Hrest]; subst. simpl in *.
    unfold await_callback. rewrite Hsync. simpl.
    destruct (Hbody (mkEvent (name ev) (sender ev) (handled ev)
                             (merge_data d (data ev)))) as (e' & -> & ->).
    destruct (IH e' (trace ++ [h_fid h])%list Hrest) as [Ho Hi].
    rewrite Ho, Hi, <- app_assoc. split; reflexivity.
Qed.

(** A plain function that sets [handled] ends the dispatch: the handlers
    behind it are not invoked. *)
Lemma dispatch_handled (h : handler) (d : value)
    (rest : list (handler * value)) (ev : Event) (trace : list nat) :
  handles h ->
  outcome (dispatch ((h, d) :: rest) ev trace) = Completed
  /\ invoked (dispatch ((h, d) :: rest) ev trace) = (trace ++ [h_fid h])%list.
Proof.
  intros [Hsync Hbody]. simpl. unfold await_callback. rewrite Hsync. simpl.
  destruct (Hbody (mkEvent (name ev) (sender ev) (handled ev)
                           (merge_data d (data ev)))) as (e' & -> & ->).
  split; reflexivity.
Qed.

(** With handlers that are plain functions the dispatch is as C6 says:
    attachment order, cut short by [handled]. *)
Lemma trigger_plain_functions (c : component) (E : string)
    (h1 h2 h3 : handler) (d1 d2 d3 : value) (ev : option Event) :
  _events c !! E = None ->
  let c3 := on (on (on c E h1 d1 true) E h2 d2 true) E h3 d3 true in
  (passes h1 -> passes h2 -> passes h3 ->
   exists r, fst (trigger c3 E ev) = Some r /\ outcome r = Completed
             /\ invoked r = [h_fid h1; h_fid h2; h_fid h3])
  /\ (handles h1 ->
      exists r, fst (trigger c3 E ev) = Some r /\ outcome r = Completed
                /\ invoked r = [h_fid h1]).
Proof.
  intros Hfresh c3.
  pose proof (on_three_times c E h1 h2 h3 d1 d2 d3 Hfresh) as Hev.
  split.
  - intros P1 P2 P3. eexists. split; [apply trigger_dispatches, Hev|].
    apply (dispatch_passes [(h1, d1); (h2, d2); (h3, d3)]).
    repeat first [apply List.Forall_nil | apply List.Forall_cons; [assumption|]].
  - intros H1. eexists. split; [apply trigger_dispatches, Hev|].
    apply (dispatch_handled h1 d1 [(h2, d2); (h3, d3)] _ [] H1).
Qed.

(** C6 (what the code does instead).  [promisify] hands an async function
    to [Util.promisify]; the promise of that wrapper settles only through
    the error-first callback, which an event handler does not call.  With
    an async first handler the dispatch invokes [h1] and then waits for
    ever: [h2] and [h3] are not invoked, whether or not [h1] set
    [handled]. *)
Theorem C6_async_handler_stalls_dispatch (c : component) (E : string)
    (h1 h2 h3 : handler) (d1 d2 d3 : value) (ev : option Event) :
  _events c !! E = None ->
  isAsync h1 = true ->
  h_calls_back h1 = false ->
  exists r,
    fst (trigger (on (on (on c E h1 d1 true) E h2 d2 true) E h3 d3 true) E ev)
    = Some r
    /\ outcome r = Pending
    /\ invoked r = [h_fid h1].
Proof.
  intros Hfresh Hasync Hcb.
  eexists. split.
  - apply trigger_dispatches, on_three_times, Hfresh.
  - simpl. unfold await_callback, Util_promisify. rewrite Hasync, Hcb. simpl.
    destruct (h_body h1 _); split; reflexivity.
Qed.

(** Three handlers that only mark the event data; the first is an async
    function. *)
Definition mark (fid : nat) (k : fkind) : handler :=
  mkHandler fid k (fun e => Ok (mkEvent (name e) (sender e) (handled e)
                                        (VNum (Z.of_nat fid)))) false.

Lemma C6_async_handler_witness :
  exists r,
    fst (trigger (on (on (on new_Component "save" (mark 1 FAsync) VNull true)
                         "save" (mark 2 FSync) VNull true)
                     "save" (mark 3 FSync) VNull true) "save" None)
    = Some r
    /\ outcome r = Pending
    /\ invoked r = [h_fid (mark 1 FAsync)].
Proof.
  apply (C6_async_handler_stalls_dispatch new_Component "save"
           (mark 1 FAsync) (mark 2 FSync) (mark 3 FSync) VNull VNull VNull None);
    reflexivity.
Defined.

(** The same three handlers as plain functions are all invoked, in order. *)
Example C6_plain_handlers_in_order :
  option_map invoked
    (fst (trigger (on (on (on new_Component "save" (mark 1 FSync) VNull true)
                          "save" (mark 2 FSync) VNull true)
                      "save" (mark 3 FSync) VNull true) "save" None))
  = Some [1; 2; 3].
Proof. vm_compute. reflexivity. Qed.

Lemma component_put_same (s : store) (this : nat) (c : component) :
  components (put_component s this c) this = c.
Proof. simpl. rewrite Nat.eqb_refl. reflexivity. Qed.

Lemma off_behaviors_of (c : component) (E : string) (h : option handler) :
  behaviors_of (snd (off c E h)) = behaviors_of c.
Proof.
  unfold off. rewrite <- (behaviors_of_ensure c).
  destruct (Op_has (_events (ensureBehaviors c)) E); [|reflexivity].
  destruct h as [h|]; [|reflexivity]. simpl.
  destruct (remove_first h _); reflexivity.
Qed.

Lemma fold_off_behaviors_of (attached : list (string * handler))
    (c : component) :
  behaviors_of
    (fold_left (fun c eh => snd (off c (fst eh) (Some (snd eh)))) attached c)
  = behaviors_of c.
Proof.
  revert c. induction attached as [|eh attached IH]; intros c; [reflexivity|].
  simpl. rewrite IH. apply off_behaviors_of.
Qed.

(** Detaching a behavior changes no behavior registry, clears the owner of
    the behavior and touches no other behavior. *)
Lemma detach_behaviors_of (s : store) (b i : nat) :
  behaviors_of (components (Behavior_detach s b) i)
  = behaviors_of (components s i).
Proof.
  unfold Behavior_detach. destruct (owner (behaviors s b)) as [o|]; [|reflexivity].
  simpl. destruct (Nat.eqb_spec i o) as [->|]; [|reflexivity].
  apply fold_off_behaviors_of.
Qed.

Lemma detach_owner (s : store) (b : nat) :
  owner (behaviors (Behavior_detach s b) b) = None.
Proof.
  unfold Behavior_detach. destruct (owner (behaviors s b)) as [o|] eqn:Ho.
  - simpl. rewrite Nat.eqb_refl. reflexivity.
  - exact Ho.
Qed.

Lemma detach_other (s : store) (b b' : nat) :
  b' <> b -> behaviors (Behavior_detach s b) b' = behaviors s b'.
Proof.
  intros Hne. unfold Behavior_detach.
  destruct (owner (behaviors s b)) as [o|]; [|reflexivity].
  simpl. destruct (Nat.eqb_spec b' b); [contradiction|reflexivity].
Qed.

(** C8 (what the code does instead).  When a behavior [b1] is registered
    under the name, [attachBehaviorInternal] detaches [b1] and does nothing
    else: [attachBehavior(n, b2)] answers [b2], but afterwards
    [getBehavior(n)] still answers [b1], whose owner is now [null], and
    [b2] (when it is another object) is exactly as it was: it was not
    attached and its owner was not set. *)
Theorem C8_reattach_only_detaches (s : store) (this : nat) (n : string)
    (b1 b2 : nat) :
  behaviors_of (components s this) !! n = Some b1 ->
  fst (attachBehavior s this n b2) = b2
  /\ fst (getBehavior (snd (attachBehavior s this n b2)) this n) = Some b1
  /\ owner (behaviors (snd (attachBehavior s this n b2)) b1) = None
  /\ (b2 <> b1 ->
      behaviors (snd (attachBehavior s this n b2)) b2 = behaviors s b2).
Proof.
  intros Hreg. unfold attachBehavior, attachBehaviorInternal.
  rewrite component_put_same, behaviors_of_ensure, (Op_has_Some _ _ _ Hreg), Hreg.
  simpl fst. simpl snd.
  split; [reflexivity|]. split; [|split].
  - unfold getBehavior, Op_get. simpl fst. rewrite Nat.eqb_refl.
    rewrite behaviors_of_ensure, detach_behaviors_of.
    rewrite component_put_same, behaviors_of_ensure. exact Hreg.
  - apply detach_owner.
  - intros Hne. rewrite detach_other by exact Hne. reflexivity.
Qed.

(** A component [0] that owns a behavior [1] under the name ["log"], and a
    second behavior [2] that nobody owns. *)
Definition one_behavior : store :=
  mkStore (fun _ => mkComponent ∅ (Some {["log" := 1]}))
          (fun b => if (b =? 1)%nat then mkBehavior (Some 0) [] []
                    else mkBehavior None [] []).

Lemma C8_reattach_witness :
  fst (attachBehavior one_behavior 0 "log" 2) = 2
  /\ fst (getBehavior (snd (attachBehavior one_behavior 0 "log" 2)) 0 "log")
     = Some 1
  /\ owner (behaviors (snd (attachBehavior one_behavior 0 "log" 2)) 1) = None
  /\ (2 <> 1 ->
      behaviors (snd (attachBehavior one_behavior 0 "log" 2)) 2
      = behaviors one_behavior 2).
Proof.
  apply (C8_reattach_only_detaches one_behavior 0 "log" 1 2).
  reflexivity.
Defined.

(** On the same store the new behavior has no owner after the call. *)
Example C8_new_behavior_not_attached :
  owner (behaviors (snd (attachBehavior one_behavior 0 "log" 2)) 2) = None.
Proof. reflexivity. Qed.

(** Under a free name the behavior is attached and registered. *)
Example C8_fresh_name_attaches :
  fst (getBehavior (snd (attachBehavior one_behavior 0 "audit" 2)) 0 "audit")
  = Some 2
  /\ owner (behaviors (snd (attachBehavior one_behavior 0 "audit" 2)) 2)
     = Some 0.
Proof. vm_compute. split; reflexivity. Qed.

End ComponentFacts.

(** ** Module: the route handed to a child module *)

Module BaseModuleFacts.
Import StringHelper NamespaceHelper BaseModule.

(** [split('/', 2)] keeps two pieces and drops what follows the second. *)
Lemma split_route_three_segments :
  split_route "admin/users/list" = ("admin", "users").
Proof. reflexivity. Qed.

(** C3 (what the code does instead).  For a module whose [getModule]
    answers a child module for ["admin"] (an instance held by [_modules],
    or one made of the configuration held there) and whose [controllerMap]
    has no ["admin"], [createController("admin/users/list")] is what the
    child answers to [createController("users")]: the child never sees
    ["list"]. *)
Theorem C3_child_receives_one_segment (w : world)
    (createObject : value -> list value -> result value)
    (as_module : value -> option module) (depth : nat)
    (parent parent' child : module) :
  controllerMap parent !! "admin" = None ->
  getModule createObject as_module parent "admin" = (Ok (Some child), parent') ->
  fst (createController w createObject as_module (S depth) parent
         "admin/users/list")
  = fst (createController w createObject as_module depth child "users").
Proof.
  intros Hmap Hchild.
  change (createController w createObject as_module (S depth) parent
            "admin/users/list")
    with (match controllerMap parent !! "admin" with
          | Some config =>
              let left :=
                with_controllerMap parent
                  (<["admin" := App.consumed config]> (controllerMap parent)) in
              match createObject config [VStr "admin"; as_value parent] with
              | Throw e => (Throw e, left)
              | Ok controller => (Ok (Some (controller, "users")), left)
              end
          | None =>
              match getModule createObject as_module parent "admin" with
              | (Throw e, this') => (Throw e, this')
              | (Ok (Some m), this') =>
                  let '(r, m') :=
                    createController w createObject as_module depth m "users" in
                  (r, with_modules this'
                        (store_child "admin" (Instance m') (_modules this')))
              | (Ok None, this') =>
                  match createControllerByID w createObject this' "admin" with
                  | Throw e => (Throw e, this')
                  | Ok (Some controller) =>
                      (Ok (Some (controller, "users")), this')
                  | Ok None =>
                      match createControllerByID w createObject this'
                              "admin/users" with
                      | Throw e => (Throw e, this')
                      | Ok (Some controller) => (Ok (Some (controller, "")), this')
                      | Ok None => (Ok None, this')
                      end
                  end
              end
          end).
  rewrite Hmap, Hchild.
  destruct (createController w createObject as_module depth child "users").
  reflexivity.
Qed.

(** A loader in which every well-formed namespace is a controller class. *)
Definition controllers_world : world :=
  {| file_exists := fun _ => true;
     load := fun namespace =>
       Some {| cls_constructor := true;
               cls_component := true;
               cls_namespace := namespace;
               cls_ancestors := ["framework/base/Controller"];
               cls_new := fun _ => None |};
     call := fun _ _ => Throw TypeError;
     merge_recursive := fun registered params => params |}.

(** [App.createObject] on a container without definitions. *)
Definition create (type : value) (configuration : list value) : result value :=
  fst (fst (App.createObject controllers_world 2 Container.empty type
              configuration)).

Definition admin : module :=
  mkModule 2 "app/modules/admin/Module" "admin" ∅
           (Some "app/modules/admin/controllers") "default" [].

Definition application : module :=
  mkModule 1 "app/Application" "app" ∅ (Some "app/controllers") "site"
           [("admin", Instance admin)].

Lemma C3_child_receives_one_segment_witness :
  fst (createController controllers_world create (fun _ => None) 2 application
         "admin/users/list")
  = fst (createController controllers_world create (fun _ => None) 1 admin
           "users").
Proof.
  apply (C3_child_receives_one_segment controllers_world create
           (fun _ => None) 1 application application admin); reflexivity.
Defined.

(** The failing input of C3: UsersController of the admin module is
    resolved with an empty action ID, not with ["list"]. *)
Example C3_action_id_is_lost :
  fst (createController controllers_world create (fun _ => None) 2 application
         "admin/users/list")
  = Ok (Some (VComponent 0 "app/modules/admin/controllers/UsersController", "")).
Proof. vm_compute. reflexivity. Qed.

(** The same when ["admin"] is registered as a configuration that
    [App.createObject] makes into the module. *)
Example C3_pending_child_alike :
  let pending :=
    mkModule 1 "app/Application" "app" ∅ (Some "app/controllers") "site"
             [("admin", Config (VObject [("namespace",
                                          VStr "app/modules/admin/Module")]))] in
  fst (createController controllers_world create (fun _ => Some admin) 2 pending
         "admin/users/list")
  = Ok (Some (VComponent 0 "app/modules/admin/controllers/UsersController", "")).
Proof. vm_compute. reflexivity. Qed.

(** A route of two segments keeps its action ID. *)
Example site_index_resolves :
  fst (createController controllers_world create (fun _ => None) 2 application
         "site/index")
  = Ok (Some (VComponent 0 "app/controllers/SiteController", "index")).
Proof. vm_compute. reflexivity. Qed.

End BaseModuleFacts.

(** ** CoreObject: the other visibility flags and the accessors together *)

Module CoreObjectMoreFacts.
Import CoreObject CoreObjectFacts.

(** The slot and the flag of a property are those of the last
    configuration key that names it. *)
Lemma new_last_entry (config : Configuration)
    (before after : list (string * value)) (k p : string) (v : value) :
  Object_entries config = (before ++ (k, v) :: after)%list ->
  Forall (fun nv => strip_scope (fst nv) <> p) after ->
  strip_scope k = p ->
  slots (new config) !! KStr p = Some v
  /\ registry (new config) !! KStr p = Some (scope_of k).
Proof.
  intros Hcfg Hafter Hk.
  assert (Hnew : new config
                 = mk (configure ∅ config) (configureRegistry ∅ config)).
  { unfold new. rewrite Hcfg, length_app. simpl.
    replace (0 <? length before + S (length after))%nat with true; [reflexivity|].
    symmetry. apply Nat.ltb_lt. lia. }
  rewrite Hnew. simpl. unfold configure, configureRegistry. rewrite Hcfg.
  split.
  - apply (fold_insert_last snd p before after (k, v)); assumption.
  - apply (fold_insert_last (fun nv => scope_of (fst nv)) p before after (k, v));
      assumption.
Qed.

Lemma new_unnamed (config : Configuration) (p : string) :
  Forall (fun nv => strip_scope (fst nv) <> p) (Object_entries config) ->
  slots (new config) !! KStr p = None
  /\ registry (new config) !! KStr p = None.
Proof.
  intros Hall. unfold new.
  destruct (0 <? length (Object_entries config))%nat; simpl.
  - unfold configure, configureRegistry. split.
    + rewrite (fold_insert_other snd p _ ∅ Hall). apply lookup_empty.
    + rewrite (fold_insert_other (fun nv => scope_of (fst nv)) p _ ∅ Hall).
      apply lookup_empty.
  - split; apply lookup_empty.
Qed.

(** A name of one path segment that no configuration key names is unknown
    to the constructed object: [hasProperty] is false, and [get], [set]
    and [unset] throw UnknownProperty and leave the object as it was. *)
Lemma unconfigured_name_is_unknown (config : Configuration) (p : string)
    (x : value) :
  plain_keys config = true ->
  one_segment p = true ->
  Forall (fun nv => strip_scope (fst nv) <> p) (Object_entries config) ->
  hasProperty (new config) (KStr p) = Ok false
  /\ get (new config) (KStr p) = Throw UnknownPropertyException
  /\ set (new config) (KStr p) x = (Throw UnknownPropertyException, new config)
  /\ unset (new config) (KStr p) = (Throw UnknownPropertyException, new config).
Proof.
  intros _ _ Hall. destruct (new_unnamed config p Hall) as [Hslot _].
  assert (Hn : ~ registered (new config) (KStr p)).
  { intros (s & _ & _ & [y Hy] & _). rewrite Hslot in Hy. discriminate. }
  pose proof (hasProperty_unregistered _ _ Hn) as H.
  unfold get, set, unset. rewrite H. repeat split.
Qed.

Lemma unconfigured_name_witness :
  hasProperty (new [(KStr "-label", VStr "x")]) (KStr "title") = Ok false
  /\ get (new [(KStr "-label", VStr "x")]) (KStr "title")
     = Throw UnknownPropertyException
  /\ set (new [(KStr "-label", VStr "x")]) (KStr "title") VNull
     = (Throw UnknownPropertyException, new [(KStr "-label", VStr "x")])
  /\ unset (new [(KStr "-label", VStr "x")]) (KStr "title")
     = (Throw UnknownPropertyException, new [(KStr "-label", VStr "x")]).
Proof.
  apply (unconfigured_name_is_unknown [(KStr "-label", VStr "x")] "title" VNull).
  - reflexivity.
  - reflexivity.
  - repeat constructor. simpl. discriminate.
Defined.

(** When the last key that names [p] is ['+' + p]: [get(p)] throws
    InvalidCall, [set(p, x)] stores [x] in the slot and changes nothing
    else, and [unset(p)] throws InvalidCall. *)
Lemma write_only_key (config : Configuration)
    (before after : list (string * value)) (p : string) (v x : value) :
  plain_keys config = true ->
  one_segment p = true ->
  Object_entries config = (before ++ ("+" +:+ p, v) :: after)%list ->
  Forall (fun nv => strip_scope (fst nv) <> p) after ->
  startsWith "__" p = false ->
  get (new config) (KStr p) = Throw InvalidCallException
  /\ set (new config) (KStr p) x
     = (Ok tt, mk (<[KStr p := x]> (slots (new config))) (registry (new config)))
  /\ unset (new config) (KStr p) = (Throw InvalidCallException, new config).
Proof.
  intros _ _ Hcfg Hafter Hp.
  destruct (new_last_entry config before after ("+" +:+ p) p v Hcfg Hafter
              eq_refl) as [Hslot Hreg].
  assert (Hw : scope_of ("+" +:+ p) = "w").
  { unfold scope_of, startsWith. simpl. destruct p; reflexivity. }
  rewrite Hw in Hreg.
  assert (Hr : registered (new config) (KStr p)).
  { exists p. repeat split; eauto. }
  assert (Hs : settable (new config) (KStr p)) by (left; exact Hreg).
  repeat split.
  - unfold get, canGetProperty. rewrite (hasProperty_registered _ _ Hr). simpl.
    unfold registry_includes, registry_entry. rewrite Hreg. reflexivity.
  - unfold set.
    rewrite (hasProperty_registered _ _ Hr), (canSetProperty_settable _ _ Hr Hs).
    reflexivity.
  - unfold unset.
    rewrite (hasProperty_registered _ _ Hr), (canSetProperty_settable _ _ Hr Hs).
    reflexivity.
Qed.

Lemma write_only_key_witness :
  get (new [(KStr "+secret", VNum 1)]) (KStr "secret")
  = Throw InvalidCallException
  /\ set (new [(KStr "+secret", VNum 1)]) (KStr "secret") (VNum 2)
     = (Ok tt, mk (<[KStr "secret" := VNum 2]>
                     (slots (new [(KStr "+secret", VNum 1)])))
                  (registry (new [(KStr "+secret", VNum 1)])))
  /\ unset (new [(KStr "+secret", VNum 1)]) (KStr "secret")
     = (Throw InvalidCallException, new [(KStr "+secret", VNum 1)]).
Proof.
  apply (write_only_key [(KStr "+secret", VNum 1)] [] [] "secret" (VNum 1)
           (VNum 2));
    [reflexivity | reflexivity | reflexivity | constructor
     | reflexivity].
Defined.

(** When the last key that names [p] is [p] itself (no scope prefix):
    [get(p)] answers the configured value, and after [set(p, x)] it
    answers [x]. *)
Lemma read_write_round_trip (config : Configuration)
    (before after : list (string * value)) (p : string) (v x : value) :
  plain_keys config = true ->
  one_segment p = true ->
  Object_entries config = (before ++ (p, v) :: after)%list ->
  Forall (fun nv => strip_scope (fst nv) <> p) after ->
  startsWith "-" p = false -> startsWith "+" p = false ->
  startsWith "__" p = false ->
  get (new config) (KStr p) = Ok v
  /\ fst (set (new config) (KStr p) x) = Ok tt
  /\ get (snd (set (new config) (KStr p) x)) (KStr p) = Ok x.
Proof.
  intros _ _ Hcfg Hafter Hminus Hplus Hp.
  assert (Hstrip : strip_scope p = p).
  { destruct p as [|c p]; [reflexivity|]. unfold startsWith in *. simpl.
    destruct (Ascii.eqb_spec c "-") as [->|];
      [simpl in Hminus; destruct p; discriminate Hminus|].
    destruct (Ascii.eqb_spec c "+") as [->|];
      [simpl in Hplus; destruct p; discriminate Hplus|].
    reflexivity. }
  destruct (new_last_entry config before after p p v Hcfg Hafter Hstrip)
    as [Hslot Hreg].
  assert (Ha : scope_of p = "a") by (unfold scope_of; rewrite Hminus, Hplus; reflexivity).
  rewrite Ha in Hreg.
  assert (Hr : registered (new config) (KStr p)).
  { exists p. repeat split; eauto. }
  assert (Hs : settable (new config) (KStr p)) by (right; exact Hreg).
  assert (Hset : set (new config) (KStr p) x
                 = (Ok tt, write_slot (new config) (KStr p) x)).
  { unfold set.
    rewrite (hasProperty_registered _ _ Hr), (canSetProperty_settable _ _ Hr Hs).
    reflexivity. }
  rewrite Hset. simpl. repeat split.
  - unfold get, canGetProperty. rewrite (hasProperty_registered _ _ Hr). simpl.
    unfold registry_includes, registry_entry, read_slot.
    rewrite Hreg, Hslot. reflexivity.
  - assert (Hr' : registered (write_slot (new config) (KStr p) x) (KStr p)).
    { exists p. repeat split; simpl; eauto. rewrite lookup_insert_eq. eauto. }
    unfold get, canGetProperty. rewrite (hasProperty_registered _ _ Hr'). simpl.
    unfold registry_includes, registry_entry, read_slot. simpl.
    rewrite Hreg, lookup_insert_eq. reflexivity.
Qed.

Lemma read_write_round_trip_witness :
  get (new [(KStr "title", VStr "a")]) (KStr "title") = Ok (VStr "a")
  /\ fst (set (new [(KStr "title", VStr "a")]) (KStr "title") (VStr "b")) = Ok tt
  /\ get (snd (set (new [(KStr "title", VStr "a")]) (KStr "title") (VStr "b")))
         (KStr "title") = Ok (VStr "b").
Proof.
  apply (read_write_round_trip [(KStr "title", VStr "a")] [] [] "title"
           (VStr "a") (VStr "b"));
    [reflexivity | reflexivity | reflexivity | constructor
     | reflexivity | reflexivity | reflexivity].
Defined.

(** The scope prefix of the last configuration key that names [p] decides
    how [p] is accessed, for a configuration none of whose keys names a
    member of the class and a name [p] of one path segment that does not
    begin with two underscores.  With ['+' + p]: [get(p)] throws
    InvalidCall, [set(p, x)] stores [x] in the slot and changes nothing
    else, and [unset(p)] throws InvalidCall.  With [p] itself: [get(p)]
    answers the configured value, and after [set(p, x)] it answers [x]. *)
Theorem last_key_decides_access (config : Configuration)
    (before after : list (string * value)) (k p : string) (v x : value) :
  plain_keys config = true ->
  one_segment p = true ->
  Object_entries config = (before ++ (k, v) :: after)%list ->
  Forall (fun nv => strip_scope (fst nv) <> p) after ->
  startsWith "__" p = false ->
  (k = "+" +:+ p ->
   get (new config) (KStr p) = Throw InvalidCallException
   /\ set (new config) (KStr p) x
      = (Ok tt, mk (<[KStr p := x]> (slots (new config))) (registry (new config)))
   /\ unset (new config) (KStr p) = (Throw InvalidCallException, new config))
  /\ (k = p -> startsWith "-" p = false -> startsWith "+" p = false ->
      get (new config) (KStr p) = Ok v
      /\ fst (set (new config) (KStr p) x) = Ok tt
      /\ get (snd (set (new config) (KStr p) x)) (KStr p) = Ok x).
Proof.
  intros Hkeys Hseg Hcfg Hafter Hp. split.
  - intros ->. apply (write_only_key config before after p v x); assumption.
  - intros -> Hminus Hplus.
    apply (read_write_round_trip config before after p v x); assumption.
Qed.

Lemma last_key_decides_access_witness :
  (get (new [(KStr "+secret", VNum 1)]) (KStr "secret")
   = Throw InvalidCallException
   /\ set (new [(KStr "+secret", VNum 1)]) (KStr "secret") (VNum 2)
      = (Ok tt, mk (<[KStr "secret" := VNum 2]>
                      (slots (new [(KStr "+secret", VNum 1)])))
                   (registry (new [(KStr "+secret", VNum 1)])))
   /\ unset (new [(KStr "+secret", VNum 1)]) (KStr "secret")
      = (Throw InvalidCallException, new [(KStr "+secret", VNum 1)]))
  /\ (get (new [(KStr "title", VStr "a")]) (KStr "title") = Ok (VStr "a")
      /\ fst (set (new [(KStr "title", VStr "a")]) (KStr "title") (VStr "b"))
         = Ok tt
      /\ get (snd (set (new [(KStr "title", VStr "a")]) (KStr "title") (VStr "b")))
             (KStr "title") = Ok (VStr "b")).
Proof.
  split.
  - apply (proj1 (last_key_decides_access [(KStr "+secret", VNum 1)] [] []
                    "+secret" "secret" (VNum 1) (VNum 2) eq_refl eq_refl
                    eq_refl (List.Forall_nil _) eq_refl)).
    reflexivity.
  - apply (proj2 (last_key_decides_access [(KStr "title", VStr "a")] [] []
                    "title" "title" (VStr "a") (VStr "b") eq_refl eq_refl
                    eq_refl (List.Forall_nil _) eq_refl)); reflexivity.
Defined.

Lemma hasMethod_false (o : t) (name : key) (member : bool) :
  hasMethod o name member = Ok false.
Proof.
  unfold hasMethod, registry_entry.
  destruct (member || in_this o name); simpl; [|reflexivity].
  destruct name as [s|n]; [|reflexivity].
  destruct (startsWith "__" s); [reflexivity|].
  destruct (Op_has (registry o) (KStr s)) eqn:Hhas; simpl; [|reflexivity].
  destruct (registry o !! KStr s) eqn:E; [reflexivity|].
  unfold Op_has in Hhas. rewrite E in Hhas.
  apply bool_decide_eq_true_1 in Hhas.
  destruct Hhas as [y Hy]. discriminate.
Qed.

(** The registry holds flags, never functions: [hasMethod] answers false
    for every object and every name, a method of the class or not, and
    [has] is [hasProperty]. *)
Theorem hasMethod_never_holds (o : t) (name : key) (member : bool) :
  hasMethod o name member = Ok false
  /\ has o name member = hasProperty o name.
Proof.
  split; [apply hasMethod_false|].
  unfold has. rewrite hasMethod_false. reflexivity.
Qed.

End CoreObjectMoreFacts.

(** ** Container: registration, resolution and removal together *)

Module ContainerMoreFacts.
Import NamespaceHelper Container ContainerFacts.

Definition marker (namespace : string) : value :=
  VObject [("namespace", VStr namespace)].

(** What [normalizeDefinition] answers, by the shape of the definition. *)
Lemma normalizeDefinition_cases (namespace : string) (d : value) :
  normalizeDefinition namespace d
  = match d with
    | VObject (_ :: _) =>
        if has_namespace d then Ok d else Throw InvalidConfigException
    | VComponent _ _ => Ok d
    | _ => Ok (marker namespace)
    end.
Proof.
  unfold normalizeDefinition, marker.
  destruct d as [| |b|n|s|fields|k f| |o ns]; simpl; try reflexivity.
  - destruct b; reflexivity.
  - destruct (negb (n =? 0)%Z); reflexivity.
  - destruct (negb (negb (String.eqb s ""))); reflexivity.
  - destruct fields as [|f fs]; simpl; [reflexivity|].
    destruct (bool_decide _); reflexivity.
Qed.

(** Every stored definition is a plain object or a component instance. *)
Lemma normalized_is_object (namespace : string) (d d' : value) :
  normalizeDefinition namespace d = Ok d' ->
  CallbackHelper.isActualFunction d' = Ok false /\ R_is_Object d' = true.
Proof.
  rewrite normalizeDefinition_cases.
  destruct d as [| |b|n|s|fields|k f| |o ns]; simpl;
    try (intros [= <-]; split; reflexivity).
  destruct fields as [|f fs]; [intros [= <-]; split; reflexivity|].
  destruct (bool_decide _); [|discriminate].
  intros [= <-]; split; reflexivity.
Qed.

(** A definition without own enumerable keys (a function, a number, a
    boolean, a promise) or a string is registered by [set] exactly as no
    definition at all: the stored definition is [{namespace: key}], and a
    callback handed to [set] is never kept. *)
Theorem set_keeps_no_callback (c : t) (namespace : string) (d params : value) :
  keys_length d = 0%nat \/ R_is_String d = true ->
  set c namespace d params = set c namespace VNull params
  /\ _definitions (snd (set c namespace d params)) !! namespace
     = Some (marker namespace).
Proof.
  intros H.
  assert (Hn : normalizeDefinition namespace d = Ok (marker namespace)).
  { rewrite normalizeDefinition_cases.
    destruct d as [| |b|n|s|fields|k f| |o ns]; try reflexivity.
    - destruct fields; [reflexivity|]. destruct H as [H|H]; discriminate.
    - destruct H as [H|H]; discriminate. }
  unfold set. rewrite Hn. rewrite normalizeDefinition_cases. simpl.
  split; [reflexivity | apply lookup_insert_eq].
Qed.

Lemma set_keeps_no_callback_witness :
  set empty "app/Clock" (VFunction FSync 4) (VObject [])
  = set empty "app/Clock" VNull (VObject [])
  /\ _definitions (snd (set empty "app/Clock" (VFunction FSync 4) (VObject [])))
       !! "app/Clock"
     = Some (marker "app/Clock").
Proof.
  apply (set_keeps_no_callback empty "app/Clock" (VFunction FSync 4) (VObject [])).
  left. reflexivity.
Defined.

(** The second container registers what the first does and has handed out
    no fewer identities. *)
Definition same_registries (c c' : t) : Prop :=
  dom (_singletons c') = dom (_singletons c)
  /\ _definitions c' = _definitions c
  /\ _params c' = _params c
  /\ (next_oid c <= next_oid c')%nat.

Lemma same_registries_refl (c : t) : same_registries c c.
Proof. repeat split; lia. Qed.

Lemma same_registries_trans (c1 c2 c3 : t) :
  same_registries c1 c2 -> same_registries c2 c3 -> same_registries c1 c3.
Proof.
  intros (H1 & H2 & H3 & H4) (K1 & K2 & K3 & K4).
  repeat split; try congruence. lia.
Qed.

Lemma build_registries (w : world) (c : t) (namespace : string)
    (configuration : list value) :
  same_registries c (snd (build w c namespace configuration)).
Proof.
  unfold build.
  destruct (isNamespace w namespace); simpl; [|apply same_registries_refl].
  destruct (load w namespace) as [cls|]; [|apply same_registries_refl].
  destruct (cls_constructor cls); simpl; [|apply same_registries_refl].
  destruct (cls_new cls configuration); [apply same_registries_refl|].
  destruct (cls_component cls); simpl; repeat split; simpl; lia.
Qed.

Lemma remember_registries (c : t) (namespace : string) (component : value) :
  same_registries c (remember c namespace component).
Proof.
  unfold remember.
  destruct (bool_decide (is_Some (_singletons c !! namespace))) eqn:H;
    [|apply same_registries_refl].
  apply bool_decide_eq_true_1 in H.
  repeat split; simpl; [|lia]. rewrite dom_insert_L.
  apply elem_of_dom in H. apply set_eq. intros x.
  rewrite elem_of_union, elem_of_singleton.
  split; [intros [->|Hx]; assumption | intros Hx; right; exact Hx].
Qed.

Lemma get_same_registries (w : world) (depth : nat) :
  forall (c : t) (namespace : string) (configuration : list value),
    same_registries c (snd (get w depth c namespace configuration)).
Proof.
  induction depth as [|depth IH]; intros c namespace configuration;
    [apply same_registries_refl|].
  simpl. destruct (splitConfigList configuration) as [args params].
  destruct (_singletons c !! namespace); [apply same_registries_refl|].
  destruct (_definitions c !! namespace) as [definition|];
    [|apply build_registries].
  destruct (CallbackHelper.isActualFunction definition) as [[|]|e];
    [| |apply same_registries_refl].
  - destruct (invoke w definition configuration) as [component|e];
      [|apply same_registries_refl].
    destruct (negb (R_is_Object component)
              || negb (instanceof_Component component));
      [apply same_registries_refl | apply remember_registries].
  - destruct (R_is_Object definition) eqn:Hobj.
    + destruct (mergeParams w c namespace params) as [newParams|e];
        [|apply same_registries_refl].
      destruct (get_namespace definition) as [| | | |concrete| | | |];
        try apply same_registries_refl.
      assert (Hres : same_registries c
                (snd (if String.eqb concrete namespace
                      then build w c concrete (args ++ [newParams])%list
                      else get w depth c concrete (args ++ [newParams])%list))).
      { destruct (String.eqb concrete namespace);
          [apply build_registries | apply IH]. }
      destruct (if String.eqb concrete namespace
                then build w c concrete (args ++ [newParams])%list
                else get w depth c concrete (args ++ [newParams])%list)
        as [r c1].
      simpl in Hres. destruct r as [component|e]; simpl; [|exact Hres].
      eapply same_registries_trans; [exact Hres | apply remember_registries].
    + destruct definition; simpl in Hobj; try discriminate;
        apply same_registries_refl.
Qed.

(** [get] registers nothing: whatever it answers, the definitions and the
    parameters are as before, [_singletons] holds the same keys, and the
    identities handed out only grow. *)
Theorem get_registers_nothing (w : world) (depth : nat) (c : t)
    (namespace : string) (configuration : list value) :
  dom (_singletons (snd (get w depth c namespace configuration)))
  = dom (_singletons c)
  /\ _definitions (snd (get w depth c namespace configuration)) = _definitions c
  /\ _params (snd (get w depth c namespace configuration)) = _params c
  /\ (next_oid c <= next_oid (snd (get w depth c namespace configuration)))%nat.
Proof. apply get_same_registries. Qed.

Lemma get_unregistered (w : world) (depth : nat) (c : t) (namespace : string)
    (configuration : list value) :
  _singletons c !! namespace = None ->
  _definitions c !! namespace = None ->
  get w (S depth) c namespace configuration
  = build w c namespace configuration.
Proof.
  intros Hs Hd. simpl. destruct (splitConfigList configuration).
  rewrite Hs, Hd. reflexivity.
Qed.






(** After a successful [set] of a definition that is not a function, under
    a key that is none of the names every object inherits, [get] with an
    explicitly empty argument list throws a TypeError: the parameters are
    read from an element that is not there, and [mergeParams] asks for the
    keys of [undefined]. *)
Theorem get_empty_list_is_type_error (w : world) (depth : nat) (c c' : t)
    (namespace : string) (definition params : value) :
  inherited namespace = false ->
  CallbackHelper.isFunction definition = false ->
  set c namespace definition params = (Ok tt, c') ->
  get w (S depth) c' namespace [] = (Throw TypeError, c').
Proof.
  unfold set. intros _ _ H.
  destruct (normalizeDefinition namespace definition) as [d|e] eqn:Hn;
    [|discriminate].
  destruct (normalized_is_object _ _ _ Hn) as [Hfn Hobj].
  injection H as <-. simpl.
  rewrite lookup_delete_eq, lookup_insert_eq, Hfn, Hobj.
  unfold mergeParams. simpl. rewrite lookup_insert_eq. reflexivity.
Qed.

Lemma get_empty_list_witness :
  get open_world 1
      (snd (set empty "app/components/Cache" VNull (VObject [])))
      "app/components/Cache" []
  = (Throw TypeError, snd (set empty "app/components/Cache" VNull (VObject []))).
Proof.
  apply (get_empty_list_is_type_error open_world 0 empty _
           "app/components/Cache" VNull (VObject [])); reflexivity.
Defined.

(** [clear] forgets the key in both registries, whatever was registered,
    when the key is one path segment and none of the names every object
    inherits: [has] and [hasSingleton] are false, [get] is [build] of the
    key with the caller's configuration, and every other key is as
    before. *)
Theorem clear_forgets (w : world) (depth : nat) (c : t) (namespace : string)
    (configuration : list value) :
  inherited namespace = false ->
  one_segment namespace = true ->
  has (clear c namespace) namespace = false
  /\ hasSingleton (clear c namespace) namespace false = false
  /\ hasSingleton (clear c namespace) namespace true = false
  /\ get w (S depth) (clear c namespace) namespace configuration
     = build w (clear c namespace) namespace configuration
  /\ forall other, other <> namespace ->
       _definitions (clear c namespace) !! other = _definitions c !! other
       /\ _singletons (clear c namespace) !! other = _singletons c !! other.
Proof.
  intros Hown _.
  assert (Hno : forall (m : gmap string value),
             bool_decide (is_Some (delete namespace m !! namespace)) = false).
  { intros m. apply bool_decide_eq_false_2. rewrite lookup_delete_eq.
    intros [x Hx]. discriminate. }
  split; [unfold has; rewrite Hown; simpl; rewrite Hno; reflexivity|].
  split; [apply Hno|].
  split; [unfold hasSingleton, Op_get, clear; simpl;
          rewrite lookup_delete_eq; reflexivity|].
  split; [apply get_unregistered; apply lookup_delete_eq|].
  intros other Hother. unfold clear. simpl.
  split; apply lookup_delete_ne; congruence.
Qed.

Lemma clear_forgets_witness :
  let c := snd (setSingleton empty "app/components/Cache" VNull (VObject [])) in
  let cleared := clear c "app/components/Cache" in
  has cleared "app/components/Cache" = false
  /\ hasSingleton cleared "app/components/Cache" false = false
  /\ hasSingleton cleared "app/components/Cache" true = false
  /\ get open_world 1 cleared "app/components/Cache" [VObject []]
     = build open_world cleared "app/components/Cache" [VObject []]
  /\ forall other, other <> "app/components/Cache" ->
       _definitions cleared !! other = _definitions c !! other
       /\ _singletons cleared !! other = _singletons c !! other.
Proof.
  intros c cleared.
  apply (clear_forgets open_world 0 c "app/components/Cache" [VObject []]);
    reflexivity.
Defined.

(** [build] never answers the same instance twice: an instance built later
    differs from every instance built before. *)
Theorem build_instances_are_fresh (w : world) (c c1 c2 : t)
    (ns1 ns2 : string) (cfg1 cfg2 : list value) (v1 v2 : value) :
  build w c ns1 cfg1 = (Ok v1, c1) ->
  (next_oid c1 <= next_oid c2)%nat ->
  fst (build w c2 ns2 cfg2) = Ok v2 ->
  v1 <> v2.
Proof.
  unfold build. intros H1 Hle H2.
  destruct (isNamespace w ns1); simpl in H1; [|discriminate].
  destruct (load w ns1) as [cls1|]; [|discriminate].
  destruct (cls_constructor cls1); simpl in H1; [|discriminate].
  destruct (cls_new cls1 cfg1); [discriminate|].
  destruct (cls_component cls1); simpl in H1; [|discriminate].
  injection H1 as <- <-. simpl in Hle.
  destruct (isNamespace w ns2); simpl in H2; [|discriminate].
  destruct (load w ns2) as [cls2|]; [|discriminate].
  destruct (cls_constructor cls2); simpl in H2; [|discriminate].
  destruct (cls_new cls2 cfg2); [discriminate|].
  destruct (cls_component cls2); simpl in H2; [|discriminate].
  injection H2 as <-. intros [= Heq _]. lia.
Qed.

Lemma build_instances_witness :
  VComponent 0 "app/models/User" <> VComponent 1 "app/models/User".
Proof.
  apply (build_instances_are_fresh open_world empty
           (snd (build open_world empty "app/models/User" [VObject []]))
           (snd (build open_world empty "app/models/User" [VObject []]))
           "app/models/User" "app/models/User" [VObject []] [VObject []]).
  - reflexivity.
  - simpl. lia.
  - reflexivity.
Defined.

Definition register (c : t) (entry : string * registration) : result unit * t :=
  match snd entry with
  | Paired items =>
      set c (fst entry) (nth 0 items VUndefined)
          (match nth 1 items VUndefined with
           | VUndefined => VObject []
           | params => params
           end)
  | Single d => set c (fst entry) d (VObject [])
  end.

(** [setDefinitions] is not atomic: when the entry after [done] is
    rejected, the call throws what [set] throws for that entry, the entries
    of [done] stay registered, and no later entry is looked at. *)
Theorem setDefinitions_stops_at_first_failure (c c1 : t)
    (done rest : list (string * registration))
    (bad : string * registration) (e : exn) :
  setDefinitions c done = (Ok tt, c1) ->
  fst (register c1 bad) = Throw e ->
  setDefinitions c (done ++ bad :: rest) = (Throw e, c1).
Proof.
  revert c. induction done as [|[ns d] done IH]; intros c Hdone Hbad.
  - simpl in Hdone. injection Hdone as <-. simpl.
    unfold register in Hbad. destruct bad as [ns d]. simpl in Hbad.
    unfold set in *.
    destruct d as [d|items].
    + destruct (normalizeDefinition ns d); [discriminate|].
      simpl in Hbad. injection Hbad as <-. reflexivity.
    + destruct (normalizeDefinition ns (nth 0 items VUndefined));
        [discriminate|].
      simpl in Hbad. injection Hbad as <-. reflexivity.
  - simpl in Hdone |- *.
    destruct (match d with
              | Single d0 => set c ns d0 (VObject [])
              | Paired items => _
              end) as [[[]|e'] c'] eqn:Hset; [|discriminate].
    apply IH; assumption.
Qed.

Lemma setDefinitions_witness :
  setDefinitions empty
    ([("app/A", Single VNull)]
     ++ ("app/B", Single (VObject [("dsn", VStr "x")]))
     :: [("app/C", Single VNull)])
  = (Throw InvalidConfigException, snd (set empty "app/A" VNull (VObject []))).
Proof.
  apply (setDefinitions_stops_at_first_failure empty _
           [("app/A", Single VNull)] [("app/C", Single VNull)]
           ("app/B", Single (VObject [("dsn", VStr "x")]))
           InvalidConfigException); reflexivity.
Defined.

End ContainerMoreFacts.

(** ** ServiceLocator: replacing, removing and retrying *)

Module ServiceLocatorMoreFacts.
Import NamespaceHelper ServiceLocator ServiceLocatorFacts.

(** [set(id, null)] removes the component and the definition of the ID as
    [clear(id)] does, and then throws InvalidConfig. *)
Theorem set_null_clears_and_throws (w : world) (l : t) (id : key) :
  set w l id VNull = (Throw InvalidConfigException, clear l id).
Proof. reflexivity. Qed.

(** [set] evicts the cached instance before it looks at the definition: a
    [set] that throws for a definition other than [null] leaves
    [_definitions] as it was and [_components] without the ID. *)
Theorem failed_set_evicts_component (w : world) (l l' : t) (id : key)
    (definition : value) (e : exn) :
  set w l id definition = (Throw e, l') ->
  definition <> VNull ->
  l' = mk (delete id (_components l)) (_definitions l).
Proof.
  unfold set. intros H Hnn.
  destruct definition as [| |b|n|s|fields|k fid| |o ns]; simpl in H;
    try contradiction; try discriminate H;
    try (injection H as _ <-; reflexivity).
  - destruct (isNamespace w s); [discriminate H|].
    injection H as _ <-; reflexivity.
  - destruct (bool_decide _); [discriminate H|].
    injection H as _ <-; reflexivity.
  - destruct k; simpl in H; try (injection H as _ <-; reflexivity);
      (destruct (call w fid []) as [instance|e'];
       [|injection H as _ <-; reflexivity]);
      (destruct (instanceof_Component instance); [discriminate H|]);
      injection H as _ <-; reflexivity.
Qed.

Lemma failed_set_witness :
  let l := mk {[KStr "db" := VComponent 7 "app/Db"]}
              {[KStr "db" := VObject [("namespace", VStr "app/Db")]]} in
  snd (set ContainerFacts.open_world l (KStr "db") (VNum 3))
  = mk (delete (KStr "db") (_components l)) (_definitions l).
Proof.
  intros l.
  apply (failed_set_evicts_component ContainerFacts.open_world l
           (snd (set ContainerFacts.open_world l (KStr "db") (VNum 3)))
           (KStr "db") (VNum 3) InvalidConfigException).
  - reflexivity.
  - discriminate.
Defined.

(** An instance handed to [set] under an ID that is a symbol or a string
    other than the names every object inherits replaces whatever the ID
    held: the next [get] answers that instance, whatever was cached before;
    from then on [has(id)] is false (the definition has moved to
    [_components]) and [has(id, true)] is true. *)
Theorem instance_definition_round_trip (w : world) (depth : nat) (l : t)
    (container : Container.t) (id : key) (o : nat) (ns : string)
    (throwException : bool) :
  inherited_key id = false ->
  let l1 := snd (set w l id (VComponent o ns)) in
  let '(r, l2, c2) := get w depth l1 container id throwException in
  r = Ok (VComponent o ns) /\ c2 = container
  /\ has l2 id false = false /\ has l2 id true = true.
Proof.
  intros Hown.
  unfold set, get. simpl. rewrite lookup_delete_eq, lookup_insert_eq. simpl.
  unfold has. rewrite Hown. simpl. repeat split.
  - rewrite orb_false_r. apply bool_decide_eq_false_2. rewrite lookup_delete_eq.
    intros [x Hx]. discriminate.
  - rewrite orb_false_r. apply bool_decide_eq_true_2. rewrite lookup_insert_eq.
    eauto.
Qed.

Lemma instance_definition_witness :
  let l := mk {[KStr "db" := VComponent 7 "app/Db"]}
              {[KStr "db" := VObject [("namespace", VStr "app/Db")]]} in
  let l1 := snd (set ContainerFacts.open_world l (KStr "db")
                   (VComponent 9 "app/Replica")) in
  let '(r, l2, c2) :=
    get ContainerFacts.open_world 2 l1 Container.empty (KStr "db") true in
  r = Ok (VComponent 9 "app/Replica") /\ c2 = Container.empty
  /\ has l2 (KStr "db") false = false /\ has l2 (KStr "db") true = true.
Proof.
  intros l.
  apply (instance_definition_round_trip ContainerFacts.open_world 2 l
           Container.empty (KStr "db") 9 "app/Replica" true).
  reflexivity.
Defined.







(** [clear] makes a string ID unknown, whatever it held, unless the name
    is one that every object inherits: both forms of [has] are false, and
    [get] throws InvalidConfig or answers [null] as [throwException] says,
    without touching the locator. *)
Lemma clear_makes_unknown (w : world) (depth : nat) (l : t)
    (container : Container.t) (name : string) :
  let id := KStr name in
  inherited name = false ->
  has (clear l id) id false = false
  /\ has (clear l id) id true = false
  /\ get w depth (clear l id) container id true
     = (Throw InvalidConfigException, clear l id, container)
  /\ get w depth (clear l id) container id false
     = (Ok VNull, clear l id, container).
Proof.
  intros id Hown.
  assert (Hno : forall (m : gmap key value),
             bool_decide (is_Some (delete id m !! id)) = false).
  { intros m. apply bool_decide_eq_false_2. rewrite lookup_delete_eq.
    intros [x Hx]. discriminate. }
  split; [unfold has; simpl; rewrite Hown, orb_false_r; apply Hno|].
  split; [unfold has; simpl; rewrite Hown, orb_false_r; apply Hno|].
  unfold get, clear. simpl. rewrite !lookup_delete_eq. split; reflexivity.
Qed.

(** A configuration object that names its class. *)
Definition names_class (definition : value) : Prop :=
  exists fields, definition = VObject fields
                 /\ is_Some (lookup_field "namespace" fields).

Lemma set_names_class (w : world) (l : t) (id : key) (definition : value) :
  names_class definition ->
  set w l id definition
  = (Ok tt, mk (delete id (_components l)) (<[id := definition]> (_definitions l))).
Proof.
  intros (fields & -> & Hns). unfold set. simpl.
  rewrite bool_decide_eq_true_2; [reflexivity | exact Hns].
Qed.

Lemma setComponents_keeps (w : world) (components : list (string * value)) :
  Forall (fun entry => names_class (snd entry)) components ->
  forall l,
    fst (setComponents w l components) = Ok tt
    /\ (forall k, is_Some (_definitions l !! k) ->
                  is_Some (_definitions (snd (setComponents w l components)) !! k))
    /\ (forall k, _components l !! k = None ->
                  _components (snd (setComponents w l components)) !! k = None).
Proof.
  induction 1 as [|[id d] rest Hd _ IH]; intros l; [repeat split; auto|].
  simpl in Hd. simpl. rewrite (set_names_class w l (KStr id) d Hd).
  destruct (IH (mk (delete (KStr id) (_components l))
                   (<[KStr id := d]> (_definitions l)))) as (Hok & Hdef & Hcomp).
  split; [exact Hok|]. split.
  - intros k Hk. apply Hdef. simpl.
    destruct (decide (KStr id = k)) as [->|Hne].
    + rewrite lookup_insert_eq. eauto.
    + rewrite lookup_insert_ne; assumption.
  - intros k Hk. apply Hcomp. simpl.
    destruct (decide (KStr id = k)) as [->|Hne].
    + apply lookup_delete_eq.
    + rewrite lookup_delete_ne; assumption.
Qed.

(** [setComponents] with configuration objects that all name their class
    succeeds; afterwards every listed ID has a definition, and a listed ID
    other than the names every object inherits has no cached instance,
    whatever the locator held for it before. *)
Theorem setComponents_registers_every_entry (w : world) (l : t)
    (components : list (string * value)) :
  Forall (fun entry => names_class (snd entry)) components ->
  Forall (fun entry => inherited (fst entry) = false) components ->
  fst (setComponents w l components) = Ok tt
  /\ forall id d, In (id, d) components ->
       has (snd (setComponents w l components)) (KStr id) false = true
       /\ has (snd (setComponents w l components)) (KStr id) true = false.
Proof.
  intros Hall Hown. split; [apply (setComponents_keeps w components Hall l)|].
  revert l Hown.
  induction Hall as [|[id0 d0] rest Hd Hrest IH]; intros l Hown id d Hin;
    [destruct Hin|].
  apply List.Forall_cons_iff in Hown. destruct Hown as [Hown0 Hown].
  simpl in Hd, Hown0. simpl. rewrite (set_names_class w l (KStr id0) d0 Hd).
  destruct Hin as [[= -> ->]|Hin]; [|eapply IH; [exact Hown | exact Hin]].
  destruct (setComponents_keeps w rest Hrest
              (mk (delete (KStr id) (_components l))
                  (<[KStr id := d]> (_definitions l)))) as (_ & Hdef & Hcomp).
  unfold has. simpl inherited_key. rewrite Hown0, !orb_false_r. split.
  - apply bool_decide_eq_true_2. apply Hdef. simpl.
    rewrite lookup_insert_eq. eauto.
  - apply bool_decide_eq_false_2. rewrite Hcomp.
    + intros [x Hx]. discriminate.
    + simpl. apply lookup_delete_eq.
Qed.

Lemma setComponents_witness :
  let components :=
    [("db", VObject [("namespace", VStr "framework/db/Connection");
                     ("dsn", VStr "sqlite:path/to/file.db")]);
     ("cache", VObject [("namespace", VStr "framework/caching/DbCache");
                        ("db", VStr "db")])] in
  fst (setComponents ContainerFacts.open_world empty components) = Ok tt
  /\ forall id d, In (id, d) components ->
       has (snd (setComponents ContainerFacts.open_world empty components))
           (KStr id) false = true
       /\ has (snd (setComponents ContainerFacts.open_world empty components))
             (KStr id) true = false.
Proof.
  intros components.
  apply (setComponents_registers_every_entry ContainerFacts.open_world empty
           components).
  - repeat constructor; simpl; eexists; (split; [reflexivity | simpl; eauto]).
  - repeat constructor.
Defined.

End ServiceLocatorMoreFacts.

(** ** Component: detaching handlers, order of handlers, behaviors *)

Module ComponentMoreFacts.
Import Component ComponentFacts.

(** The handlers of an event name, [[]] for a name without entry. *)
Definition handlers_of (c : component) (E : string) : list (handler * value) :=
  default [] (_events c !! E).



Lemma remove_first_found (h h' : handler) (d : value)
    (before after : list (handler * value)) :
  Forall (fun e => same_handler (fst e) h = false) before ->
  same_handler h' h = true ->
  remove_first h (before ++ (h', d) :: after) = Some (before ++ after)%list.
Proof.
  intros Hbefore Hsame. induction Hbefore as [|[h0 d0] before H0 _ IH]; simpl.
  - rewrite Hsame. reflexivity.
  - simpl in H0. rewrite H0, IH. reflexivity.
Qed.

Lemma remove_first_absent (h : handler) (l : list (handler * value)) :
  Forall (fun e => same_handler (fst e) h = false) l ->
  remove_first h l = None.
Proof.
  induction 1 as [|[h0 d0] l H0 _ IH]; simpl; [reflexivity|].
  simpl in H0. rewrite H0, IH. reflexivity.
Qed.

Lemma off_found (c : component) (E : string) (h h' : handler) (d : value)
    (before after : list (handler * value)) :
  _events c !! E = Some (before ++ (h', d) :: after)%list ->
  Forall (fun e => same_handler (fst e) h = false) before ->
  same_handler h' h = true ->
  off c E (Some h)
  = (true, mkComponent (<[E := (before ++ after)%list]> (_events c))
                       (_behaviors (ensureBehaviors c))).
Proof.
  intros Hev Hbefore Hsame. unfold off.
  rewrite events_ensure, (Op_has_Some _ _ _ Hev), Hev. simpl.
  rewrite (remove_first_found h h' d before after Hbefore Hsame).
  reflexivity.
Qed.

Lemma off_absent (c : component) (E : string) (h : handler) :
  Forall (fun e => same_handler (fst e) h = false) (handlers_of c E) ->
  off c E (Some h) = (false, ensureBehaviors c).
Proof.
  intros Habsent. unfold off, handlers_of in *. rewrite events_ensure.
  destruct (Op_has (_events c) E); [|reflexivity]. simpl.
  rewrite (remove_first_absent h _ Habsent). reflexivity.
Qed.

(** For an event name of one path segment, [off(name, handler)] removes
    the first entry of the handler and nothing else: the entries before and
    after it keep their order, a second entry of the same handler stays,
    and the answer is true.  When the handler is not attached to the name
    the answer is false and no handler list changes. *)
Theorem off_removes_first_entry_only (c : component) (E : string)
    (h : handler) :
  plain_name E = true ->
  (forall h' d before after,
      _events c !! E = Some (before ++ (h', d) :: after)%list ->
      Forall (fun e => same_handler (fst e) h = false) before ->
      same_handler h' h = true ->
      off c E (Some h)
      = (true, mkComponent (<[E := (before ++ after)%list]> (_events c))
                           (_behaviors (ensureBehaviors c))))
  /\ (Forall (fun e => same_handler (fst e) h = false) (handlers_of c E) ->
      off c E (Some h) = (false, ensureBehaviors c)).
Proof.
  intros _. split.
  - intros h' d before after. apply off_found.
  - apply off_absent.
Qed.


(** Removing each handler by name leaves the event name behind, for a name
    of one path segment: after [on(name, h)] on a fresh name and
    [off(name, h)], [trigger(name)] runs the loop over no handler, and
    [hasEventHandlers(name)] is still true, whatever the class-level
    registry holds. *)
Theorem emptied_event_still_has_handlers (c : component) (E : string)
    (h : handler) (d : value) (ev : option Event)
    (class_events : gmap string (list (handler * value))) :
  plain_name E = true ->
  _events c !! E = None ->
  let c2 := snd (off (on c E h d true) E (Some h)) in
  fst (off (on c E h d true) E (Some h)) = true
  /\ fst (hasEventHandlers c2 class_events E) = true
  /\ option_map invoked (fst (trigger c2 E ev)) = Some [].
Proof.
  intros _ Hfresh.
  assert (Hon : _events (on c E h d true) !! E = Some ([] ++ (h, d) :: [])%list).
  { rewrite on_events, Hfresh. reflexivity. }
  assert (Hself : same_handler h h = true) by apply Nat.eqb_refl.
  rewrite (off_found (on c E h d true) E h h d [] [] Hon (List.Forall_nil _)
             Hself).
  simpl. split; [reflexivity|].
  assert (Hev : forall b, _events (ensureBehaviors
                  (mkComponent (<[E := []]> (_events (on c E h d true))) b))
                !! E = Some []).
  { intros b. rewrite events_ensure. simpl. apply lookup_insert_eq. }
  split.
  - unfold hasEventHandlers. simpl fst.
    rewrite (Op_has_Some _ _ _ (Hev _)). reflexivity.
  - unfold trigger, Op_get. rewrite (Op_has_Some _ _ _ (Hev _)), Hev.
    reflexivity.
Qed.

Lemma emptied_event_witness :
  let c2 := snd (off (on new_Component "save" (mark 1 FSync) VNull true)
                     "save" (Some (mark 1 FSync))) in
  fst (off (on new_Component "save" (mark 1 FSync) VNull true) "save"
           (Some (mark 1 FSync))) = true
  /\ fst (hasEventHandlers c2 ∅ "save") = true
  /\ option_map invoked (fst (trigger c2 "save" None)) = Some [].
Proof.
  apply (emptied_event_still_has_handlers new_Component "save" (mark 1 FSync)
           VNull None ∅); reflexivity.
Defined.

(** A handler attached with [append = false] to an event name of one path
    segment runs before every handler attached earlier: with plain
    functions that leave [handled] false the order of invocation is the new
    handler, then the earlier ones. *)
Theorem prepended_handler_runs_first (c : component) (E : string)
    (h : handler) (d : value) (ev : option Event) :
  plain_name E = true ->
  passes h ->
  Forall (fun hd => passes (fst hd)) (handlers_of c E) ->
  exists r,
    fst (trigger (on c E h d false) E ev) = Some r
    /\ outcome r = Completed
    /\ invoked r = h_fid h :: map (fun hd => h_fid (fst hd)) (handlers_of c E).
Proof.
  intros _ Hh Hall.
  assert (Hev : _events (on c E h d false) !! E
                = Some ((h, d) :: handlers_of c E)).
  { unfold on, handlers_of. simpl. rewrite events_ensure, lookup_insert_eq.
    destruct (_events c !! E) as [hs|] eqn:H.
    - rewrite (Op_has_Some _ _ _ H). reflexivity.
    - rewrite (Op_has_None _ _ H). reflexivity. }
  eexists. split; [apply trigger_dispatches, Hev|].
  apply (dispatch_passes ((h, d) :: handlers_of c E)).
  constructor; assumption.
Qed.

(** A plain function that leaves the event as it finds it, [handled]
    false. *)
Definition quiet (fid : nat) : handler :=
  mkHandler fid FSync
            (fun e => Ok (mkEvent (name e) (sender e) false (data e))) false.

Lemma quiet_passes (fid : nat) : passes (quiet fid).
Proof. split; [reflexivity|]. intros e. eexists. split; reflexivity. Qed.

Lemma off_first_entry_witness :
  off (on (on (on new_Component "save" (quiet 1) VNull true)
              "save" (quiet 2) VNull true)
          "save" (quiet 2) VNull true) "save" (Some (quiet 2))
  = (true,
     mkComponent
       (<["save" := ([(quiet 1, VNull)] ++ [(quiet 2, VNull)])%list]>
          (_events (on (on (on new_Component "save" (quiet 1) VNull true)
                           "save" (quiet 2) VNull true)
                       "save" (quiet 2) VNull true)))
       (_behaviors (ensureBehaviors
                      (on (on (on new_Component "save" (quiet 1) VNull true)
                              "save" (quiet 2) VNull true)
                          "save" (quiet 2) VNull true))))
  /\ off new_Component "save" (Some (quiet 2))
     = (false, ensureBehaviors new_Component).
Proof.
  split.
  - apply (proj1 (off_removes_first_entry_only _ "save" (quiet 2) eq_refl)
             (quiet 2) VNull [(quiet 1, VNull)] [(quiet 2, VNull)]).
    + reflexivity.
    + repeat constructor.
    + reflexivity.
  - apply (proj2 (off_removes_first_entry_only new_Component "save" (quiet 2)
                    eq_refl)).
    constructor.
Defined.


Lemma prepended_handler_witness :
  exists r,
    fst (trigger (on (on new_Component "save" (quiet 1) VNull true)
                     "save" (quiet 2) VNull false) "save" None) = Some r
    /\ outcome r = Completed
    /\ invoked r
       = h_fid (quiet 2)
         :: map (fun hd => h_fid (fst hd))
                (handlers_of (on new_Component "save" (quiet 1) VNull true)
                             "save").
Proof.
  apply (prepended_handler_runs_first
           (on new_Component "save" (quiet 1) VNull true) "save"
           (quiet 2) VNull None).
  - reflexivity.
  - apply quiet_passes.
  - repeat constructor; simpl; eexists; split; reflexivity.
Defined.






(** The handler that [events()] declares for a name. *)
Fixpoint declared (E : string) (evs : list (string * handler))
  : option handler :=
  match evs with
  | [] => None
  | (k, h) :: rest => if String.eqb k E then Some h else declared E rest
  end.

Lemma declared_absent (E : string) (evs : list (string * handler)) :
  ~ In E (map fst evs) -> declared E evs = None.
Proof.
  induction evs as [|[k h] evs IH]; simpl; [reflexivity|].
  intros Hnot. destruct (String.eqb_spec k E) as [->|Hne].
  - exfalso. apply Hnot. left. reflexivity.
  - apply IH. intros Hin. apply Hnot. right. exact Hin.
Qed.

Lemma handlers_of_on (c : component) (E E' : string) (h : handler) (d : value) :
  handlers_of (on c E h d true) E'
  = if String.eqb E E' then (handlers_of c E ++ [(h, d)])%list
    else handlers_of c E'.
Proof.
  unfold handlers_of. destruct (String.eqb_spec E E') as [<-|Hne].
  - rewrite on_events. reflexivity.
  - unfold on. simpl. rewrite events_ensure, lookup_insert_ne by exact Hne.
    reflexivity.
Qed.

Lemma handlers_of_off (c : component) (E E' : string) (h : handler) :
  handlers_of (snd (off c E (Some h))) E'
  = if String.eqb E E'
    then default (handlers_of c E) (remove_first h (handlers_of c E))
    else handlers_of c E'.
Proof.
  unfold handlers_of, off. rewrite events_ensure.
  destruct (_events c !! E) as [hs|] eqn:Hev.
  - rewrite (Op_has_Some _ _ _ Hev). simpl.
    destruct (remove_first h hs) as [hs'|]; simpl.
    + destruct (String.eqb_spec E E') as [<-|Hne].
      * rewrite lookup_insert_eq. reflexivity.
      * rewrite lookup_insert_ne by exact Hne. reflexivity.
    + rewrite events_ensure.
      destruct (String.eqb_spec E E') as [<-|Hne]; [rewrite Hev|]; reflexivity.
  - rewrite (Op_has_None _ _ Hev). simpl. rewrite events_ensure.
    destruct (String.eqb_spec E E') as [<-|Hne]; [rewrite Hev|]; reflexivity.
Qed.

Lemma fold_on_handlers (evs : list (string * handler)) :
  List.NoDup (map fst evs) ->
  forall (c : component) (E : string),
    handlers_of
      (fold_left (fun c eh => on c (fst eh) (snd eh) VNull true) evs c) E
    = match declared E evs with
      | Some h => (handlers_of c E ++ [(h, VNull)])%list
      | None => handlers_of c E
      end.
Proof.
  induction evs as [|[k h] evs IH]; intros Hnd c E; [reflexivity|].
  simpl in Hnd. apply List.NoDup_cons_iff in Hnd. destruct Hnd as [Hnot Hnd].
  simpl. rewrite (IH Hnd), !handlers_of_on.
  destruct (String.eqb_spec k E) as [->|Hne]; [|reflexivity].
  rewrite (declared_absent E evs Hnot). reflexivity.
Qed.

Lemma fold_off_handlers (evs : list (string * handler)) :
  List.NoDup (map fst evs) ->
  forall (c : component) (E : string),
    handlers_of
      (fold_left (fun c eh => snd (off c (fst eh) (Some (snd eh)))) evs c) E
    = match declared E evs with
      | Some h => default (handlers_of c E) (remove_first h (handlers_of c E))
      | None => handlers_of c E
      end.
Proof.
  induction evs as [|[k h] evs IH]; intros Hnd c E; [reflexivity|].
  simpl in Hnd. apply List.NoDup_cons_iff in Hnd. destruct Hnd as [Hnot Hnd].
  simpl. rewrite (IH Hnd), !handlers_of_off.
  destruct (String.eqb_spec k E) as [->|Hne]; [|reflexivity].
  rewrite (declared_absent E evs Hnot). reflexivity.
Qed.

Lemma fold_on_behaviors_of (evs : list (string * handler)) (c : component) :
  behaviors_of (fold_left (fun c eh => on c (fst eh) (snd eh) VNull true) evs c)
  = behaviors_of c.
Proof.
  revert c. induction evs as [|eh evs IH]; intros c; [reflexivity|].
  simpl. rewrite IH. unfold on. unfold behaviors_of at 1. simpl.
  apply behaviors_of_ensure.
Qed.

Lemma set_attached_fresh (E : string) (h : handler)
    (attached : list (string * handler)) :
  ~ In E (map fst attached) ->
  set_attached E h attached = (attached ++ [(E, h)])%list.
Proof.
  induction attached as [|[k x] attached IH]; simpl; [reflexivity|].
  intros Hnot. destruct (String.eqb_spec k E) as [->|Hne].
  - exfalso. apply Hnot. left. reflexivity.
  - rewrite IH; [reflexivity|]. intros Hin. apply Hnot. right. exact Hin.
Qed.

Lemma fold_set_attached (evs : list (string * handler)) :
  List.NoDup (map fst evs) ->
  forall attached,
    (forall E, In E (map fst evs) -> ~ In E (map fst attached)) ->
    fold_left (fun acc eh => set_attached (fst eh) (snd eh) acc) evs attached
    = (attached ++ evs)%list.
Proof.
  induction evs as [|[k h] evs IH]; intros Hnd attached Hdisj.
  - simpl. rewrite app_nil_r. reflexivity.
  - simpl in Hnd. apply List.NoDup_cons_iff in Hnd. destruct Hnd as [Hnot Hnd].
    simpl. rewrite set_attached_fresh by (apply Hdisj; left; reflexivity).
    rewrite (IH Hnd).
    + rewrite <- app_assoc. reflexivity.
    + intros E HE. rewrite map_app, in_app_iff. simpl.
      intros [Hin|[<-|[]]]; [|contradiction].
      apply (Hdisj E); [right; exact HE | exact Hin].
Qed.

Lemma handlers_of_events (c : component) (registry : option (gmap string nat))
    (E : string) :
  handlers_of (mkComponent (_events c) registry) E = handlers_of c E.
Proof. reflexivity. Qed.

Lemma handlers_of_ensure (c : component) (E : string) :
  handlers_of (ensureBehaviors c) E = handlers_of c E.
Proof. unfold handlers_of. rewrite events_ensure. reflexivity. Qed.

Lemma getBehavior_registry (s : store) (this : nat) (name : string) :
  fst (getBehavior s this name) = behaviors_of (components s this) !! name.
Proof.
  unfold getBehavior, Op_get. simpl. rewrite Nat.eqb_refl.
  rewrite behaviors_of_ensure. reflexivity.
Qed.

(** What [attachBehavior] under a free name leaves behind: the component
    and the behavior. *)
Lemma attach_fresh (s : store) (this : nat) (name : string) (b : nat) :
  behaviors_of (components s this) !! name = None ->
  let attached :=
    fold_left (fun c eh => on c (fst eh) (snd eh) VNull true)
              (events (behaviors s b)) (ensureBehaviors (components s this)) in
  components (snd (attachBehavior s this name b)) this
  = mkComponent (_events attached)
                (Some (<[name := b]> (behaviors_of (components s this))))
  /\ behaviors (snd (attachBehavior s this name b)) b
     = mkBehavior (Some this)
         (fold_left (fun acc eh => set_attached (fst eh) (snd eh) acc)
                    (events (behaviors s b)) (_attachedEvents (behaviors s b)))
         (events (behaviors s b)).
Proof.
  intros Hfresh attached. unfold attachBehavior, attachBehaviorInternal.
  rewrite component_put_same, behaviors_of_ensure, (Op_has_None _ _ Hfresh).
  simpl. rewrite !Nat.eqb_refl. simpl.
  rewrite fold_on_behaviors_of, behaviors_of_ensure. split; reflexivity.
Qed.

(** The names in play are plain: the name of the behavior and the events
    that its [events()] declares. *)
Definition plain_names (name : string) (evs : list (string * handler)) : Prop :=
  plain_name name = true /\ Forall (fun eh => plain_name (fst eh) = true) evs.

(** Under a free name [attachBehavior] registers the behavior, sets its
    owner, and appends each handler that [events()] declares behind the
    handlers the component already has for that event; the other events
    keep their handlers.  The name of the behavior and the declared events
    are names of one path segment. *)
Theorem attachBehavior_appends_declared_handlers (s : store) (this : nat)
    (name : string) (b : nat) :
  plain_names name (events (behaviors s b)) ->
  behaviors_of (components s this) !! name = None ->
  List.NoDup (map fst (events (behaviors s b))) ->
  fst (getBehavior (snd (attachBehavior s this name b)) this name) = Some b
  /\ owner (behaviors (snd (attachBehavior s this name b)) b) = Some this
  /\ forall E,
       handlers_of (components (snd (attachBehavior s this name b)) this) E
       = match declared E (events (behaviors s b)) with
         | Some h => (handlers_of (components s this) E ++ [(h, VNull)])%list
         | None => handlers_of (components s this) E
         end.
Proof.
  intros _ Hfresh Hnd.
  destruct (attach_fresh s this name b Hfresh) as [Hc Hb].
  split; [|split].
  - rewrite getBehavior_registry, Hc. unfold behaviors_of. simpl.
    apply lookup_insert_eq.
  - rewrite Hb. reflexivity.
  - intros E. rewrite Hc, handlers_of_events, (fold_on_handlers _ Hnd).
    rewrite handlers_of_ensure. reflexivity.
Qed.

(** A component [0] without handlers or behaviors and a behavior [1] that
    declares a handler for ["save"]. *)
Definition audit_store : store :=
  mkStore (fun _ => new_Component)
          (fun _ => mkBehavior None [] [("save", quiet 7)]).

Lemma attachBehavior_witness :
  fst (getBehavior (snd (attachBehavior audit_store 0 "audit" 1)) 0 "audit")
  = Some 1
  /\ owner (behaviors (snd (attachBehavior audit_store 0 "audit" 1)) 1) = Some 0
  /\ forall E,
       handlers_of (components (snd (attachBehavior audit_store 0 "audit" 1)) 0) E
       = match declared E (events (behaviors audit_store 1)) with
         | Some h => (handlers_of (components audit_store 0) E ++ [(h, VNull)])%list
         | None => handlers_of (components audit_store 0) E
         end.
Proof.
  apply (attachBehavior_appends_declared_handlers audit_store 0 "audit" 1).
  - split; [reflexivity | repeat constructor].
  - reflexivity.
  - repeat constructor. simpl. intros H. exact H.
Defined.

(** What [detachBehavior] leaves behind for a registered behavior that the
    component owns. *)
Lemma detach_registered (s : store) (this : nat) (name : string) (b : nat) :
  ensureBehaviors (components s this) = components s this ->
  behaviors_of (components s this) !! name = Some b ->
  owner (behaviors s b) = Some this ->
  fst (detachBehavior s this name) = Some b
  /\ components (snd (detachBehavior s this name)) this
     = fold_left (fun c eh => snd (off c (fst eh) (Some (snd eh))))
         (_attachedEvents (behaviors s b))
         (mkComponent (_events (components s this))
                      (Some (delete name (behaviors_of (components s this)))))
  /\ behaviors (snd (detachBehavior s this name)) b
     = mkBehavior None [] (events (behaviors s b)).
Proof.
  intros Hens Hreg Hown. unfold detachBehavior.
  rewrite component_put_same, Hens, (Op_has_Some _ _ _ Hreg), Hreg.
  unfold Behavior_detach. simpl behaviors. rewrite Hown.
  simpl. rewrite !Nat.eqb_refl. repeat split.
Qed.

Lemma lookup_on (c : component) (E E' : string) (h : handler) (d : value) :
  _events (on c E h d true) !! E'
  = if String.eqb E E' then Some (handlers_of c E ++ [(h, d)])%list
    else _events c !! E'.
Proof.
  destruct (String.eqb_spec E E') as [<-|Hne].
  - rewrite on_events. reflexivity.
  - unfold on. simpl. rewrite events_ensure, lookup_insert_ne by exact Hne.
    reflexivity.
Qed.

Lemma lookup_off (c : component) (E E' : string) (h : handler) :
  _events (snd (off c E (Some h))) !! E'
  = if String.eqb E E'
    then option_map (fun hs => default hs (remove_first h hs)) (_events c !! E)
    else _events c !! E'.
Proof.
  unfold off. rewrite events_ensure.
  destruct (_events c !! E) as [hs|] eqn:Hev.
  - rewrite (Op_has_Some _ _ _ Hev). simpl.
    destruct (remove_first h hs) as [hs'|]; simpl.
    + destruct (String.eqb_spec E E') as [<-|Hne].
      * rewrite lookup_insert_eq. reflexivity.
      * rewrite lookup_insert_ne by exact Hne. reflexivity.
    + rewrite events_ensure.
      destruct (String.eqb_spec E E') as [<-|Hne]; [rewrite Hev|]; reflexivity.
  - rewrite (Op_has_None _ _ Hev). simpl. rewrite events_ensure.
    destruct (String.eqb_spec E E') as [<-|Hne]; [rewrite Hev|]; reflexivity.
Qed.

Lemma fold_on_lookup (evs : list (string * handler)) :
  List.NoDup (map fst evs) ->
  forall (c : component) (E : string),
    _events (fold_left (fun c eh => on c (fst eh) (snd eh) VNull true) evs c)
      !! E
    = match declared E evs with
      | Some h => Some (handlers_of c E ++ [(h, VNull)])%list
      | None => _events c !! E
      end.
Proof.
  induction evs as [|[k h] evs IH]; intros Hnd c E; [reflexivity|].
  simpl in Hnd. apply List.NoDup_cons_iff in Hnd. destruct Hnd as [Hnot Hnd].
  simpl. rewrite (IH Hnd), handlers_of_on, lookup_on.
  destruct (String.eqb_spec k E) as [->|Hne]; [|reflexivity].
  rewrite (declared_absent E evs Hnot). reflexivity.
Qed.

Lemma fold_off_lookup (evs : list (string * handler)) :
  List.NoDup (map fst evs) ->
  forall (c : component) (E : string),
    _events (fold_left (fun c eh => snd (off c (fst eh) (Some (snd eh)))) evs c)
      !! E
    = match declared E evs with
      | Some h =>
          option_map (fun hs => default hs (remove_first h hs)) (_events c !! E)
      | None => _events c !! E
      end.
Proof.
  induction evs as [|[k h] evs IH]; intros Hnd c E; [reflexivity|].
  simpl in Hnd. apply List.NoDup_cons_iff in Hnd. destruct Hnd as [Hnot Hnd].
  simpl. rewrite (IH Hnd), lookup_off.
  destruct (String.eqb_spec k E) as [->|Hne]; [|reflexivity].
  rewrite (declared_absent E evs Hnot). reflexivity.
Qed.

(** [detachBehavior] after [attachBehavior], for a behavior that was never
    attached, attached under a free name and then detached by that name
    (the name and the declared events being names of one path segment, and
    the component not already holding a declared handler for its event):
    the name is free again, the behavior has no owner, and every event of
    the component has the handlers it had before.  The detachment does not
    undo the entries of [_events]: every declared event keeps its entry,
    an empty list where the component had none before, so that
    [hasEventHandlers] answers true for it afterwards. *)
Theorem attach_detach_round_trip (s : store) (this : nat) (name : string)
    (b : nat) :
  plain_names name (events (behaviors s b)) ->
  behaviors_of (components s this) !! name = None ->
  List.NoDup (map fst (events (behaviors s b))) ->
  _attachedEvents (behaviors s b) = [] ->
  (forall E h, declared E (events (behaviors s b)) = Some h ->
     Forall (fun e => same_handler (fst e) h = false)
            (handlers_of (components s this) E)) ->
  let s1 := snd (attachBehavior s this name b) in
  let after := components (snd (detachBehavior s1 this name)) this in
  fst (detachBehavior s1 this name) = Some b
  /\ fst (getBehavior (snd (detachBehavior s1 this name)) this name) = None
  /\ owner (behaviors (snd (detachBehavior s1 this name)) b) = None
  /\ (forall E, handlers_of after E = handlers_of (components s this) E)
  /\ (forall E,
        _events after !! E
        = match declared E (events (behaviors s b)) with
          | Some _ => Some (handlers_of (components s this) E)
          | None => _events (components s this) !! E
          end)
  /\ (forall E h class_events,
        declared E (events (behaviors s b)) = Some h ->
        fst (hasEventHandlers after class_events E) = true).
Proof.
  intros _ Hfresh Hnd Hnever Hnew s1 after.
  destruct (attach_fresh s this name b Hfresh) as [Hc Hb]. fold s1 in Hc, Hb.
  rewrite Hnever in Hb.
  rewrite (fold_set_attached _ Hnd []) in Hb by (intros E _ []).
  simpl in Hb.
  assert (Hens : ensureBehaviors (components s1 this) = components s1 this).
  { rewrite Hc. reflexivity. }
  assert (Hreg : behaviors_of (components s1 this) !! name = Some b).
  { rewrite Hc. unfold behaviors_of. simpl. apply lookup_insert_eq. }
  assert (Hown : owner (behaviors s1 b) = Some this) by (rewrite Hb; reflexivity).
  destruct (detach_registered s1 this name b Hens Hreg Hown)
    as (Hret & Hc2 & Hb2).
  assert (Hevents : forall E,
             _events after !! E
             = match declared E (events (behaviors s b)) with
               | Some _ => Some (handlers_of (components s this) E)
               | None => _events (components s this) !! E
               end).
  { intros E. unfold after. rewrite Hc2, Hb. simpl _attachedEvents.
    rewrite (fold_off_lookup _ Hnd). simpl _events.
    rewrite Hc. simpl _events.
    rewrite (fold_on_lookup _ Hnd), handlers_of_ensure, events_ensure.
    destruct (declared E (events (behaviors s b))) as [h|] eqn:Hdecl;
      [|reflexivity].
    simpl.
    rewrite (remove_first_found h h VNull _ [] (Hnew E h Hdecl)
               (Nat.eqb_refl _)).
    simpl. rewrite app_nil_r. reflexivity. }
  split; [exact Hret|]. split; [|split; [|split; [|split]]].
  - rewrite getBehavior_registry, Hc2, fold_off_behaviors_of.
    unfold behaviors_of. simpl. apply lookup_delete_eq.
  - rewrite Hb2. reflexivity.
  - intros E. unfold handlers_of at 1. rewrite Hevents.
    destruct (declared E (events (behaviors s b))); reflexivity.
  - exact Hevents.
  - intros E h class_events Hdecl. unfold hasEventHandlers. simpl fst.
    rewrite events_ensure.
    rewrite (Op_has_Some _ E (handlers_of (components s this) E));
      [reflexivity|].
    rewrite Hevents, Hdecl. reflexivity.
Qed.

Lemma attach_detach_witness :
  let s1 := snd (attachBehavior audit_store 0 "audit" 1) in
  let after := components (snd (detachBehavior s1 0 "audit")) 0 in
  fst (detachBehavior s1 0 "audit") = Some 1
  /\ fst (getBehavior (snd (detachBehavior s1 0 "audit")) 0 "audit") = None
  /\ owner (behaviors (snd (detachBehavior s1 0 "audit")) 1) = None
  /\ (forall E, handlers_of after E = handlers_of (components audit_store 0) E)
  /\ (forall E,
        _events after !! E
        = match declared E (events (behaviors audit_store 1)) with
          | Some _ => Some (handlers_of (components audit_store 0) E)
          | None => _events (components audit_store 0) !! E
          end)
  /\ (forall E h class_events,
        declared E (events (behaviors audit_store 1)) = Some h ->
        fst (hasEventHandlers after class_events E) = true).
Proof.
  apply (attach_detach_round_trip audit_store 0 "audit" 1).
  - split; [reflexivity | repeat constructor].
  - reflexivity.
  - repeat constructor. simpl. intros H. exact H.
  - reflexivity.
  - intros E h _. constructor.
Defined.

(** The entry that stays behind in the store above: before the behavior
    was attached the component had no entry for ["save"]; after the round
    trip it has an empty one. *)
Example detached_behavior_leaves_entry :
  let s1 := snd (attachBehavior audit_store 0 "audit" 1) in
  let after := components (snd (detachBehavior s1 0 "audit")) 0 in
  _events (components audit_store 0) !! "save" = None
  /\ _events after !! "save" = Some []
  /\ fst (hasEventHandlers (components audit_store 0) ∅ "save") = false
  /\ fst (hasEventHandlers after ∅ "save") = true.
Proof. vm_compute. repeat split. Qed.

End ComponentMoreFacts.

(** ** Module: routes and child modules *)

Module BaseModuleMoreFacts.
Import StringHelper NamespaceHelper BaseModule.

Lemma chars_text (l : list ascii) : chars (text l) = l.
Proof. apply list_ascii_of_string_of_list_ascii. Qed.

Lemma split_chars_pieces (sep : ascii) (l cur : list ascii) :
  ~ In sep cur ->
  Forall (fun piece => ~ In sep piece) (split_chars sep l cur).
Proof.
  revert cur. induction l as [|c l IH]; intros cur Hcur; simpl.
  - constructor; [|constructor]. rewrite <- in_rev. exact Hcur.
  - destruct (Ascii.eqb_spec c sep) as [->|Hne].
    + constructor; [rewrite <- in_rev; exact Hcur|]. apply IH. intros [].
    + apply IH. intros [Heq|Hin]; [congruence | exact (Hcur Hin)].
Qed.

Lemma last_index_from_absent (c : ascii) (l : list ascii) (pos : nat) :
  ~ In c l -> last_index_from [c] l pos None = None.
Proof.
  revert pos. induction l as [|x l IH]; intros pos Hnot; simpl.
  - reflexivity.
  - rewrite bool_decide_eq_false_2.
    + apply IH. intros Hin. apply Hnot. right. exact Hin.
    + intros Heq. injection Heq as ->. apply Hnot. left. reflexivity.
Qed.

(** The second piece of a route holds no slash. *)
Lemma split_route_second_piece (route : string) :
  strrpos (snd (split_route route)) "/" = None.
Proof.
  unfold split_route, strrpos.
  destruct (strpos route "/"); [|reflexivity]. simpl snd.
  unfold split_limit, split.
  pose proof (split_chars_pieces "/" (chars route) [] (fun H => H)) as Hall.
  destruct (split_chars "/" (chars route) []) as [|p0 [|p1 rest]];
    try reflexivity.
  simpl. rewrite chars_text. apply last_index_from_absent.
  inversion Hall as [|? ? _ Hrest]; subst.
  inversion Hrest as [|? ? Hp1 _]; subst. exact Hp1.
Qed.

(** The route [createController] works on: the default route for a blank
    one, without the slashes at either end. *)
Definition normalized (this : module) (route : string) : string :=
  trim (if String.eqb (js_trim route) "" then defaultRoute this else route) "/".

(** For a first segment that is neither in [controllerMap] nor a child
    module, and none of the names that [controllerMap] and [_modules]
    inherit as every object does, [createController] asks
    [createControllerByID] for the first segment and then for the first two
    segments, and for nothing else: the second piece of the split holds no
    slash, so the controller ID never takes in a third segment, and the
    module is left as it was. *)
Theorem createController_asks_two_segments (w : world)
    (createObject : value -> list value -> result value)
    (as_module : value -> option module) (depth : nat) (this : module)
    (route : string) :
  let first := fst (split_route (normalized this route)) in
  let second := snd (split_route (normalized this route)) in
  inherited first = false ->
  controllerMap this !! first = None ->
  lookup_child first (_modules this) = None ->
  createController w createObject as_module (S depth) this route
  = (match createControllerByID w createObject this first with
     | Throw e => Throw e
     | Ok (Some controller) => Ok (Some (controller, second))
     | Ok None =>
         if negb (String.eqb (js_trim second) "") then
           match createControllerByID w createObject this
                   (first +:+ "/" +:+ second) with
           | Throw e => Throw e
           | Ok (Some controller) => Ok (Some (controller, ""))
           | Ok None => Ok None
           end
         else Ok None
     end, this).
Proof.
  intros first second _ Hmap Hchild.
  pose proof (split_route_second_piece (normalized this route)) as Hslash.
  fold second in Hslash.
  change (createController w createObject as_module (S depth) this route)
    with (let '(id, route) := split_route (normalized this route) in
          match controllerMap this !! id with
          | Some config =>
              let left :=
                with_controllerMap this
                  (<[id := App.consumed config]> (controllerMap this)) in
              match createObject config [VStr id; as_value this] with
              | Throw e => (Throw e, left)
              | Ok controller => (Ok (Some (controller, route)), left)
              end
          | None =>
              match getModule createObject as_module this id with
              | (Throw e, this') => (Throw e, this')
              | (Ok (Some m), this') =>
                  let '(r, m') :=
                    createController w createObject as_module depth m route in
                  (r, with_modules this'
                        (store_child id (Instance m') (_modules this')))
              | (Ok None, this') =>
                  let '(id, route) :=
                    match strrpos route "/" with
                    | Some pos =>
                        (id +:+ "/" +:+ substring 0 pos route,
                         substring_from (pos + 1) route)
                    | None => (id, route)
                    end in
                  match createControllerByID w createObject this' id with
                  | Throw e => (Throw e, this')
                  | Ok (Some controller) =>
                      (Ok (Some (controller, route)), this')
                  | Ok None =>
                      if negb (String.eqb (js_trim route) "") then
                        match createControllerByID w createObject this'
                                (id +:+ "/" +:+ route) with
                        | Throw e => (Throw e, this')
                        | Ok (Some controller) =>
                            (Ok (Some (controller, "")), this')
                        | Ok None => (Ok None, this')
                        end
                      else (Ok None, this')
                  end
              end
          end).
  unfold first, second in *.
  destruct (split_route (normalized this route)) as [id rest].
  simpl fst in *. simpl snd in *.
  rewrite Hmap. unfold getModule. rewrite Hchild, Hslash.
  destruct (createControllerByID w createObject this id) as [[c|]|e];
    try reflexivity.
  destruct (negb (String.eqb (js_trim rest) "")); [|reflexivity].
  destruct (createControllerByID w createObject this (id +:+ "/" +:+ rest))
    as [[c|]|e]; reflexivity.
Qed.

Lemma createController_two_segments_witness :
  createController BaseModuleFacts.controllers_world BaseModuleFacts.create
    (fun _ => None) 1 BaseModuleFacts.application "site/index/archive"
  = (match createControllerByID BaseModuleFacts.controllers_world
             BaseModuleFacts.create BaseModuleFacts.application "site" with
     | Throw e => Throw e
     | Ok (Some controller) => Ok (Some (controller, "index"))
     | Ok None =>
         if negb (String.eqb (js_trim "index") "") then
           match createControllerByID BaseModuleFacts.controllers_world
                   BaseModuleFacts.create BaseModuleFacts.application
                   ("site" +:+ "/" +:+ "index") with
           | Throw e => Throw e
           | Ok (Some controller) => Ok (Some (controller, ""))
           | Ok None => Ok None
           end
         else Ok None
     end, BaseModuleFacts.application).
Proof.
  apply (createController_asks_two_segments BaseModuleFacts.controllers_world
           BaseModuleFacts.create (fun _ => None) 0 BaseModuleFacts.application
           "site/index/archive"); reflexivity.
Defined.

(** A blank route is the default route: [createController] of an empty
    route, or of one that holds only white space, is [createController] of
    [defaultRoute]. *)
Theorem blank_route_is_default_route (w : world)
    (createObject : value -> list value -> result value)
    (as_module : value -> option module) (depth : nat) (this : module)
    (route : string) :
  js_trim route = "" ->
  createController w createObject as_module depth this route
  = createController w createObject as_module depth this (defaultRoute this).
Proof.
  intros Hblank. destruct depth as [|depth]; [reflexivity|].
  simpl. rewrite Hblank. simpl.
  destruct (String.eqb (js_trim (defaultRoute this)) ""); reflexivity.
Qed.

Lemma blank_route_witness :
  createController BaseModuleFacts.controllers_world BaseModuleFacts.create
    (fun _ => None) 2 BaseModuleFacts.application "  "
  = createController BaseModuleFacts.controllers_world BaseModuleFacts.create
      (fun _ => None) 2 BaseModuleFacts.application
      (defaultRoute BaseModuleFacts.application).
Proof.
  apply (blank_route_is_default_route BaseModuleFacts.controllers_world
           BaseModuleFacts.create (fun _ => None) 2 BaseModuleFacts.application
           "  ").
  reflexivity.
Defined.

Lemma lookup_store_child (name : string) (c : child)
    (children : list (string * child)) :
  lookup_child name (store_child name c children) = Some c.
Proof.
  induction children as [|[k x] children IH]; simpl.
  - rewrite String.eqb_refl. reflexivity.
  - destruct (String.eqb k name) eqn:E; simpl; rewrite E; [reflexivity|exact IH].
Qed.

(** A child module is created at most once: when [getModule] has answered
    a module, every later [getModule] of the ID answers that module and
    leaves the parent as it is, whatever [App.createObject] would do. *)
Theorem getModule_creates_once
    (createObject createObject' : value -> list value -> result value)
    (as_module as_module' : value -> option module)
    (this this' m : module) (id : string) :
  getModule createObject as_module this id = (Ok (Some m), this') ->
  getModule createObject' as_module' this' id = (Ok (Some m), this').
Proof.
  unfold getModule. intros H.
  destruct (lookup_child id (_modules this)) as [[m0|config]|] eqn:Hchild;
    [| |discriminate].
  - simpl in H. inversion H; subst. rewrite Hchild. reflexivity.
  - simpl in H.
    destruct (createObject config [VStr id; as_value this; VObject []])
      as [made|e]; [|discriminate].
    destruct (as_module made) as [m1|]; [|discriminate].
    inversion H; subst. simpl. rewrite lookup_store_child. reflexivity.
Qed.

Lemma getModule_creates_once_witness :
  let pending :=
    mkModule 1 "app/Application" "app" ∅ (Some "app/controllers") "site"
             [("admin", Config (VObject [("namespace",
                                          VStr "app/modules/admin/Module")]))] in
  let loaded :=
    snd (getModule BaseModuleFacts.create (fun _ => Some BaseModuleFacts.admin)
           pending "admin") in
  getModule (fun _ _ => Throw TypeError) (fun _ => None) loaded "admin"
  = (Ok (Some BaseModuleFacts.admin), loaded).
Proof.
  intros pending loaded.
  apply (getModule_creates_once BaseModuleFacts.create
           (fun _ _ => Throw TypeError)
           (fun _ => Some BaseModuleFacts.admin) (fun _ => None)
           pending loaded BaseModuleFacts.admin "admin").
  reflexivity.
Defined.

End BaseModuleMoreFacts.

(** ** Component: properties through behaviors *)

Module ComponentPropertiesFacts.
Import CoreObjectFacts ComponentProperties.

Lemma hasProperty_answers (o : CoreObject.t) (p : key) :
  exists b, CoreObject.hasProperty o p = Ok b.
Proof.
  unfold CoreObject.hasProperty, CoreObject.registry_entry, Op_has.
  destruct (negb (CoreObject.in_this o p)); [eauto|].
  destruct p as [s|n]; [|eauto].
  destruct (CoreObject.startsWith "__" s); [eauto|].
  destruct (CoreObject.registry o !! KStr s) as [flag|] eqn:Hflag.
  - rewrite bool_decide_eq_true_2 by eauto. simpl. eauto.
  - rewrite bool_decide_eq_false_2 by (intros [x Hx]; discriminate).
    simpl. eauto.
Qed.

Lemma registered_dec (o : CoreObject.t) (p : key) :
  (registered o p /\ CoreObject.hasProperty o p = Ok true)
  \/ (~ registered o p /\ CoreObject.hasProperty o p = Ok false).
Proof.
  destruct (hasProperty_answers o p) as [[|] H].
  - left. split; [|exact H].
    unfold CoreObject.hasProperty, CoreObject.in_this, Op_has in H.
    destruct (bool_decide (is_Some (CoreObject.slots o !! p))) eqn:Hslot;
      simpl in H; [|discriminate].
    destruct p as [s|n]; [|discriminate].
    destruct (CoreObject.startsWith "__" s) eqn:Hs; [discriminate|].
    destruct (bool_decide (is_Some (CoreObject.registry o !! KStr s))) eqn:Hflag;
      simpl in H; [|discriminate].
    apply bool_decide_eq_true_1 in Hslot. apply bool_decide_eq_true_1 in Hflag.
    exists s. repeat split; assumption.
  - right. split; [|exact H]. intros Hr.
    rewrite (hasProperty_registered _ _ Hr) in H. discriminate.
Qed.

Lemma settable_dec (o : CoreObject.t) (p : key) :
  settable o p \/ ~ settable o p.
Proof.
  unfold settable.
  destruct (CoreObject.registry o !! p) as [flag|];
    [|right; intros [|]; discriminate].
  destruct (String.eqb_spec flag "w") as [->|Hw]; [left; left; reflexivity|].
  destruct (String.eqb_spec flag "a") as [->|Ha]; [left; right; reflexivity|].
  right. intros [H|H]; congruence.
Qed.

Lemma canSetProperty_unregistered (o : CoreObject.t) (p : key) :
  CoreObject.hasProperty o p = Ok false ->
  CoreObject.canSetProperty o p = Ok false.
Proof. intros H. unfold CoreObject.canSetProperty. rewrite H. reflexivity. Qed.

(** The behavior has the property. *)
Definition has_it (name : key) (behavior : CoreObject.t) : bool :=
  match CoreObject.hasProperty behavior name with
  | Ok true => true
  | _ => false
  end.

Lemma some_behavior_has (name : key) (behaviors : list CoreObject.t) :
  some_behavior (fun b => CoreObject.hasProperty b name) behaviors
  = Ok (existsb (has_it name) behaviors).
Proof.
  induction behaviors as [|b rest IH]; [reflexivity|].
  simpl. unfold has_it at 1.
  destruct (hasProperty_answers b name) as [[|] ->]; simpl;
    [reflexivity | exact IH].
Qed.

Lemma has_it_symbol (n : positive) (behaviors : list CoreObject.t) :
  existsb (has_it (KSym n)) behaviors = false.
Proof.
  induction behaviors as [|b rest IH]; [reflexivity|].
  simpl. rewrite IH. unfold has_it, CoreObject.hasProperty.
  destruct (negb (CoreObject.in_this b (KSym n))); reflexivity.
Qed.

Lemma hasProperty_no_flag (o : CoreObject.t) (name : key) :
  CoreObject.registry o !! name = None ->
  CoreObject.hasProperty o name = Ok false.
Proof.
  intros Hflag. apply hasProperty_unregistered.
  intros (s & _ & _ & _ & [flag Hsome]). rewrite Hflag in Hsome. discriminate.
Qed.

(** For a name that the registry of the component does not hold,
    [this.canSetProperty(name, false)] is false, whatever the behaviors
    hold. *)
Lemma canSetProperty_no_flag (this : t) (name : key) :
  CoreObject.registry (self this) !! name = None ->
  canSetProperty this name false = Ok false.
Proof.
  intros Hflag. unfold canSetProperty, super_canSetProperty, hasProperty.
  rewrite (hasProperty_no_flag _ _ Hflag). simpl.
  rewrite some_behavior_has. simpl.
  destruct name as [s|n].
  - destruct (existsb (has_it (KStr s)) (attached this)); simpl; [|reflexivity].
    unfold CoreObject.registry_includes, CoreObject.registry_entry.
    rewrite Hflag. reflexivity.
  - rewrite has_it_symbol. reflexivity.
Qed.

(** For a property of the component itself the virtual call changes
    nothing: [this.canSetProperty(name, false)] is [canSetProperty] of
    CoreObject on the component. *)
Lemma canSetProperty_own (this : t) (name : key) :
  registered (self this) name ->
  canSetProperty this name false = CoreObject.canSetProperty (self this) name.
Proof.
  intros Hr. unfold canSetProperty, super_canSetProperty, hasProperty,
    CoreObject.canSetProperty.
  rewrite (hasProperty_registered _ _ Hr). simpl.
  destruct Hr as (s & -> & _).
  destruct (CoreObject.registry_includes ["w"; "a"] (self this) (KStr s));
    reflexivity.
Qed.

(** A name that a behavior would handle: the registry of the component
    does not hold it, and it is not an ['on '] or ['as '] instruction. *)
Definition left_to_behaviors (this : t) (name : key) : Prop :=
  CoreObject.registry (self this) !! name = None
  /\ match name with
     | KStr s => CoreObject.startsWith "on " s = false
                 /\ CoreObject.startsWith "as " s = false
     | KSym _ => True
     end.

Lemma set_in_throws (this : t) (name : key) (v : value) :
  CoreObject.registry (self this) !! name = None ->
  forall behaviors,
    set_in this name v behaviors
    = Throw (thrown_naming name
               (if existsb (has_it name) behaviors then InvalidCallException
                else UnknownPropertyException)).
Proof.
  intros Hflag. induction behaviors as [|b rest IH]; [reflexivity|].
  simpl. unfold has_it at 1.
  destruct (hasProperty_answers b name) as [[|] ->]; simpl.
  - rewrite (canSetProperty_no_flag this name Hflag). reflexivity.
  - rewrite IH. reflexivity.
Qed.

(** [set] never assigns a property of a behavior, on a component that
    keeps clear of the members of its class, as its behaviors do.  For a
    string name of one path segment that is left to the behaviors, the
    test before
    [behavior.set] asks whether the component itself can set the property,
    and the registry of the component does not flag it: when a behavior has
    the property [set] throws InvalidCall, and UnknownProperty when none
    has.  For a symbol, which no behavior has as a property, [set] ends in
    the TypeError of the message of its last [throw]. *)
Theorem set_never_assigns_behavior_property (this : t) (name : string)
    (v : value) :
  keeps_members this = true ->
  one_segment name = true ->
  left_to_behaviors this (KStr name) ->
  set this (KStr name) v
  = Throw (if existsb (has_it (KStr name)) (attached this)
           then InvalidCallException else UnknownPropertyException)
  /\ forall n, set this (KSym n) v = Throw TypeError.
Proof.
  intros _ _ [Hflag [Hon Has]]. split.
  - unfold set, hasProperty.
    rewrite (hasProperty_no_flag _ _ Hflag). simpl.
    rewrite (set_in_throws this (KStr name) v Hflag), Hon, Has.
    simpl. destruct (existsb _ _); reflexivity.
  - intros n. unfold set, hasProperty.
    assert (Hown : CoreObject.hasProperty (self this) (KSym n) = Ok false).
    { unfold CoreObject.hasProperty.
      destruct (negb (CoreObject.in_this (self this) (KSym n))); reflexivity. }
    rewrite Hown. simpl.
    assert (Hin : forall behaviors,
               set_in this (KSym n) v behaviors = Throw TypeError).
    { induction behaviors as [|b rest IH]; [reflexivity|].
      simpl.
      assert (Hb : CoreObject.hasProperty b (KSym n) = Ok false).
      { unfold CoreObject.hasProperty.
        destruct (negb (CoreObject.in_this b (KSym n))); reflexivity. }
      rewrite Hb. simpl. rewrite IH. reflexivity. }
    rewrite Hin. reflexivity.
Qed.

(** A component without properties of its own and one behavior with a
    read-write property [level]. *)
Definition with_logger : t :=
  mk (CoreObject.new []) [CoreObject.new [(KStr "level", VNum 1)]].

Lemma set_behavior_property_witness :
  set with_logger (KStr "level") (VNum 2)
  = Throw (if existsb (has_it (KStr "level")) (attached with_logger)
           then InvalidCallException else UnknownPropertyException)
  /\ forall n, set with_logger (KSym n) (VNum 2) = Throw TypeError.
Proof.
  apply (set_never_assigns_behavior_property with_logger "level" (VNum 2)).
  - reflexivity.
  - reflexivity.
  - split; [reflexivity | split; reflexivity].
Defined.

(** [get] of a name that is not a property of the component answers what
    the first behavior that has the property answers to [get]; the
    behaviors behind it are not asked. *)
Theorem get_reads_first_behavior (this : t) (name : key)
    (before after : list CoreObject.t) (b : CoreObject.t) :
  CoreObject.hasProperty (self this) name = Ok false ->
  attached this = (before ++ b :: after)%list ->
  Forall (fun x => CoreObject.hasProperty x name = Ok false) before ->
  CoreObject.hasProperty b name = Ok true ->
  get this name = CoreObject.get b name.
Proof.
  intros Hown Hatt Hbefore Hb. unfold get, hasProperty.
  rewrite Hown, Hatt. simpl. clear Hatt.
  induction Hbefore as [|x before Hx _ IH]; simpl.
  - rewrite Hb. simpl. unfold CoreObject.get, CoreObject.canGetProperty.
    rewrite Hb. simpl.
    destruct name as [s|n]; simpl; [|reflexivity].
    destruct (CoreObject.registry_includes ["r"; "a"] b (KStr s)); reflexivity.
  - rewrite Hx. simpl. exact IH.
Qed.

Lemma get_first_behavior_witness :
  get (mk (CoreObject.new [])
          [CoreObject.new [(KStr "name", VStr "x")];
           CoreObject.new [(KStr "level", VNum 1)];
           CoreObject.new [(KStr "level", VNum 9)]])
      (KStr "level")
  = CoreObject.get (CoreObject.new [(KStr "level", VNum 1)]) (KStr "level").
Proof.
  apply (get_reads_first_behavior
           (mk (CoreObject.new [])
               [CoreObject.new [(KStr "name", VStr "x")];
                CoreObject.new [(KStr "level", VNum 1)];
                CoreObject.new [(KStr "level", VNum 9)]])
           (KStr "level")
           [CoreObject.new [(KStr "name", VStr "x")]]
           [CoreObject.new [(KStr "level", VNum 9)]]
           (CoreObject.new [(KStr "level", VNum 1)])).
  - reflexivity.
  - reflexivity.
  - repeat constructor.
  - reflexivity.
Defined.

Lemma unset_in_holder (name : key) (before after : list CoreObject.t)
    (b : CoreObject.t) :
  Forall (fun x => CoreObject.hasProperty x name = Ok false) before ->
  registered b name ->
  unset_in name (before ++ b :: after)
  = match CoreObject.canSetProperty b name with
    | Throw e => Throw e
    | Ok true => Throw (thrown_naming name InvalidCallException)
    | Ok false =>
        Ok (before ++ CoreObject.write_slot b name VNull :: after)%list
    end.
Proof.
  intros Hbefore Hb. induction Hbefore as [|x before Hx _ IH]; simpl.
  - rewrite (hasProperty_registered _ _ Hb). simpl.
    unfold CoreObject.unset. rewrite (hasProperty_registered _ _ Hb).
    destruct (CoreObject.canSetProperty b name) as [[|]|e]; reflexivity.
  - rewrite Hx. simpl. rewrite IH.
    destruct (CoreObject.canSetProperty b name) as [[|]|e]; reflexivity.
Qed.

(** [unset] treats the two kinds of property in opposite ways, for a
    string name of one path segment on a component that keeps clear of the
    members of its class, as its behaviors do.  A property of the
    component itself
    is set to [null] when it is settable and refused with InvalidCall when
    it is read-only; a property of a behavior is refused with InvalidCall
    when it is settable and set to [null] when it is read-only. *)
Theorem unset_own_and_behavior_property (this : t) (p : string) :
  keeps_members this = true ->
  one_segment p = true ->
  (registered (self this) (KStr p) ->
   (settable (self this) (KStr p) ->
    unset this (KStr p) true
    = Ok (mk (CoreObject.write_slot (self this) (KStr p) VNull)
             (attached this)))
   /\ (~ settable (self this) (KStr p) ->
       unset this (KStr p) true = Throw InvalidCallException))
  /\ (~ registered (self this) (KStr p) ->
      forall before b after,
        attached this = (before ++ b :: after)%list ->
        Forall (fun x => CoreObject.hasProperty x (KStr p) = Ok false) before ->
        registered b (KStr p) ->
        (settable b (KStr p) ->
         unset this (KStr p) true = Throw InvalidCallException)
        /\ (~ settable b (KStr p) ->
            unset this (KStr p) true
            = Ok (mk (self this)
                     (before ++ CoreObject.write_slot b (KStr p) VNull
                             :: after)%list))).
Proof.
  intros _ _. split.
  - intros Hr. unfold unset. rewrite (canSetProperty_own this (KStr p) Hr).
    unfold hasProperty.
    rewrite (hasProperty_registered _ _ Hr). simpl. split; intros Hs.
    + rewrite (canSetProperty_settable _ _ Hr Hs). reflexivity.
    + rewrite (canSetProperty_not_settable _ _ Hr Hs). reflexivity.
  - intros Hn before b after Hatt Hbefore Hb. unfold unset, hasProperty.
    rewrite (hasProperty_unregistered _ _ Hn), Hatt. simpl.
    rewrite (unset_in_holder (KStr p) before after b Hbefore Hb).
    split; intros Hs.
    + rewrite (canSetProperty_settable _ _ Hb Hs). reflexivity.
    + rewrite (canSetProperty_not_settable _ _ Hb Hs). reflexivity.
Qed.

Lemma unset_witness :
  unset (mk (CoreObject.new [(KStr "title", VStr "a")]) []) (KStr "title") true
  = Ok (mk (CoreObject.write_slot (CoreObject.new [(KStr "title", VStr "a")])
                                  (KStr "title") VNull) [])
  /\ unset (mk (CoreObject.new [(KStr "-title", VStr "a")]) []) (KStr "title")
           true
     = Throw InvalidCallException
  /\ unset with_logger (KStr "level") true = Throw InvalidCallException
  /\ unset (mk (CoreObject.new []) [CoreObject.new [(KStr "-level", VNum 1)]])
           (KStr "level") true
     = Ok (mk (CoreObject.new [])
              ([] ++ CoreObject.write_slot
                       (CoreObject.new [(KStr "-level", VNum 1)])
                       (KStr "level") VNull :: [])%list).
Proof.
  split; [|split; [|split]].
  - apply (proj1 (unset_own_and_behavior_property
                    (mk (CoreObject.new [(KStr "title", VStr "a")]) [])
                    "title" eq_refl eq_refl)).
    + exists "title". repeat split; try reflexivity; eexists; vm_compute;
        reflexivity.
    + right. vm_compute. reflexivity.
  - apply (proj1 (unset_own_and_behavior_property
                    (mk (CoreObject.new [(KStr "-title", VStr "a")]) [])
                    "title" eq_refl eq_refl)).
    + exists "title". repeat split; try reflexivity; eexists; vm_compute;
        reflexivity.
    + intros [H|H]; vm_compute in H; discriminate.
  - apply (proj2 (unset_own_and_behavior_property with_logger "level" eq_refl
                    eq_refl)
             (fun H => match H with
                       | ex_intro _ s (conj _ (conj _ (conj (ex_intro _ y Hy) _))) =>
                           eq_ind (@None value)
                             (fun o => match o with None => True | Some _ => False end)
                             I (Some y) Hy
                       end)
             [] (CoreObject.new [(KStr "level", VNum 1)]) []).
    + reflexivity.
    + constructor.
    + exists "level". repeat split; try reflexivity; eexists; vm_compute;
        reflexivity.
    + right. vm_compute. reflexivity.
  - apply (proj2 (unset_own_and_behavior_property
                    (mk (CoreObject.new []) [CoreObject.new [(KStr "-level", VNum 1)]])
                    "level" eq_refl eq_refl)
             (fun H => match H with
                       | ex_intro _ s (conj _ (conj _ (conj (ex_intro _ y Hy) _))) =>
                           eq_ind (@None value)
                             (fun o => match o with None => True | Some _ => False end)
                             I (Some y) Hy
                       end)
             [] (CoreObject.new [(KStr "-level", VNum 1)]) []).
    + reflexivity.
    + constructor.
    + exists "level". repeat split; try reflexivity; eexists; vm_compute;
        reflexivity.
    + intros [H|H]; vm_compute in H; discriminate.
Defined.

Lemma some_behavior_none (test : CoreObject.t -> result bool)
    (behaviors : list CoreObject.t) :
  (forall b, test b = Ok false) -> some_behavior test behaviors = Ok false.
Proof.
  intros Hnone. induction behaviors as [|b rest IH]; [reflexivity|].
  simpl. rewrite Hnone. exact IH.
Qed.

(** [hasMethod] of a component is false for every name, whether the class
    of the component or of a behavior defines a method of that name or
    not: so [Action.runWithParams] throws InvalidConfig for every action,
    also for one whose class defines [run]. *)
Theorem runWithParams_always_throws (this : t) (name : key) (member : bool)
    (behavior_member : CoreObject.t -> bool) (checkBehaviors : bool) :
  hasMethod this name member behavior_member checkBehaviors = Ok false
  /\ Action_runWithParams this member behavior_member
     = Throw InvalidConfigException.
Proof.
  assert (Hall : forall n m cb,
             hasMethod this n m behavior_member cb = Ok false).
  { intros n m cb. unfold hasMethod.
    rewrite (CoreObjectMoreFacts.hasMethod_false (self this) n m).
    simpl. destruct cb; [|reflexivity].
    apply some_behavior_none. intros b.
    apply CoreObjectMoreFacts.hasMethod_false. }
  split; [apply Hall|].
  unfold Action_runWithParams. rewrite Hall. reflexivity.
Qed.

End ComponentPropertiesFacts.

(** ** CallbackHelper and App.createObject *)

Module CreateObjectFacts.
Import NamespaceHelper CallbackHelper.




(** The object that [App.createObject] hands back is what [App.consumed]
    says, whatever the container answers. *)
Lemma createObject_consumes (w : world) (depth : nat) (c : Container.t)
    (type : value) (configuration : list value) :
  snd (fst (App.createObject w depth c type configuration))
  = App.consumed type.
Proof.
  unfold App.createObject, App.consumed.
  destruct type as [| |b|n|s|fields|k fid| |o ns]; simpl; try reflexivity.
  - destruct (Container.get w depth c s configuration). reflexivity.
  - destruct (bool_decide (is_Some (lookup_field "namespace" fields)));
      [|reflexivity].
    destruct (Container.own_keys_length (App.last_or_empty configuration));
      [|reflexivity].
    destruct (default VUndefined (lookup_field "namespace" fields));
      try reflexivity.
    destruct (Container.get w depth c s _). reflexivity.
  - destruct (Container.own_keys_length (App.last_or_empty configuration));
      [|reflexivity].
    destruct (Container.get w depth c ns _). reflexivity.
Qed.

(** What [App.createObject] refuses, the container untouched: [null] and
    [undefined] end in the TypeError of [CallbackHelper.isAsync]; a number,
    a boolean, a promise and an object without [namespace] end in
    InvalidConfig. *)
Theorem createObject_refuses (w : world) (depth : nat) (c : Container.t)
    (type : value) (configuration : list value) :
  R_is_String type = false ->
  CallbackHelper.isFunction type = false ->
  has_namespace type = false ->
  App.createObject w depth c type configuration
  = (Throw (match type with
            | VNull | VUndefined => TypeError
            | _ => InvalidConfigException
            end), type, c).
Proof.
  intros Hstr Hfn Hns.
  destruct type as [| |b|n|s|fields|k fid| |o ns]; try discriminate;
    try reflexivity.
  unfold App.createObject. simpl. simpl in Hns. rewrite Hns. reflexivity.
Qed.

Lemma createObject_refuses_witness :
  App.createObject ContainerFacts.open_world 1 Container.empty VNull [VObject []]
  = (Throw (match VNull with
            | VNull | VUndefined => TypeError
            | _ => InvalidConfigException
            end), VNull, Container.empty).
Proof.
  apply (createObject_refuses ContainerFacts.open_world 1 Container.empty VNull
           [VObject []]); reflexivity.
Defined.

End CreateObjectFacts.

(** ** Instance: references to components *)

Module InstanceFacts.
Import NamespaceHelper Instance.

(** [ensure] with a type never answers a component: the test of the type
    is [instanceof] with a string on its right, a TypeError, so with a
    type that is not [null] every call ends in an exception, whatever the
    reference and the container. *)
Theorem ensure_with_type_never_returns (w : world) (depth : nat)
    (reference : value) (type : string) (container : Container.t) :
  exists e, fst (fst (ensure w depth reference (Some type) container)) = Throw e.
Proof.
  unfold ensure. destruct (R_is_Object reference).
  - destruct (if has_namespace reference then get_namespace reference
              else VStr type) as [| |b|n|s|fields|k f| |o ns]; simpl; eauto.
    + destruct (Container.get w depth container "null" _) as [[v|e] c']; simpl;
        eauto.
    + destruct (Container.get w depth container s _) as [[v|e] c']; simpl; eauto.
  - destruct (isEmpty reference); simpl; [eauto|].
    destruct reference as [| |b|n|s|fields|k f| |o ns]; simpl; eauto.
    unfold get. simpl.
    destruct (Container.get w depth container s _) as [[v|e] c']; simpl; eauto.
Qed.

(** A reference by ID: [ensure] of a string that is not empty, without a
    type, answers what the container answers for the ID and turns
    whatever the container throws into InvalidConfig; [get] of an optional
    reference never throws, it answers [null] where the container
    throws. *)
Theorem reference_by_id (w : world) (depth : nat) (s : string)
    (container : Container.t) :
  (s <> "" ->
   ensure w depth (VStr s) None container
   = match Container.get w depth container s [VObject []] with
     | (Ok component, c') => (Ok component, VStr s, c')
     | (Throw _, c') => (Throw InvalidConfigException, VStr s, c')
     end)
  /\ get w depth (Instance_of s true) container
     = match Container.get w depth container s [VObject []] with
       | (Ok component, c') => (Ok component, c')
       | (Throw _, c') => (Ok VNull, c')
       end.
Proof.
  split.
  - intros Hs. unfold ensure, get. simpl.
    destruct (String.eqb_spec s "") as [->|_]; [contradiction|].
    destruct (Container.get w depth container s [VObject []]) as [[v|e] c'];
      reflexivity.
  - unfold get, Instance_of. simpl.
    destruct (Container.get w depth container s [VObject []]) as [[v|e] c'];
      reflexivity.
Qed.

Lemma reference_by_id_witness :
  ensure ContainerFacts.open_world 1 (VStr "mailer") None Container.empty
  = match Container.get ContainerFacts.open_world 1 Container.empty "mailer"
            [VObject []] with
    | (Ok component, c') => (Ok component, VStr "mailer", c')
    | (Throw _, c') => (Throw InvalidConfigException, VStr "mailer", c')
    end.
Proof.
  apply (proj1 (reference_by_id ContainerFacts.open_world 1 "mailer"
                  Container.empty)).
  discriminate.
Defined.

(** The reference of the example names no class: [ensure] ends in
    InvalidConfig. *)
Example missing_component_is_invalid_config :
  fst (fst (ensure ContainerFacts.open_world 1 (VStr "mailer") None
              Container.empty))
  = Throw InvalidConfigException.
Proof. vm_compute. reflexivity. Qed.

End InstanceFacts.

(** ** BaseApp: path aliases *)

Module BaseAppFacts.
Import StringHelper ArrayHelper BaseApp.

Lemma chars_append (a b : string) :
  chars (a +:+ b) = (chars a ++ chars b)%list.
Proof.
  unfold chars. induction a as [|c a IH]; simpl; [reflexivity|].
  rewrite IH. reflexivity.
Qed.

Lemma text_chars (a : string) : text (chars a) = a.
Proof. apply string_of_list_ascii_of_string. Qed.

Lemma length_chars (a : string) : length (chars a) = String.length a.
Proof.
  unfold chars. induction a as [|c a IH]; simpl; [reflexivity|].
  rewrite IH. reflexivity.
Qed.

Lemma prefix_empty (h : string) : String.prefix "" h = true.
Proof. destruct h; reflexivity. Qed.

Lemma prefix_append (a b : string) : String.prefix a (a +:+ b) = true.
Proof.
  induction a as [|c a IH]; simpl; [apply prefix_empty|].
  destruct (ascii_dec c c) as [_|Hne]; [exact IH | contradiction].
Qed.

(** [haystack.indexOf(needle) === 0] for a haystack that begins with the
    needle. *)
Lemma strpos_prefix (needle rest : string) (c : ascii) :
  strpos (needle +:+ String c rest) needle = Some 0%nat.
Proof.
  unfold strpos.
  pose proof (prefix_append needle (String c rest)) as Hp.
  destruct (needle +:+ String c rest) as [|x h] eqn:E.
  - destruct needle; discriminate.
  - cbn -[String.prefix]. rewrite Hp. reflexivity.
Qed.

Lemma index_cons (needle h : string) (c : ascii) :
  String.index 0 needle (String c h)
  = if String.prefix needle (String c h) then Some 0%nat
    else match String.index 0 needle h with
         | Some n => Some (S n)
         | None => None
         end.
Proof. reflexivity. Qed.

Lemma prefix_slash (c : ascii) (h : string) :
  String.prefix "/" (String c h) = Ascii.eqb "/" c.
Proof.
  destruct (Ascii.eqb_spec "/" c) as [<-|Hne].
  - simpl. apply prefix_empty.
  - cbn -[ascii_dec]. destruct (ascii_dec "/" c); [contradiction|reflexivity].
Qed.

(** The first slash of [r + '/' + rest] for an [r] without slash. *)
Lemma strpos_first_slash (r rest : string) :
  strpos r "/" = None ->
  strpos (r +:+ "/" +:+ rest) "/" = Some (String.length r).
Proof.
  unfold strpos. induction r as [|c r IH]; intros Hnone.
  - change ("" +:+ "/" +:+ rest) with (String "/" rest).
    rewrite index_cons, prefix_slash. reflexivity.
  - change (String c r +:+ "/" +:+ rest) with (String c (r +:+ "/" +:+ rest)).
    rewrite index_cons, prefix_slash in Hnone |- *.
    destruct (Ascii.eqb "/" c); [discriminate|].
    destruct (String.index 0 "/" r) as [n|] eqn:Hr; [discriminate|].
    rewrite (IH eq_refl). reflexivity.
Qed.

Lemma substring_prefix (a b : string) :
  substring 0 (String.length a) (a +:+ b) = a.
Proof.
  unfold substring. rewrite chars_append, Nat.sub_0_r, drop_0.
  rewrite <- length_chars, take_app_length. apply text_chars.
Qed.

Lemma substring_from_suffix (a b : string) :
  substring_from (String.length a) (a +:+ b) = b.
Proof.
  unfold substring_from. rewrite chars_append, <- length_chars.
  rewrite drop_app_length. apply text_chars.
Qed.

Lemma root_of_nested (r rest : string) :
  strpos r "/" = None -> root_of (r +:+ "/" +:+ rest) = r.
Proof.
  intros Hr. unfold root_of, substr. rewrite (strpos_first_slash r rest Hr).
  rewrite Nat.min_0_l, Nat.max_0_l. apply substring_prefix.
Qed.

Lemma root_of_root (r : string) : strpos r "/" = None -> root_of r = r.
Proof. intros Hr. unfold root_of. rewrite Hr. reflexivity. Qed.

Lemma append_cons (x : ascii) (a b : string) :
  String x a +:+ b = String x (a +:+ b).
Proof. reflexivity. Qed.

Lemma append_assoc (a b c : string) : (a +:+ b) +:+ c = a +:+ b +:+ c.
Proof.
  induction a as [|x a IH]; [reflexivity|].
  rewrite !append_cons, IH. reflexivity.
Qed.

Lemma append_empty (a : string) : a +:+ "" = a.
Proof.
  induction a as [|x a IH]; [reflexivity|].
  rewrite append_cons, IH. reflexivity.
Qed.

Lemma strpos_begins (needle rest : string) :
  needle <> "" -> strpos (needle +:+ rest) needle = Some 0%nat.
Proof.
  intros Hne. unfold strpos.
  pose proof (prefix_append needle rest) as Hp.
  destruct (needle +:+ rest) as [|x h] eqn:E.
  - destruct needle; [contradiction|discriminate].
  - rewrite index_cons, Hp. reflexivity.
Qed.

Lemma ascii_compare_refl (c : ascii) : Ascii.compare c c = Eq.
Proof.
  pose proof (Ascii.compare_antisym c c) as H.
  destruct (Ascii.compare c c); simpl in H; congruence.
Qed.

Lemma compare_refl (a : string) : String.compare a a = Eq.
Proof.
  induction a as [|x a IH]; simpl; [reflexivity|].
  rewrite ascii_compare_refl. exact IH.
Qed.

(** A string sorts before every string it is a proper prefix of. *)
Lemma compare_proper_prefix (a rest : string) (c : ascii) :
  String.compare a (a +:+ String c rest) = Lt.
Proof.
  induction a as [|x a IH]; [reflexivity|].
  rewrite append_cons. simpl. rewrite ascii_compare_refl. exact IH.
Qed.

Lemma leb_proper_prefix (a rest : string) (c : ascii) :
  String.leb a (a +:+ String c rest) = true
  /\ String.leb (a +:+ String c rest) a = false.
Proof.
  unfold String.leb.
  rewrite (String.compare_antisym (a +:+ String c rest) a).
  rewrite compare_proper_prefix. split; reflexivity.
Qed.

Lemma leb_refl (a : string) : String.leb a a = true.
Proof. unfold String.leb. rewrite compare_refl. reflexivity. Qed.

Lemma insert_key_in (k v : string) (sorted : list (string * string))
    (e : string * string) :
  In e (insert_key k v sorted) -> e = (k, v) \/ In e sorted.
Proof.
  induction sorted as [|[k' v'] sorted IH]; simpl.
  - intros [<-|[]]. left. reflexivity.
  - destruct (String.leb k k'); simpl.
    + intros [<-|H]; [left; reflexivity | right; exact H].
    + intros [<-|H]; [right; left; reflexivity|].
      destruct (IH H) as [->|Hin]; [left; reflexivity | right; right; exact Hin].
Qed.

Lemma krsort_in (input : list (string * string)) (e : string * string) :
  In e (krsort input) -> In e input.
Proof.
  induction input as [|[k v] input IH]; simpl; [intros []|].
  intros H. destruct (insert_key_in _ _ _ _ H) as [->|Hin].
  - left. reflexivity.
  - right. apply IH. exact Hin.
Qed.

(** The entry whose key sorts before every other key comes first. *)
Lemma krsort_head (root path : string) (input : list (string * string)) :
  In (root, path) input ->
  (forall k v, In (k, v) input ->
     (k, v) = (root, path)
     \/ (String.leb root k = true /\ String.leb k root = false)) ->
  exists rest, krsort input = (root, path) :: rest.
Proof.
  induction input as [|[k v] input IH]; intros Hin Hmin; [destruct Hin|].
  simpl.
  assert (Hmin' : forall k0 v0, In (k0, v0) input ->
            (k0, v0) = (root, path)
            \/ (String.leb root k0 = true /\ String.leb k0 root = false)).
  { intros k0 v0 H0. apply Hmin. right. exact H0. }
  destruct (Hmin k v (or_introl eq_refl)) as [Heq|[Hle Hgt]].
  - injection Heq as -> ->.
    destruct (krsort input) as [|[k' v'] sorted] eqn:Hsorted.
    + exists []. reflexivity.
    + simpl.
      assert (Hk' : String.leb root k' = true).
      { destruct (Hmin' k' v') as [Heq|[Hle _]].
        - apply krsort_in. rewrite Hsorted. left. reflexivity.
        - injection Heq as -> _. apply leb_refl.
        - exact Hle. }
      rewrite Hk'. eexists. reflexivity.
  - destruct Hin as [Heq|Hin].
    { injection Heq as -> ->. rewrite leb_refl in Hgt. discriminate. }
    destruct (IH Hin Hmin') as [rest Hrest]. rewrite Hrest. simpl.
    rewrite Hgt. eexists. reflexivity.
Qed.

(** A string begins with ['@'] exactly when [strncmp(s, '@', 1)] is 0. *)
Lemma strncmp_at (s : string) :
  strncmp s "@" 1 = 0%Z <-> exists r, s = String "@" r.
Proof.
  unfold strncmp, substring. split.
  - destruct s as [|c r]; simpl; [discriminate|].
    destruct (Ascii.compare c "@") eqn:Hc; try discriminate.
    intros _. apply Ascii.compare_eq_iff in Hc. subst. eauto.
  - intros [r ->]. reflexivity.
Qed.

Lemma strncmp_nested (root rest : string) :
  strncmp root "@" 1 = 0%Z -> strncmp (root +:+ rest) "@" 1 = 0%Z.
Proof.
  intros H. apply strncmp_at in H. destruct H as [r ->].
  apply strncmp_at. simpl. eauto.
Qed.

(** A path that [setAlias] stores as it is given: not empty, not an alias,
    and without a backslash and a slash at its end. *)
Definition plain_path (path : string) : Prop :=
  path <> "" /\ strncmp path "@" 1 <> 0%Z /\ replace_trailing path = path.

Lemma setAlias_plain (normalize : string -> string)
    (aliases : gmap string registered) (alias path : string) :
  strncmp alias "@" 1 = 0%Z ->
  plain_path path ->
  setAlias normalize aliases alias (Some path)
  = Returns
      match aliases !! root_of alias with
      | None =>
          match strpos alias "/" with
          | None => <[root_of alias := Path path]> aliases
          | Some _ => <[root_of alias := Table [(alias, path)]]> aliases
          end
      | Some (Path old) =>
          match strpos alias "/" with
          | None => <[root_of alias := Path path]> aliases
          | Some _ =>
              <[root_of alias := Table [(alias, path); (root_of alias, old)]]>
                aliases
          end
      | Some (Table table) =>
          <[root_of alias := Table (krsort (set_entry alias path table))]>
            aliases
      end.
Proof.
  intros Halias (Hne & Hplain & Hkeep). unfold setAlias.
  rewrite Halias. simpl negb. cbv iota.
  destruct path as [|c p]; [contradiction|].
  destruct (strncmp (String c p) "@" 1 =? 0)%Z eqn:Hcmp.
  - apply Z.eqb_eq in Hcmp. contradiction.
  - simpl negb. cbv iota. rewrite Hkeep. reflexivity.
Qed.

(** A root alias and its path: after [setAlias(root, path)] for a root
    that is free or holds a path, [getAlias(root)] is the normalised path,
    [getAlias(root + '/' + rest)] is the normalised path followed by
    ['/' + rest], and [getRootAlias] of such an alias is the root. *)
Theorem root_alias_round_trip (normalize : string -> string)
    (aliases : gmap string registered) (root path rest : string)
    (throwException : bool) :
  strncmp root "@" 1 = 0%Z ->
  strpos root "/" = None ->
  plain_path path ->
  (forall table, aliases !! root <> Some (Table table)) ->
  exists aliases',
    setAlias normalize aliases root (Some path) = Returns aliases'
    /\ getAlias normalize aliases' root throwException
       = Returns (Some (normalize path))
    /\ getAlias normalize aliases' (root +:+ "/" +:+ rest) throwException
       = Returns (Some (normalize (path +:+ "/" +:+ rest)))
    /\ getRootAlias aliases' (root +:+ "/" +:+ rest) = Some root.
Proof.
  intros Hat Hroot Hpath Hfree.
  exists (<[root := Path path]> aliases). split; [|split; [|split]].
  - rewrite (setAlias_plain normalize aliases root path Hat Hpath).
    rewrite (root_of_root root Hroot), Hroot.
    destruct (aliases !! root) as [[old|table]|] eqn:Hold; try reflexivity.
    exfalso. exact (Hfree table eq_refl).
  - unfold getAlias. rewrite Hat, (root_of_root root Hroot), Hroot.
    simpl negb. cbv iota. rewrite lookup_insert_eq. reflexivity.
  - unfold getAlias.
    rewrite (strncmp_nested root ("/" +:+ rest) Hat).
    rewrite (root_of_nested root rest Hroot), (strpos_first_slash root rest Hroot).
    simpl negb. cbv iota. rewrite lookup_insert_eq.
    rewrite substring_from_suffix. reflexivity.
  - unfold getRootAlias.
    rewrite (root_of_nested root rest Hroot), lookup_insert_eq. reflexivity.
Qed.

Lemma root_alias_witness :
  exists aliases',
    setAlias (fun p => p) ∅ "@app" (Some "/var/www") = Returns aliases'
    /\ getAlias (fun p => p) aliases' "@app" true = Returns (Some "/var/www")
    /\ getAlias (fun p => p) aliases' ("@app" +:+ "/" +:+ "views/site") true
       = Returns (Some ("/var/www" +:+ "/" +:+ "views/site"))
    /\ getRootAlias aliases' ("@app" +:+ "/" +:+ "views/site") = Some "@app".
Proof.
  apply (root_alias_round_trip (fun p => p) ∅ "@app" "/var/www" "views/site"
           true).
  - reflexivity.
  - reflexivity.
  - split; [discriminate | split; [vm_compute; discriminate | reflexivity]].
  - intros table H. discriminate H.
Defined.

Lemma strpos_self (needle : string) :
  needle <> "" -> strpos needle needle = Some 0%nat.
Proof.
  intros Hne. pose proof (strpos_begins needle "" Hne) as H.
  rewrite append_empty in H. exact H.
Qed.

Lemma substring_from_all (a : string) :
  substring_from (String.length a) a = "".
Proof.
  pose proof (substring_from_suffix a "") as H.
  rewrite append_empty in H. exact H.
Qed.

Lemma nested_not_root (root x : string) :
  String.eqb root (root +:+ "/" +:+ x) = false.
Proof.
  apply String.eqb_neq. intros Heq.
  pose proof (compare_proper_prefix root x "/") as Hlt.
  change (root +:+ String "/" x) with (root +:+ "/" +:+ x) in Hlt.
  rewrite <- Heq, compare_refl in Hlt. discriminate.
Qed.

(** The order of the table decides which alias translates a path.  A root
    alias, then a nested alias: the table holds the nested alias first, and
    it translates itself.  A third registration under the root sorts the
    table with the shortest key first, and from then on every alias under
    the root, the nested ones included, is translated through the root
    alias alone. *)
Theorem sorted_table_shadows_nested_aliases (normalize : string -> string)
    (aliases : gmap string registered) (root a b p0 p1 p2 : string)
    (throwException : bool) :
  strncmp root "@" 1 = 0%Z ->
  strpos root "/" = None ->
  aliases !! root = None ->
  plain_path p0 -> plain_path p1 -> plain_path p2 ->
  exists A1 A2 A3,
    setAlias normalize aliases root (Some p0) = Returns A1
    /\ setAlias normalize A1 (root +:+ "/" +:+ a) (Some p1) = Returns A2
    /\ getAlias normalize A2 (root +:+ "/" +:+ a) throwException
       = Returns (Some (normalize p1))
    /\ setAlias normalize A2 (root +:+ "/" +:+ b) (Some p2) = Returns A3
    /\ forall y,
         getAlias normalize A3 (root +:+ "/" +:+ y) throwException
         = Returns (Some (normalize (p0 +:+ "/" +:+ y))).
Proof.
  intros Hat Hroot Hfree H0 H1 H2.
  assert (Hnested : forall x, strncmp (root +:+ "/" +:+ x) "@" 1 = 0%Z).
  { intros x. apply strncmp_nested. exact Hat. }
  assert (Hne : forall x, (root +:+ "/" +:+ x) +:+ "/" <> "").
  { intros x. apply strncmp_at in Hat. destruct Hat as [r ->]. discriminate. }
  destruct (krsort_head root p0
              (set_entry (root +:+ "/" +:+ b) p2
                 [(root +:+ "/" +:+ a, p1); (root, p0)])) as [rest Hsorted].
  { simpl. destruct (String.eqb (root +:+ "/" +:+ a) (root +:+ "/" +:+ b)).
    - right. left. reflexivity.
    - right. rewrite nested_not_root. left. reflexivity. }
  { intros k v Hin.
    assert (Hcases : (k, v) = (root, p0)
                     \/ exists x, k = root +:+ "/" +:+ x).
    { simpl in Hin.
      destruct (String.eqb (root +:+ "/" +:+ a) (root +:+ "/" +:+ b)).
      - destruct Hin as [[= <- <-]|[Hin|[]]]; eauto.
      - rewrite nested_not_root in Hin.
        destruct Hin as [[= <- <-]|[Hin|[[= <- <-]|[]]]]; eauto. }
    destruct Hcases as [Heq|[x ->]]; [left; exact Heq|].
    right. apply (leb_proper_prefix root x "/"). }
  exists (<[root := Path p0]> aliases).
  exists (<[root := Table [(root +:+ "/" +:+ a, p1); (root, p0)]]>
            (<[root := Path p0]> aliases)).
  exists (<[root := Table ((root, p0) :: rest)]>
            (<[root := Table [(root +:+ "/" +:+ a, p1); (root, p0)]]>
               (<[root := Path p0]> aliases))).
  split; [|split; [|split; [|split]]].
  - rewrite (setAlias_plain normalize aliases root p0 Hat H0).
    rewrite (root_of_root root Hroot), Hroot, Hfree. reflexivity.
  - rewrite (setAlias_plain normalize _ _ p1 (Hnested a) H1).
    rewrite (root_of_nested root a Hroot), (strpos_first_slash root a Hroot).
    rewrite lookup_insert_eq. reflexivity.
  - unfold getAlias. rewrite (Hnested a), (root_of_nested root a Hroot).
    simpl negb. cbv iota. rewrite lookup_insert_eq.
    unfold first_match. rewrite (strpos_self _ (Hne a)).
    rewrite substring_from_all, append_empty. reflexivity.
  - rewrite (setAlias_plain normalize _ _ p2 (Hnested b) H2).
    rewrite (root_of_nested root b Hroot), lookup_insert_eq, Hsorted.
    reflexivity.
  - intros y. unfold getAlias.
    rewrite (Hnested y), (root_of_nested root y Hroot).
    simpl negb. cbv iota. rewrite lookup_insert_eq.
    unfold first_match.
    replace ((root +:+ "/" +:+ y) +:+ "/")
      with ((root +:+ "/") +:+ y +:+ "/")
      by (rewrite !append_assoc; reflexivity).
    rewrite strpos_begins.
    + rewrite substring_from_suffix. reflexivity.
    + apply strncmp_at in Hat. destruct Hat as [r ->]. discriminate.
Qed.

Lemma sorted_table_witness :
  exists A1 A2 A3,
    setAlias (fun p => p) ∅ "@app" (Some "/srv/app") = Returns A1
    /\ setAlias (fun p => p) A1 ("@app" +:+ "/" +:+ "views") (Some "/srv/theme")
       = Returns A2
    /\ getAlias (fun p => p) A2 ("@app" +:+ "/" +:+ "views") true
       = Returns (Some "/srv/theme")
    /\ setAlias (fun p => p) A2 ("@app" +:+ "/" +:+ "models") (Some "/srv/data")
       = Returns A3
    /\ forall y,
         getAlias (fun p => p) A3 ("@app" +:+ "/" +:+ y) true
         = Returns (Some ("/srv/app" +:+ "/" +:+ y)).
Proof.
  apply (sorted_table_shadows_nested_aliases (fun p => p) ∅ "@app" "views"
           "models" "/srv/app" "/srv/theme" "/srv/data" true);
    try reflexivity;
    (split; [discriminate | split; [vm_compute; discriminate | reflexivity]]).
Defined.

(** The failing translation on concrete aliases: after the three
    registrations ['@app/views'] is no longer translated to its own
    path. *)
Example nested_alias_lost :
  let N := fun p : string => p in
  exists A1 A2 A3,
    setAlias N ∅ "@app" (Some "/srv/app") = Returns A1
    /\ setAlias N A1 "@app/views" (Some "/srv/theme") = Returns A2
    /\ setAlias N A2 "@app/models" (Some "/srv/data") = Returns A3
    /\ getAlias N A2 "@app/views/site.html" true
       = Returns (Some "/srv/theme/site.html")
    /\ getAlias N A3 "@app/views/site.html" true
       = Returns (Some "/srv/app/views/site.html").
Proof.
  intros N. do 3 eexists.
  split; [vm_compute; reflexivity|].
  split; [vm_compute; reflexivity|].
  split; [vm_compute; reflexivity|].
  split; vm_compute; reflexivity.
Qed.

End BaseAppFacts.
